(** * FluidNightmare: the ray tracing core of [source/main.cpp]

    A shallow embedding of [fluid_nightmare_main] (its [initialize],
    [update] and [render] overrides) together with the properties of scene
    ingestion, acceleration-structure sizing, push constants, per-frame
    command order and resize/reload handling.

    Conventions.
    - [std::vector] members are lists, [push_back] appends at the end.
    - [static_cast<uint32_t>] and [static_cast<int>] of a [size_t] and
      [int64_t] arithmetic are written out with their wrap-around on [Z].
    - [float] is IEEE binary32, carried by the Standard Library's
      [spec_float] with precision 24 and maximal exponent 128; what a
      float is worth is said with rational numbers.
    - The Gears-Vk / Auto-Vk framework is an external collaborator; the
      parts of it the program calls but does not define are the fields of
      the class [Gvk]. *)

From Stdlib Require Import ZArith List Lia Sorted.
From Stdlib Require Import Floats.SpecFloat.
From Stdlib Require Import QArith Qabs.
From stdpp Require Import base decidable list strings.

Open Scope Z_scope.

(** ** Machine integers and floats *)

(** [static_cast<uint32_t>(v.size())] *)
Definition to_uint32 (n : nat) : Z := Z.of_nat n mod 2 ^ 32.

(** [static_cast<int>(v.size())], two's complement on 32 bits *)
Definition to_int (n : nat) : Z := (Z.of_nat n + 2 ^ 31) mod 2 ^ 32 - 2 ^ 31.

(** The result of an operation on [int64_t], two's complement on 64 bits.
    Signed overflow is undefined in C++; the embedding lets it wrap as the
    hardware does, and what is proved about such a result assumes that the
    operation stays in range. *)
Definition to_int64 (z : Z) : Z := (z + 2 ^ 63) mod 2 ^ 64 - 2 ^ 63.

Definition float : Type := spec_float.

#[global] Instance float_eq_dec : EqDecision float.
Proof. solve_decision. Defined.

(** [a * b], [a + b], [a / b] and [sqrt(a)] on [float] *)
Definition fmul (a b : float) : float := SFmul 24 128 a b.
Definition fadd (a b : float) : float := SFadd 24 128 a b.
Definition fdiv (a b : float) : float := SFdiv 24 128 a b.
Definition fsqrt (a : float) : float := SFsqrt 24 128 a.

(** The literals [0.f], [0.5f], [0.8f], [1.0f], [10.0f], [45.0f], [60.0f],
    [100.0f], [160.0f], and [0.75f] for the samples *)
Definition f_zero : float := S754_zero false.
Definition f_half : float := S754_finite false 8388608 (-24).
Definition f_0_75 : float := S754_finite false 12582912 (-24).
Definition f_0_8 : float := S754_finite false 13421773 (-24).
Definition f_one : float := S754_finite false 8388608 (-23).
Definition f_10 : float := S754_finite false 10485760 (-20).
Definition f_45 : float := S754_finite false 11796480 (-18).
Definition f_60 : float := S754_finite false 15728640 (-18).
Definition f_100 : float := S754_finite false 13107200 (-17).
Definition f_160 : float := S754_finite false 10485760 (-16).

(** [glm::radians(x)] multiplies by the [float] nearest to pi/180
    (bit pattern 0x3C8EFA35). *)
Definition f_pi_over_180 : float := S754_finite false 9370165 (-29).
Definition glm_radians (degrees : float) : float := fmul degrees f_pi_over_180.

(** The rational number a [float] stands for: a finite one for
    [(-1)^s * m * 2^e], any other for zero. *)
Definition float_value (f : float) : Q :=
  match f with
  | S754_finite s m e => (inject_Z (if s then Zneg m else Zpos m) * Qpower 2 e)%Q
  | _ => 0%Q
  end.

(** pi/180 to 32 decimal places. *)
Definition pi_over_180 : Q :=
  (1745329251994329576923690768489 # 100000000000000000000000000000000)%Q.

(** Half of an angle that is given in degrees, in radians. *)
Definition half_angle_in_radians (degrees : Q) : Q := (degrees * pi_over_180 / 2)%Q.

(** A field of view as the widget of line 194 leaves it: a binary32
    number from 10 to 160. *)
Definition field_of_view_in_range (fov : float) : Prop :=
  valid_binary 24 128 fov = true /\ SFleb f_10 fov = true /\ SFleb fov f_160 = true.

Record vec3 := mk_vec3 { v3x : float; v3y : float; v3z : float }.
Record vec4 := mk_vec4 { v4x : float; v4y : float; v4z : float; v4w : float }.
(** [glm::mat4]: four columns *)
Record mat4 := mk_mat4 { col0 : vec4; col1 : vec4; col2 : vec4; col3 : vec4 }.

#[global] Instance vec3_eq_dec : EqDecision vec3.
Proof. solve_decision. Defined.
#[global] Instance vec4_eq_dec : EqDecision vec4.
Proof. solve_decision. Defined.
#[global] Instance mat4_eq_dec : EqDecision mat4.
Proof. solve_decision. Defined.

(** [glm::vec4{v, w}] *)
Definition vec4_of (v : vec3) (w : float) : vec4 := mk_vec4 (v3x v) (v3y v) (v3z v) w.

Definition vec4_floats (v : vec4) : list float := [v4x v; v4y v; v4z v; v4w v].

(** [glm::dot(a, b)] on [glm::vec3]: the three products, summed from left
    to right. *)
Definition glm_dot (a b : vec3) : float :=
  fadd (fadd (fmul (v3x a) (v3x b)) (fmul (v3y a) (v3y b))) (fmul (v3z a) (v3z b)).

(** [glm::inversesqrt(x)] is [1 / sqrt(x)]. *)
Definition glm_inversesqrt (x : float) : float := fdiv f_one (fsqrt x).

(** [glm::normalize(v)] is [v * inversesqrt(dot(v, v))]. *)
Definition glm_normalize (v : vec3) : vec3 :=
  let k := glm_inversesqrt (glm_dot v v) in
  mk_vec3 (fmul (v3x v) k) (fmul (v3y v) k) (fmul (v3z v) k).

(** [gvk::to_array]: the sixteen entries, column after column *)
Definition to_array (m : mat4) : list float :=
  vec4_floats (col0 m) ++ vec4_floats (col1 m) ++ vec4_floats (col2 m) ++ vec4_floats (col3 m).

(** ** The framework interface

    What [main.cpp] uses from Gears-Vk without defining it: the material
    and model types of the scene loader, the grouping of a model's meshes
    by material, the conversion of materials for the GPU, the transform
    of a placement, and the camera. *)

Class Gvk := {
  (** [gvk::material_config] *)
  material_config : Type;
  (** [gvk::model], the loaded meshes of one model *)
  model_t : Type;
  model_t_eq_dec :: EqDecision model_t;
  (** [model->distinct_material_configs()]: each distinct material with
      the indices of the meshes that use it, in iteration order *)
  distinct_material_configs : model_t -> list (material_config * list nat);
  (** [gvk::material_gpu_data] and [avk::image_sampler] *)
  material_gpu_data : Type;
  material_gpu_data_eq_dec :: EqDecision material_gpu_data;
  image_sampler : Type;
  image_sampler_eq_dec :: EqDecision image_sampler;
  (** [gvk::convert_for_gpu_usage(materials, ...)] *)
  convert_for_gpu_usage :
    list material_config -> list material_gpu_data * list image_sampler;
  (** [gpu_data_of mc g]: [g] is the GPU form of the material [mc] *)
  gpu_data_of : material_config -> material_gpu_data -> Prop;
  (** the conversion keeps one entry per material, in the order given *)
  convert_for_gpu_usage_aligned :
    forall ms, Forall2 gpu_data_of ms (fst (convert_for_gpu_usage ms));
  (** [gvk::matrix_from_transforms(t, glm::quat(r), s)] with [r] the Euler
      angles of the rotation *)
  matrix_from_transforms : vec3 -> vec3 -> vec3 -> mat4;
  (** [gvk::quake_camera] *)
  quake_camera : Type;
  cam_default : quake_camera;
  cam_set_translation : vec3 -> quake_camera -> quake_camera;
  cam_translation : quake_camera -> vec3;
  cam_set_perspective_projection :
    float -> float -> float -> float -> quake_camera -> quake_camera;
  cam_global_transformation_matrix : quake_camera -> mat4;
  cam_is_enabled : quake_camera -> bool;
  cam_enable : quake_camera -> quake_camera;
  cam_disable : quake_camera -> quake_camera
}.

(** ** Scene input: [gvk::orca_scene_t] *)

Section Scene.
Context `{G : Gvk}.

(** [gvk::model_instance_data] *)
Record model_instance_data := {
  mTranslation : vec3;
  mScaling : vec3;
  mRotation : vec3
}.

(** [gvk::model_data] *)
Record model_data := {
  mName : string;
  mInstances : list model_instance_data;
  mLoadedModel : model_t
}.

(** [orca->models()] *)
Definition orca_scene := list model_data.

(** ** GPU resources *)

Inductive vertex_attribute := positions | indices | normals | texture_coordinates.

#[global] Instance vertex_attribute_eq_dec : EqDecision vertex_attribute.
Proof. solve_decision. Defined.

(** [gvk::make_models_and_meshes_selection(model, meshIndices)] *)
Record selection := {
  sel_model : model_t;
  sel_meshes : list nat
}.

#[global] Instance selection_eq_dec : EqDecision selection.
Proof. solve_decision. Defined.

(** A texel buffer holding one attribute of the selected meshes;
    [buf_device_address] is [vk::BufferUsageFlagBits::eShaderDeviceAddressKHR]. *)
Record buffer := {
  buf_attribute : vertex_attribute;
  buf_selection : selection;
  buf_device_address : bool
}.

#[global] Instance buffer_eq_dec : EqDecision buffer.
Proof. solve_decision. Defined.

Definition create_vertex_and_index_buffers (sel : selection) (device_address : bool)
  : buffer * buffer :=
  ({| buf_attribute := positions; buf_selection := sel; buf_device_address := device_address |},
   {| buf_attribute := indices; buf_selection := sel; buf_device_address := device_address |}).

Definition create_normals_buffer (sel : selection) : buffer :=
  {| buf_attribute := normals; buf_selection := sel; buf_device_address := false |}.

Definition create_2d_texture_coordinates_buffer (sel : selection) : buffer :=
  {| buf_attribute := texture_coordinates; buf_selection := sel; buf_device_address := false |}.

(** [avk::buffer_view] over an owned buffer *)
Record buffer_view := { view_buffer : buffer }.

#[global] Instance buffer_view_eq_dec : EqDecision buffer_view.
Proof. solve_decision. Defined.

Definition create_buffer_view (b : buffer) : buffer_view := {| view_buffer := b |}.

(** [avk::vertex_index_buffer_pair] *)
Definition vertex_index_buffer_pair : Type := buffer * buffer.

(** [avk::bottom_level_acceleration_structure] *)
Record bottom_level_acceleration_structure := {
  blas_size_requirements : list vertex_index_buffer_pair;
  blas_allow_updates : bool;
  blas_built_from : option (list vertex_index_buffer_pair)
}.

#[global] Instance blas_eq_dec : EqDecision bottom_level_acceleration_structure.
Proof. solve_decision. Defined.

Definition create_bottom_level_acceleration_structure
    (geometry : list vertex_index_buffer_pair) (allow_updates : bool) :=
  {| blas_size_requirements := geometry;
     blas_allow_updates := allow_updates;
     blas_built_from := None |}.

Definition blas_build (geometry : list vertex_index_buffer_pair)
    (b : bottom_level_acceleration_structure) :=
  {| blas_size_requirements := blas_size_requirements b;
     blas_allow_updates := blas_allow_updates b;
     blas_built_from := Some geometry |}.

(** [avk::geometry_instance] *)
Record geometry_instance := {
  gi_blas : bottom_level_acceleration_structure;
  mTransform : list float;
  mInstanceCustomIndex : Z
}.

#[global] Instance geometry_instance_eq_dec : EqDecision geometry_instance.
Proof. solve_decision. Defined.

Definition identity_transform : list float :=
  [f_one; f_zero; f_zero; f_zero;  f_zero; f_one; f_zero; f_zero;
   f_zero; f_zero; f_one; f_zero;  f_zero; f_zero; f_zero; f_one].

Definition create_geometry_instance (b : bottom_level_acceleration_structure) :=
  {| gi_blas := b; mTransform := identity_transform; mInstanceCustomIndex := 0 |}.

Definition set_transform_column_major (m : list float) (gi : geometry_instance) :=
  {| gi_blas := gi_blas gi; mTransform := m; mInstanceCustomIndex := mInstanceCustomIndex gi |}.

Definition set_custom_index (i : Z) (gi : geometry_instance) :=
  {| gi_blas := gi_blas gi; mTransform := mTransform gi; mInstanceCustomIndex := i |}.

(** [avk::top_level_acceleration_structure] *)
Record top_level_acceleration_structure := {
  tlas_instance_count : nat;
  tlas_allow_updates : bool;
  tlas_built_from : option (list geometry_instance)
}.

#[global] Instance tlas_eq_dec : EqDecision top_level_acceleration_structure.
Proof. solve_decision. Defined.

Definition create_top_level_acceleration_structure (instance_count : nat) (allow_updates : bool) :=
  {| tlas_instance_count := instance_count;
     tlas_allow_updates := allow_updates;
     tlas_built_from := None |}.

Definition tlas_build (instances : list geometry_instance)
    (t : top_level_acceleration_structure) :=
  {| tlas_instance_count := tlas_instance_count t;
     tlas_allow_updates := tlas_allow_updates t;
     tlas_built_from := Some instances |}.


(** ** Scene ingestion: the loops of [initialize]

    The members the loops fill, under their names in the class. *)

Record geometry_members := {
  mBlasNamesAndRanges : list (string * Z * Z);
  mBlas : list bottom_level_acceleration_structure;
  mGeometryInstances : list geometry_instance;
  mPositionsBufferViews : list buffer_view;
  mIndexBufferViews : list buffer_view;
  mNormalsBufferViews : list buffer_view;
  mTexCoordsBufferViews : list buffer_view
}.

(** The members as the constructor leaves them: all vectors empty. *)
Definition no_geometry : geometry_members :=
  {| mBlasNamesAndRanges := []; mBlas := []; mGeometryInstances := [];
     mPositionsBufferViews := []; mIndexBufferViews := [];
     mNormalsBufferViews := []; mTexCoordsBufferViews := [] |}.

(** The transform array of one placement (line 74). *)
Definition instance_transform (inst : model_instance_data) : list float :=
  to_array (matrix_from_transforms (mTranslation inst) (mRotation inst) (mScaling inst)).

(** Body of the loop over [model.mInstances] (lines 68-79). *)
Definition add_geometry_instance (blas : bottom_level_acceleration_structure)
    (g : geometry_members) (inst : model_instance_data) : geometry_members :=
  let bufferViewIndex := to_uint32 (length (mTexCoordsBufferViews g)) in
  {| mBlasNamesAndRanges := mBlasNamesAndRanges g;
     mBlas := mBlas g;
     mGeometryInstances :=
       mGeometryInstances g ++
       [set_custom_index bufferViewIndex
          (set_transform_column_major (instance_transform inst)
             (create_geometry_instance blas))];
     mPositionsBufferViews := mPositionsBufferViews g;
     mIndexBufferViews := mIndexBufferViews g;
     mNormalsBufferViews := mNormalsBufferViews g;
     mTexCoordsBufferViews := mTexCoordsBufferViews g |}.

(** The state of the loops: the members and the local [materialData]. *)
Definition ingest_state : Type := geometry_members * list material_config.

(** Body of the loop over [distinctMaterials] (lines 49-89). *)
Definition add_partition (model : model_data) (st : ingest_state)
    (entry : material_config * list nat) : ingest_state :=
  let '(g, materialData) := st in
  let '(materialConfig, meshIndices) := entry in
  let materialData := materialData ++ [materialConfig] in
  let sel := {| sel_model := mLoadedModel model; sel_meshes := meshIndices |} in
  let '(posBfr, idxBfr) := create_vertex_and_index_buffers sel true in
  let nrmBfr := create_normals_buffer sel in
  let texBfr := create_2d_texture_coordinates_buffer sel in
  let blas :=
    blas_build [(posBfr, idxBfr)]
      (create_bottom_level_acceleration_structure [(posBfr, idxBfr)] false) in
  let g := fold_left (add_geometry_instance blas) (mInstances model) g in
  ({| mBlasNamesAndRanges := mBlasNamesAndRanges g;
      mBlas := mBlas g ++ [blas];
      mGeometryInstances := mGeometryInstances g;
      mPositionsBufferViews := mPositionsBufferViews g ++ [create_buffer_view posBfr];
      mIndexBufferViews := mIndexBufferViews g ++ [create_buffer_view idxBfr];
      mNormalsBufferViews := mNormalsBufferViews g ++ [create_buffer_view nrmBfr];
      mTexCoordsBufferViews := mTexCoordsBufferViews g ++ [create_buffer_view texBfr] |},
   materialData).

(** [mBlasNamesAndRanges.emplace_back(name, from, to)] *)
Definition emplace_back_name_and_range (entry : string * Z * Z) (g : geometry_members) :=
  {| mBlasNamesAndRanges := mBlasNamesAndRanges g ++ [entry];
     mBlas := mBlas g;
     mGeometryInstances := mGeometryInstances g;
     mPositionsBufferViews := mPositionsBufferViews g;
     mIndexBufferViews := mIndexBufferViews g;
     mNormalsBufferViews := mNormalsBufferViews g;
     mTexCoordsBufferViews := mTexCoordsBufferViews g |}.

(** [std::get<2>(nameAndRangeInfo) = to], where [nameAndRangeInfo] refers
    to the element of [mBlasNamesAndRanges] at position [ref]. *)
Definition set_range_end (ref : nat) (to : Z) (g : geometry_members) :=
  {| mBlasNamesAndRanges :=
       alter (fun e => (fst (fst e), snd (fst e), to)) ref (mBlasNamesAndRanges g);
     mBlas := mBlas g;
     mGeometryInstances := mGeometryInstances g;
     mPositionsBufferViews := mPositionsBufferViews g;
     mIndexBufferViews := mIndexBufferViews g;
     mNormalsBufferViews := mNormalsBufferViews g;
     mTexCoordsBufferViews := mTexCoordsBufferViews g |}.

(** Body of the loop over [orca->models()] (lines 39-93). *)
Definition add_model (st : ingest_state) (model : model_data) : ingest_state :=
  let '(g, materialData) := st in
  let nameAndRangeInfo := length (mBlasNamesAndRanges g) in
  let g :=
    emplace_back_name_and_range
      (mName model, to_int (length (mGeometryInstances g)), -1) g in
  let '(g, materialData) :=
    fold_left (add_partition model)
      (distinct_material_configs (mLoadedModel model)) (g, materialData) in
  (set_range_end nameAndRangeInfo (to_int (length (mGeometryInstances g))) g,
   materialData).

(** Lines 36-93: all models of the scene, starting from empty members. *)
Definition load_models (orca : orca_scene) : ingest_state :=
  fold_left add_model orca (no_geometry, []).

(** ** Images, descriptors and the ray tracing pipeline *)

(** [vk::Format] and the usage of an image *)
Definition format : Type := nat.
Inductive image_usage := general_storage_image | general_texture | presentable.

#[global] Instance image_usage_eq_dec : EqDecision image_usage.
Proof. solve_decision. Defined.

Record image := {
  img_width : Z;
  img_height : Z;
  img_format : format;
  img_usage : image_usage;
  img_layout_set : bool
}.

#[global] Instance image_eq_dec : EqDecision image.
Proof. solve_decision. Defined.

Definition create_image (w h : Z) (f : format) (u : image_usage) : image :=
  {| img_width := w; img_height := h; img_format := f; img_usage := u;
     img_layout_set := false |}.

Definition transition_to_layout (i : image) : image :=
  {| img_width := img_width i; img_height := img_height i; img_format := img_format i;
     img_usage := img_usage i; img_layout_set := true |}.

(** [avk::image_view]; [iv_handle] is the [vk::ImageView] handle. *)
Record image_view := {
  iv_handle : nat;
  get_image : image
}.

#[global] Instance image_view_eq_dec : EqDecision image_view.
Proof. solve_decision. Defined.

(** The storage buffer of materials: sized from the data, then filled. *)
Record material_buffer := {
  mb_element_count : nat;
  mb_contents : list material_gpu_data
}.

#[global] Instance material_buffer_eq_dec : EqDecision material_buffer.
Proof. solve_decision. Defined.

Definition create_storage_buffer_from_data (data : list material_gpu_data) : material_buffer :=
  {| mb_element_count := length data; mb_contents := [] |}.

Definition buffer_fill (data : list material_gpu_data) (b : material_buffer) : material_buffer :=
  {| mb_element_count := mb_element_count b; mb_contents := data |}.

(** What a descriptor binding refers to. *)
Inductive bound_resource :=
| res_image_samplers (l : list image_sampler)
| res_storage_buffer (b : material_buffer)
| res_uniform_texel_buffer_views (l : list buffer_view)
| res_storage_image (v : image_view)
| res_acceleration_structure (t : top_level_acceleration_structure).

#[global] Instance bound_resource_eq_dec : EqDecision bound_resource.
Proof. solve_decision. Defined.

(** [avk::descriptor_binding(set, binding, resource)] *)
Record binding_data := descriptor_binding {
  db_set : nat;
  db_binding : nat;
  db_resource : bound_resource
}.

#[global] Instance binding_data_eq_dec : EqDecision binding_data.
Proof. solve_decision. Defined.

(** Shader stages as bit flags ([VkShaderStageFlagBits]); the values of
    [avk::shader_type] are carried by the stage bits they stand for. *)
Definition eRaygenKHR : Z := 0x100.
Definition eAnyHitKHR : Z := 0x200.
Definition eClosestHitKHR : Z := 0x400.
Definition eMissKHR : Z := 0x800.
Definition eIntersectionKHR : Z := 0x1000.
Definition eCallableKHR : Z := 0x2000.

Definition shader_type_ray_generation : Z := eRaygenKHR.
Definition shader_type_closest_hit : Z := eClosestHitKHR.

(** [avk::push_constant_binding_data{stages, offset, size}] *)
Record push_constant_binding_data := {
  pc_shader_stages : Z;
  pc_offset : Z;
  pc_size : Z
}.

(** Entries of [avk::define_shader_table(...)] *)
Inductive shader_table_entry :=
| ray_generation_shader (path : string)
| triangles_hit_group_rchit_only (path : string)
| miss_shader (path : string).

Definition shader_path (e : shader_table_entry) : string :=
  match e with
  | ray_generation_shader p | triangles_hit_group_rchit_only p | miss_shader p => p
  end.

(** [avk::ray_tracing_pipeline]; [pl_shader_code] is what was loaded
    from each shader file when the pipeline was built. *)
Record ray_tracing_pipeline := {
  pl_handle : nat;
  pl_shader_table : list shader_table_entry;
  pl_shader_code : list nat;
  pl_max_recursion_depth : nat;
  pl_push_constants : push_constant_binding_data;
  pl_bindings : list binding_data
}.

(** [avk::descriptor_set]: the bindings of one set index. *)
Record descriptor_set := {
  ds_set_id : nat;
  ds_bindings : list binding_data
}.

#[global] Instance descriptor_set_eq_dec : EqDecision descriptor_set.
Proof. solve_decision. Defined.

(** The set indices of a list of bindings, each once, in order. *)
Fixpoint set_ids (seen : list nat) (bs : list binding_data) : list nat :=
  match bs with
  | [] => []
  | b :: bs' =>
      if bool_decide (db_set b ∈ seen) then set_ids seen bs'
      else db_set b :: set_ids (db_set b :: seen) bs'
  end.

(** One descriptor set per set index used by the bindings. *)
Definition prepare_descriptor_sets (bs : list binding_data) : list descriptor_set :=
  map (fun i => {| ds_set_id := i;
                   ds_bindings := filter (fun b => db_set b = i) bs |})
      (set_ids [] bs).

(** [avk::descriptor_cache]: the sets created so far. *)
Definition descriptor_cache : Type := list descriptor_set.

Definition create_descriptor_cache : descriptor_cache := [].

(** A cached set is reused when one with the same bindings exists. *)
Definition get_or_create_descriptor_set (cache : list descriptor_set) (d : descriptor_set)
  : list descriptor_set :=
  if bool_decide (d ∈ cache) then cache else cache ++ [d].

Definition get_or_create_descriptor_sets (bs : list binding_data)
    (cache : list descriptor_set) : list descriptor_set * list descriptor_set :=
  let sets := prepare_descriptor_sets bs in
  (sets, fold_left get_or_create_descriptor_set sets cache).

(** The image-view handles a binding and a set refer to. *)
Definition binding_image_view_handles (b : binding_data) : list nat :=
  match db_resource b with
  | res_storage_image v => [iv_handle v]
  | _ => []
  end.

Definition set_image_view_handles (d : descriptor_set) : list nat :=
  flat_map binding_image_view_handles (ds_bindings d).

(** [cache.remove_sets_with_handle(h)]: drops every set that refers to
    the handle; returns how many were dropped. *)
Definition remove_sets_with_handle (h : nat) (cache : list descriptor_set)
  : nat * list descriptor_set :=
  let kept := filter (fun d => h ∉ set_image_view_handles d) cache in
  ((length cache - length kept)%nat, kept).

(** ** Push constants

    Modelled from the spec: the struct [push_const_data] is declared in
    [cpu_to_gpu_data_types.hpp]; its fields are taken from section 6 of
    the specification and from the order of the aggregate initialiser in
    [render]: a 4x4 matrix, the half field-of-view angle, three reserved
    floats and the light direction as a 4-component vector. *)

Record push_const_data := {
  pcd_camera_transform : mat4;
  pcd_half_fov_angle : float;
  pcd_padding0 : float;
  pcd_padding1 : float;
  pcd_padding2 : float;
  pcd_light_dir : vec4
}.

(** The block as it lies in memory, one entry per 4-byte float slot. *)
Definition push_const_floats (d : push_const_data) : list float :=
  to_array (pcd_camera_transform d) ++
  [pcd_half_fov_angle d; pcd_padding0 d; pcd_padding1 d; pcd_padding2 d] ++
  vec4_floats (pcd_light_dir d).

(** [sizeof(push_const_data)]: 16 + 4 + 4 floats of 4 bytes. *)
Definition sizeof_push_const_data : Z := 96.

(** ** Command buffers *)

Inductive pipeline_stage := stage_ray_tracing_shaders | stage_transfer | stage_color_attachment_output.

Inductive memory_access :=
| shader_buffers_and_images_write_access
| transfer_read_access
| transfer_write_access
| color_attachment_write_access.

Inductive command :=
| cmd_bind_pipeline (pipeline : nat)
| cmd_bind_descriptors (layout : nat) (sets : list descriptor_set)
| cmd_push_constants (layout : nat) (stages offset size : Z) (data : list float)
| cmd_trace_rays (extent : Z * Z * Z) (shader_binding_table : nat)
    (raygen_group miss_group hit_group : nat)
| cmd_global_memory_barrier (src dst : pipeline_stage) (src_access dst_access : memory_access)
| cmd_copy_image (src dst : image).

(** The life cycle of a command buffer: commands may be recorded only
    between [begin_recording] and [end_recording]; a call in any other
    state is invalid use and leaves the buffer invalid. *)
Inductive recording_state := cb_initial | cb_recording | cb_executable | cb_invalid.

(** [avk::command_buffer] *)
Record command_buffer := {
  cb_one_time_submit : bool;
  cb_state : recording_state;
  cb_commands : list command
}.

Definition alloc_command_buffer (one_time_submit : bool) : command_buffer :=
  {| cb_one_time_submit := one_time_submit; cb_state := cb_initial; cb_commands := [] |}.

Definition with_cb_state (st : recording_state) (c : command_buffer) : command_buffer :=
  {| cb_one_time_submit := cb_one_time_submit c; cb_state := st;
     cb_commands := cb_commands c |}.

Definition begin_recording (c : command_buffer) : command_buffer :=
  match cb_state c with
  | cb_initial => with_cb_state cb_recording c
  | _ => with_cb_state cb_invalid c
  end.

Definition end_recording (c : command_buffer) : command_buffer :=
  match cb_state c with
  | cb_recording => with_cb_state cb_executable c
  | _ => with_cb_state cb_invalid c
  end.

(** Every recording call appends one command to a buffer that is being
    recorded. *)
Definition record_command (x : command) (c : command_buffer) : command_buffer :=
  match cb_state c with
  | cb_recording =>
      {| cb_one_time_submit := cb_one_time_submit c; cb_state := cb_recording;
         cb_commands := cb_commands c ++ [x] |}
  | _ => with_cb_state cb_invalid c
  end.

(** ** The window, the queue and the rest of the framework state *)

Record window := {
  resolution : Z * Z;
  wnd_color_format : format;
  aspect_ratio : float;
  current_frame : Z;
  number_of_frames_in_flight : Z;
  (** [current_backbuffer()->image_at(0)] *)
  current_backbuffer_image : image;
  (** the "image available" semaphore of the current frame, until consumed *)
  image_available_semaphore : option nat;
  (** command buffers handed over with [handle_lifetime] *)
  wnd_lifetime_handled : list command_buffer
}.

(** [gvk::for_each_pixel(window)] *)
Definition for_each_pixel (w : window) : Z * Z * Z :=
  (fst (resolution w), snd (resolution w), 1).

Definition consume_current_image_available_semaphore (w : window) : option (nat * window) :=
  match image_available_semaphore w with
  | None => None
  | Some sem =>
      Some (sem,
            {| resolution := resolution w; wnd_color_format := wnd_color_format w;
               aspect_ratio := aspect_ratio w; current_frame := current_frame w;
               number_of_frames_in_flight := number_of_frames_in_flight w;
               current_backbuffer_image := current_backbuffer_image w;
               image_available_semaphore := None;
               wnd_lifetime_handled := wnd_lifetime_handled w |})
  end.

Definition handle_lifetime (c : command_buffer) (w : window) : window :=
  {| resolution := resolution w; wnd_color_format := wnd_color_format w;
     aspect_ratio := aspect_ratio w; current_frame := current_frame w;
     number_of_frames_in_flight := number_of_frames_in_flight w;
     current_backbuffer_image := current_backbuffer_image w;
     image_available_semaphore := image_available_semaphore w;
     wnd_lifetime_handled := wnd_lifetime_handled w ++ [c] |}.

(** One entry per [queue.submit(commands, wait_semaphore)]. *)
Definition queue : Type := list (command_buffer * nat).

Definition submit (c : command_buffer) (wait_semaphore : nat) (q : queue) : queue :=
  q ++ [(c, wait_semaphore)].

(** What the program reaches through [gvk::context()], [gvk::input()]
    and [gvk::current_composition()], and its one queue. *)
Record world := {
  main_window : window;
  the_queue : queue;
  (** the next unused Vulkan handle *)
  next_handle : nat;
  (** the current contents of each shader file *)
  shader_files : string -> nat;
  max_ray_tracing_recursion_depth : nat;
  (** whether an [imgui_manager] is part of the composition, and whether
      it takes user input *)
  imgui_user_interaction : option bool;
  composition_stopped : bool;
  log_messages : list vec3
}.

Definition with_main_window (mw : window) (w : world) : world :=
  {| main_window := mw; the_queue := the_queue w; next_handle := next_handle w;
     shader_files := shader_files w;
     max_ray_tracing_recursion_depth := max_ray_tracing_recursion_depth w;
     imgui_user_interaction := imgui_user_interaction w;
     composition_stopped := composition_stopped w; log_messages := log_messages w |}.

Definition with_the_queue (q : queue) (w : world) : world :=
  {| main_window := main_window w; the_queue := q; next_handle := next_handle w;
     shader_files := shader_files w;
     max_ray_tracing_recursion_depth := max_ray_tracing_recursion_depth w;
     imgui_user_interaction := imgui_user_interaction w;
     composition_stopped := composition_stopped w; log_messages := log_messages w |}.

Definition with_next_handle (h : nat) (w : world) : world :=
  {| main_window := main_window w; the_queue := the_queue w; next_handle := h;
     shader_files := shader_files w;
     max_ray_tracing_recursion_depth := max_ray_tracing_recursion_depth w;
     imgui_user_interaction := imgui_user_interaction w;
     composition_stopped := composition_stopped w; log_messages := log_messages w |}.

Definition with_imgui_user_interaction (i : option bool) (w : world) : world :=
  {| main_window := main_window w; the_queue := the_queue w; next_handle := next_handle w;
     shader_files := shader_files w;
     max_ray_tracing_recursion_depth := max_ray_tracing_recursion_depth w;
     imgui_user_interaction := i;
     composition_stopped := composition_stopped w; log_messages := log_messages w |}.

Definition with_composition_stopped (b : bool) (w : world) : world :=
  {| main_window := main_window w; the_queue := the_queue w; next_handle := next_handle w;
     shader_files := shader_files w;
     max_ray_tracing_recursion_depth := max_ray_tracing_recursion_depth w;
     imgui_user_interaction := imgui_user_interaction w;
     composition_stopped := b; log_messages := log_messages w |}.

Definition with_log_messages (l : list vec3) (w : world) : world :=
  {| main_window := main_window w; the_queue := the_queue w; next_handle := next_handle w;
     shader_files := shader_files w;
     max_ray_tracing_recursion_depth := max_ray_tracing_recursion_depth w;
     imgui_user_interaction := imgui_user_interaction w;
     composition_stopped := composition_stopped w; log_messages := l |}.

(** [gvk::context().create_image_view(owned(image))] *)
Definition create_image_view (i : image) (w : world) : image_view * world :=
  ({| iv_handle := next_handle w; get_image := i |}, with_next_handle (S (next_handle w)) w).

(** [gvk::context().create_ray_tracing_pipeline_for(...)] *)
Definition create_ray_tracing_pipeline_for (table : list shader_table_entry)
    (depth : nat) (pc : push_constant_binding_data) (bindings : list binding_data)
    (w : world) : ray_tracing_pipeline * world :=
  ({| pl_handle := next_handle w;
      pl_shader_table := table;
      pl_shader_code := map (fun e => shader_files w (shader_path e)) table;
      pl_max_recursion_depth := depth;
      pl_push_constants := pc;
      pl_bindings := bindings |},
   with_next_handle (S (next_handle w)) w).

(** ** The updater of the invokee

    What [initialize] registers with [mUpdater] (lines 156-172), as data:
    the event, and either the members to update, in the order given to
    [update(...)], or the callback to invoke. *)

Inductive updater_event :=
| shader_files_changed_event
| swapchain_resized_event
| destroying_image_view_event.

#[global] Instance updater_event_eq_dec : EqDecision updater_event.
Proof. solve_decision. Defined.

Inductive updatee := upd_mOffscreenImageView | upd_mPipeline.

Inductive updater_action :=
| act_update (targets : list updatee)
(** the lambda of lines 169-171 *)
| act_invoke_remove_sets_with_handle.

(** A superseded resource the updater still holds. *)
Inductive retired_resource :=
| retired_image_view (v : image_view)
| retired_pipeline (p : ray_tracing_pipeline).

Record updater := {
  upd_handlers : list (updater_event * updater_action);
  (** superseded resources, each with the frame from which on it may be
      destroyed *)
  upd_retired : list (Z * retired_resource)
}.

(** ** The invokee [fluid_nightmare_main] *)

Record fluid_nightmare_main := {
  mGeometry :> geometry_members;
  mDescriptorCache : descriptor_cache;
  mLightDir : vec3;
  mMaterialBuffer : material_buffer;
  mImageSamplers : list image_sampler;
  mTlas : top_level_acceleration_structure;
  mOffscreenImageView : image_view;
  mPipeline : ray_tracing_pipeline;
  mQuakeCam : quake_camera;
  mFieldOfViewForRayTracing : float;
  mUpdater : updater;
  (** the [static] local of [update] *)
  updateUntilFrame : Z
}.

Definition with_mDescriptorCache (c : descriptor_cache) (s : fluid_nightmare_main) :=
  {| mGeometry := mGeometry s; mDescriptorCache := c; mLightDir := mLightDir s;
     mMaterialBuffer := mMaterialBuffer s; mImageSamplers := mImageSamplers s;
     mTlas := mTlas s; mOffscreenImageView := mOffscreenImageView s;
     mPipeline := mPipeline s; mQuakeCam := mQuakeCam s;
     mFieldOfViewForRayTracing := mFieldOfViewForRayTracing s;
     mUpdater := mUpdater s; updateUntilFrame := updateUntilFrame s |}.

Definition with_mOffscreenImageView (v : image_view) (s : fluid_nightmare_main) :=
  {| mGeometry := mGeometry s; mDescriptorCache := mDescriptorCache s;
     mLightDir := mLightDir s;
     mMaterialBuffer := mMaterialBuffer s; mImageSamplers := mImageSamplers s;
     mTlas := mTlas s; mOffscreenImageView := v;
     mPipeline := mPipeline s; mQuakeCam := mQuakeCam s;
     mFieldOfViewForRayTracing := mFieldOfViewForRayTracing s;
     mUpdater := mUpdater s; updateUntilFrame := updateUntilFrame s |}.

Definition with_mPipeline (p : ray_tracing_pipeline) (s : fluid_nightmare_main) :=
  {| mGeometry := mGeometry s; mDescriptorCache := mDescriptorCache s;
     mLightDir := mLightDir s;
     mMaterialBuffer := mMaterialBuffer s; mImageSamplers := mImageSamplers s;
     mTlas := mTlas s; mOffscreenImageView := mOffscreenImageView s;
     mPipeline := p; mQuakeCam := mQuakeCam s;
     mFieldOfViewForRayTracing := mFieldOfViewForRayTracing s;
     mUpdater := mUpdater s; updateUntilFrame := updateUntilFrame s |}.

Definition with_mQuakeCam (c : quake_camera) (s : fluid_nightmare_main) :=
  {| mGeometry := mGeometry s; mDescriptorCache := mDescriptorCache s;
     mLightDir := mLightDir s;
     mMaterialBuffer := mMaterialBuffer s; mImageSamplers := mImageSamplers s;
     mTlas := mTlas s; mOffscreenImageView := mOffscreenImageView s;
     mPipeline := mPipeline s; mQuakeCam := c;
     mFieldOfViewForRayTracing := mFieldOfViewForRayTracing s;
     mUpdater := mUpdater s; updateUntilFrame := updateUntilFrame s |}.

Definition with_ui_settings (light : vec3) (fov : float) (s : fluid_nightmare_main) :=
  {| mGeometry := mGeometry s; mDescriptorCache := mDescriptorCache s;
     mLightDir := light;
     mMaterialBuffer := mMaterialBuffer s; mImageSamplers := mImageSamplers s;
     mTlas := mTlas s; mOffscreenImageView := mOffscreenImageView s;
     mPipeline := mPipeline s; mQuakeCam := mQuakeCam s;
     mFieldOfViewForRayTracing := fov;
     mUpdater := mUpdater s; updateUntilFrame := updateUntilFrame s |}.

Definition with_upd_retired (r : list (Z * retired_resource)) (s : fluid_nightmare_main) :=
  {| mGeometry := mGeometry s; mDescriptorCache := mDescriptorCache s;
     mLightDir := mLightDir s;
     mMaterialBuffer := mMaterialBuffer s; mImageSamplers := mImageSamplers s;
     mTlas := mTlas s; mOffscreenImageView := mOffscreenImageView s;
     mPipeline := mPipeline s; mQuakeCam := mQuakeCam s;
     mFieldOfViewForRayTracing := mFieldOfViewForRayTracing s;
     mUpdater := {| upd_handlers := upd_handlers (mUpdater s); upd_retired := r |};
     updateUntilFrame := updateUntilFrame s |}.

Definition with_updateUntilFrame (f : Z) (s : fluid_nightmare_main) :=
  {| mGeometry := mGeometry s; mDescriptorCache := mDescriptorCache s;
     mLightDir := mLightDir s;
     mMaterialBuffer := mMaterialBuffer s; mImageSamplers := mImageSamplers s;
     mTlas := mTlas s; mOffscreenImageView := mOffscreenImageView s;
     mPipeline := mPipeline s; mQuakeCam := mQuakeCam s;
     mFieldOfViewForRayTracing := mFieldOfViewForRayTracing s;
     mUpdater := mUpdater s; updateUntilFrame := f |}.

(** ** [initialize] *)

(** The shader table of lines 133-137. *)
Definition the_shader_table : list shader_table_entry :=
  [ray_generation_shader "shaders/ray_gen_shader.rgen";
   triangles_hit_group_rchit_only "shaders/closest_hit_shader.rchit";
   miss_shader "shaders/miss_shader.rmiss"].

(** The push constant range of line 141. *)
Definition the_push_constant_range : push_constant_binding_data :=
  {| pc_shader_stages := Z.lor shader_type_ray_generation shader_type_closest_hit;
     pc_offset := 0;
     pc_size := sizeof_push_const_data |}.

(** The seven descriptor bindings, written out at lines 142-148 for the
    pipeline and again at lines 278-284 for the descriptor sets. *)
Definition resource_bindings (imageSamplers : list image_sampler)
    (materialBuffer : material_buffer) (g : geometry_members)
    (offscreenImageView : image_view) (tlas : top_level_acceleration_structure)
  : list binding_data :=
  [descriptor_binding 0 0 (res_image_samplers imageSamplers);
   descriptor_binding 0 1 (res_storage_buffer materialBuffer);
   descriptor_binding 0 2 (res_uniform_texel_buffer_views (mIndexBufferViews g));
   descriptor_binding 0 3 (res_uniform_texel_buffer_views (mTexCoordsBufferViews g));
   descriptor_binding 0 4 (res_uniform_texel_buffer_views (mNormalsBufferViews g));
   descriptor_binding 1 0 (res_storage_image offscreenImageView);
   descriptor_binding 2 0 (res_acceleration_structure tlas)].

Definition member_bindings (s : fluid_nightmare_main) : list binding_data :=
  resource_bindings (mImageSamplers s) (mMaterialBuffer s) s
    (mOffscreenImageView s) (mTlas s).

(** The registrations of lines 160-171, both compiler switches being 1. *)
Definition the_updater : updater :=
  {| upd_handlers :=
       [(shader_files_changed_event, act_update [upd_mPipeline]);
        (swapchain_resized_event, act_update [upd_mOffscreenImageView; upd_mPipeline]);
        (destroying_image_view_event, act_invoke_remove_sets_with_handle)];
     upd_retired := [] |}.

(** [initialize] on the scene that [load_from_file] returned. *)
Definition initialize (orca : orca_scene) (w : world) : fluid_nightmare_main * world :=
  let descriptorCache := create_descriptor_cache in
  let lightDir := mk_vec3 f_0_8 f_one f_zero in
  let mainWnd := main_window w in
  let '(g, materialData) := load_models orca in
  let '(gpuMaterials, imageSamplers) := convert_for_gpu_usage materialData in
  let materialBuffer :=
    buffer_fill gpuMaterials (create_storage_buffer_from_data gpuMaterials) in
  let tlas :=
    tlas_build (mGeometryInstances g)
      (create_top_level_acceleration_structure (length (mGeometryInstances g)) true) in
  let wdth := fst (resolution (main_window w)) in
  let hght := snd (resolution (main_window w)) in
  let frmt := wnd_color_format mainWnd in
  let offscreenImage :=
    transition_to_layout (create_image wdth hght frmt general_storage_image) in
  let '(offscreenImageView, w) := create_image_view offscreenImage w in
  let '(pipeline, w) :=
    create_ray_tracing_pipeline_for the_shader_table
      (max_ray_tracing_recursion_depth w) the_push_constant_range
      (resource_bindings imageSamplers materialBuffer g offscreenImageView tlas) w in
  let quakeCam :=
    cam_set_perspective_projection (glm_radians f_60) (aspect_ratio (main_window w))
      f_half f_100
      (cam_set_translation (mk_vec3 f_zero f_zero f_zero) cam_default) in
  ({| mGeometry := g;
      mDescriptorCache := descriptorCache;
      mLightDir := lightDir;
      mMaterialBuffer := materialBuffer;
      mImageSamplers := imageSamplers;
      mTlas := tlas;
      mOffscreenImageView := offscreenImageView;
      mPipeline := pipeline;
      mQuakeCam := quakeCam;
      mFieldOfViewForRayTracing := f_45;
      mUpdater := the_updater;
      updateUntilFrame := -1 |}, w).

(** The ImGui callback of lines 183-197, given what the two drag widgets
    hold after the user's edit. *)
Definition imgui_callback (draggedLightDir : vec3) (draggedFieldOfView : float)
    (s : fluid_nightmare_main) : fluid_nightmare_main :=
  with_ui_settings (glm_normalize draggedLightDir) draggedFieldOfView s.

(** ** [update] *)

Inductive key_code :=
| kc_left | kc_right | kc_page_down | kc_page_up | kc_up | kc_down
| kc_space | kc_escape | kc_f1.

(** [gvk::input()] during one frame *)
Record input := {
  key_down : key_code -> bool;
  key_pressed : key_code -> bool
}.

(** The condition of line 205. *)
Definition transform_update_requested (inp : input) : bool :=
  key_down inp kc_left || key_down inp kc_right || key_down inp kc_page_down
  || key_down inp kc_page_up || key_down inp kc_up || key_down inp kc_down.

(** The condition of line 209. *)
Definition update_block_entered (w : world) (s : fluid_nightmare_main) : bool :=
  current_frame (main_window w) <=? updateUntilFrame s.

(** Line 207: [current_frame() + number_of_frames_in_flight() - 1], both
    operands and the result being [int64_t]. *)
Definition update_until (w : world) : Z :=
  to_int64
    (to_int64 (current_frame (main_window w) + number_of_frames_in_flight (main_window w))
     - 1).

(** Lines 205-208. *)
Definition note_transform_request (inp : input) (s : fluid_nightmare_main) (w : world)
  : fluid_nightmare_main :=
  if transform_update_requested inp
  then with_updateUntilFrame (update_until w) s
  else s.

Definition update (inp : input) (s : fluid_nightmare_main) (w : world)
  : fluid_nightmare_main * world :=
  let s := note_transform_request inp s w in
  let s :=
    if update_block_entered w s
    then s (* lines 211-243: the whole block is commented out *)
    else s in
  let w :=
    if key_pressed inp kc_space
    then with_log_messages (log_messages w ++ [cam_translation (mQuakeCam s)]) w
    else w in
  let w :=
    if key_pressed inp kc_escape then with_composition_stopped true w else w in
  if key_pressed inp kc_f1 then
    if cam_is_enabled (mQuakeCam s)
    then (with_mQuakeCam (cam_disable (mQuakeCam s)) s,
          with_imgui_user_interaction
            (option_map (fun _ => true) (imgui_user_interaction w)) w)
    else (with_mQuakeCam (cam_enable (mQuakeCam s)) s,
          with_imgui_user_interaction
            (option_map (fun _ => false) (imgui_user_interaction w)) w)
  else (s, w).

(** ** [render] *)

Definition render (s : fluid_nightmare_main) (w : world)
  : option (fluid_nightmare_main * world) :=
  let mainWnd := main_window w in
  let cmdbfr := alloc_command_buffer true in
  let cmdbfr := begin_recording cmdbfr in
  let cmdbfr := record_command (cmd_bind_pipeline (pl_handle (mPipeline s))) cmdbfr in
  let '(sets, cache) :=
    get_or_create_descriptor_sets (member_bindings s) (mDescriptorCache s) in
  let cmdbfr :=
    record_command (cmd_bind_descriptors (pl_handle (mPipeline s)) sets) cmdbfr in
  let pushConstantsForThisDrawCall :=
    {| pcd_camera_transform := cam_global_transformation_matrix (mQuakeCam s);
       pcd_half_fov_angle := fmul (glm_radians (mFieldOfViewForRayTracing s)) f_half;
       pcd_padding0 := f_zero;
       pcd_padding1 := f_zero;
       pcd_padding2 := f_zero;
       pcd_light_dir := vec4_of (mLightDir s) f_zero |} in
  let cmdbfr :=
    record_command
      (cmd_push_constants (pl_handle (mPipeline s)) (Z.lor eRaygenKHR eClosestHitKHR) 0
         sizeof_push_const_data (push_const_floats pushConstantsForThisDrawCall))
      cmdbfr in
  let cmdbfr :=
    record_command
      (cmd_trace_rays (for_each_pixel mainWnd) (pl_handle (mPipeline s)) 0 0 0) cmdbfr in
  let cmdbfr :=
    record_command
      (cmd_global_memory_barrier stage_ray_tracing_shaders stage_transfer
         shader_buffers_and_images_write_access transfer_read_access) cmdbfr in
  let cmdbfr :=
    record_command
      (cmd_copy_image (get_image (mOffscreenImageView s)) (current_backbuffer_image mainWnd))
      cmdbfr in
  let cmdbfr :=
    record_command
      (cmd_global_memory_barrier stage_transfer stage_color_attachment_output
         transfer_write_access color_attachment_write_access) cmdbfr in
  let cmdbfr := end_recording cmdbfr in
  match consume_current_image_available_semaphore mainWnd with
  | None => None
  | Some (imageAvailableSemaphore, mainWnd) =>
      let q := submit cmdbfr imageAvailableSemaphore (the_queue w) in
      let mainWnd := handle_lifetime cmdbfr mainWnd in
      Some (with_mDescriptorCache cache s, with_main_window mainWnd (with_the_queue q w))
  end.

(** The lambda of lines 169-171, invoked with the image view that is
    about to be destroyed. *)
Definition remove_sets_callback (aImageViewToBeDestroyed : image_view)
    (s : fluid_nightmare_main) : fluid_nightmare_main :=
  with_mDescriptorCache
    (snd (remove_sets_with_handle (iv_handle aImageViewToBeDestroyed) (mDescriptorCache s)))
    s.

(** ** The updater at work

    [gvk::updater] belongs to the framework and only its registrations
    are in [main.cpp]; what it does with them follows section 4.8 of the
    specification. *)

(** Modelled from the spec: a superseded resource is held back for the
    number of frames in flight ("deferred until no in-flight frame may
    still reference the resource being replaced"). *)
Definition retire (r : retired_resource) (w : world) (s : fluid_nightmare_main) :=
  with_upd_retired
    (upd_retired (mUpdater s) ++
     [(current_frame (main_window w) + number_of_frames_in_flight (main_window w), r)]) s.

(** Modelled from the spec: the updater rebuilds a registered member; a
    rebuilt render target takes the window's current resolution, a
    rebuilt pipeline takes the bindings of the current members
    ("rebuild the render target at new dimensions, rebuild the pipeline's
    descriptor binding to reference it"). *)
Definition rebuild (st : fluid_nightmare_main * world) (t : updatee)
  : fluid_nightmare_main * world :=
  let '(s, w) := st in
  match t with
  | upd_mOffscreenImageView =>
      let old := mOffscreenImageView s in
      let img :=
        transition_to_layout
          (create_image (fst (resolution (main_window w))) (snd (resolution (main_window w)))
             (img_format (get_image old)) (img_usage (get_image old))) in
      let '(v, w') := create_image_view img w in
      (with_mOffscreenImageView v (retire (retired_image_view old) w s), w')
  | upd_mPipeline =>
      let old := mPipeline s in
      let '(p, w') :=
        create_ray_tracing_pipeline_for (pl_shader_table old) (pl_max_recursion_depth old)
          (pl_push_constants old) (member_bindings s) w in
      (with_mPipeline p (retire (retired_pipeline old) w s), w')
  end.

(** Modelled from the spec: the updater carries out one registration,
    rebuilding the members in the order they were given to [update(...)]
    or invoking the callback with the image view about to be destroyed. *)
Definition run_action (arg : option image_view) (st : fluid_nightmare_main * world)
    (a : updater_action) : fluid_nightmare_main * world :=
  match a with
  | act_update targets => fold_left rebuild targets st
  | act_invoke_remove_sets_with_handle =>
      match arg with
      | Some v => (remove_sets_callback v (fst st), snd st)
      | None => st
      end
  end.

(** Modelled from the spec: the updater runs the handlers registered for
    an event, in registration order. *)
Definition fire (ev : updater_event) (arg : option image_view)
    (st : fluid_nightmare_main * world) : fluid_nightmare_main * world :=
  fold_left
    (fun st h => if bool_decide (fst h = ev) then run_action arg st (snd h) else st)
    (upd_handlers (mUpdater (fst st))) st.

(** Modelled from the spec: the updater destroys a superseded resource,
    an image view only after the handlers of
    [destroying_image_view_event] have run ("then issue a cleanup pass
    removing any cached descriptor sets keyed by the old render target's
    identity"). *)
Definition destroy (st : fluid_nightmare_main * world) (r : Z * retired_resource)
  : fluid_nightmare_main * world :=
  match snd r with
  | retired_image_view v => fire destroying_image_view_event (Some v) st
  | retired_pipeline _ => st
  end.

(** Modelled from the spec: at the start of a frame the updater destroys
    what no frame in flight can use any more. *)
Definition updater_cleanup (st : fluid_nightmare_main * world)
  : fluid_nightmare_main * world :=
  let '(s, w) := st in
  let now := current_frame (main_window w) in
  let due := filter (fun e => fst e <= now) (upd_retired (mUpdater s)) in
  let kept := filter (fun e => now < fst e) (upd_retired (mUpdater s)) in
  fold_left destroy due (with_upd_retired kept s, w).

(** ** Frames and events

    The render loop is the framework's: it is not part of [main.cpp],
    which only passes the invokee to [gvk::start]. *)

Definition with_resolution (res : Z * Z) (w : window) : window :=
  {| resolution := res; wnd_color_format := wnd_color_format w;
     aspect_ratio := aspect_ratio w; current_frame := current_frame w;
     number_of_frames_in_flight := number_of_frames_in_flight w;
     current_backbuffer_image := current_backbuffer_image w;
     image_available_semaphore := image_available_semaphore w;
     wnd_lifetime_handled := wnd_lifetime_handled w |}.

(** Modelled from the spec: before recording, the window has acquired the
    next presentable image and its "image available" signal (section 5). *)
Definition begin_frame (backbuffer : image) (sem : nat) (w : window) : window :=
  {| resolution := resolution w; wnd_color_format := wnd_color_format w;
     aspect_ratio := aspect_ratio w; current_frame := current_frame w;
     number_of_frames_in_flight := number_of_frames_in_flight w;
     current_backbuffer_image := backbuffer;
     image_available_semaphore := Some sem;
     wnd_lifetime_handled := wnd_lifetime_handled w |}.

(** Modelled from the spec: the frame counter advances by one per
    frame. *)
Definition end_frame (w : window) : window :=
  {| resolution := resolution w; wnd_color_format := wnd_color_format w;
     aspect_ratio := aspect_ratio w; current_frame := current_frame w + 1;
     number_of_frames_in_flight := number_of_frames_in_flight w;
     current_backbuffer_image := current_backbuffer_image w;
     image_available_semaphore := image_available_semaphore w;
     wnd_lifetime_handled := wnd_lifetime_handled w |}.

Definition with_shader_files (files : string -> nat) (w : world) : world :=
  {| main_window := main_window w; the_queue := the_queue w; next_handle := next_handle w;
     shader_files := files;
     max_ray_tracing_recursion_depth := max_ray_tracing_recursion_depth w;
     imgui_user_interaction := imgui_user_interaction w;
     composition_stopped := composition_stopped w; log_messages := log_messages w |}.

(** Modelled from the spec: one iteration of the render loop runs the
    updater, then [update], then [render] of the invokee (the event queue
    is drained at the frame boundary, section 9). *)
Definition frame (inp : input) (backbuffer : image) (sem : nat)
    (st : fluid_nightmare_main * world) : option (fluid_nightmare_main * world) :=
  let '(s, w) := st in
  let w := with_main_window (begin_frame backbuffer sem (main_window w)) w in
  let '(s, w) := updater_cleanup (s, w) in
  let '(s, w) := update inp s w in
  match render s w with
  | None => None
  | Some (s, w) => Some (s, with_main_window (end_frame (main_window w)) w)
  end.

(** Modelled from the spec: the window has a new resolution and the
    updater handles [swapchain_resized_event]. *)
Definition on_swapchain_resized (res : Z * Z) (st : fluid_nightmare_main * world) :=
  let '(s, w) := st in
  fire swapchain_resized_event None
    (s, with_main_window (with_resolution res (main_window w)) w).

(** Modelled from the spec: the shader files have new contents and the
    updater handles [shader_files_changed_event]. *)
Definition on_shader_files_changed (files : string -> nat)
    (st : fluid_nightmare_main * world) :=
  let '(s, w) := st in
  fire shader_files_changed_event None (s, with_shader_files files w).

(** What can happen to the running program. *)
Inductive event :=
| ev_frame (inp : input) (backbuffer : image) (sem : nat)
| ev_swapchain_resized (res : Z * Z)
| ev_shader_files_changed (files : string -> nat)
| ev_ui_edit (light : vec3) (fov : float).

(** Modelled from the spec: events are handled one at a time, between
    frames. *)
Definition step (e : event) (st : fluid_nightmare_main * world)
  : option (fluid_nightmare_main * world) :=
  match e with
  | ev_frame inp backbuffer sem => frame inp backbuffer sem st
  | ev_swapchain_resized res => Some (on_swapchain_resized res st)
  | ev_shader_files_changed files => Some (on_shader_files_changed files st)
  | ev_ui_edit light fov => Some (imgui_callback light fov (fst st), snd st)
  end.

(** Run a list of events, stopping at the first failure. *)
Fixpoint run (es : list event) (st : fluid_nightmare_main * world)
  : option (fluid_nightmare_main * world) :=
  match es with
  | [] => Some st
  | e :: es' =>
      match step e st with
      | None => None
      | Some st' => run es' st'
      end
  end.

(** The states the program can be in after [initialize]. *)
Definition reachable (orca : orca_scene) (w0 : world)
    (st : fluid_nightmare_main * world) : Prop :=
  exists es, run es (initialize orca w0) = Some st.

(** ** What ingestion is expected to produce

    A partition is one entry of [distinct_material_configs] of one model
    of the scene; the partitions of a scene are listed in the order in
    which the loops visit them. *)

Definition partition : Type := model_data * (material_config * list nat).

Definition partitions_of (m : model_data) : list partition :=
  map (pair m) (distinct_material_configs (mLoadedModel m)).

Definition all_partitions (orca : orca_scene) : list partition :=
  flat_map partitions_of orca.

Definition partition_material (p : partition) : material_config := fst (snd p).

Definition partition_selection (p : partition) : selection :=
  {| sel_model := mLoadedModel (fst p); sel_meshes := snd (snd p) |}.

Definition partition_buffer (a : vertex_attribute) (p : partition) : buffer :=
  {| buf_attribute := a;
     buf_selection := partition_selection p;
     buf_device_address :=
       match a with positions | indices => true | _ => false end |}.

Definition partition_view (a : vertex_attribute) (p : partition) : buffer_view :=
  create_buffer_view (partition_buffer a p).

Definition partition_blas (p : partition) : bottom_level_acceleration_structure :=
  let geometry := [(partition_buffer positions p, partition_buffer indices p)] in
  {| blas_size_requirements := geometry;
     blas_allow_updates := false;
     blas_built_from := Some geometry |}.

(** The instances created from the partition with buffer-view index [i],
    one per placement of its model; [enc] turns the index into the value
    stored as custom index. *)
Definition partition_instances (enc : nat -> Z) (i : nat) (p : partition)
  : list geometry_instance :=
  map (fun inst =>
         {| gi_blas := partition_blas p;
            mTransform :=
              to_array (matrix_from_transforms (mTranslation inst) (mRotation inst)
                          (mScaling inst));
            mInstanceCustomIndex := enc i |})
      (mInstances (fst p)).

Fixpoint instances_from (enc : nat -> Z) (i : nat) (ps : list partition)
  : list geometry_instance :=
  match ps with
  | [] => []
  | p :: ps' => partition_instances enc i p ++ instances_from enc (S i) ps'
  end.

(** Each buffer-view index, once per placement of the partition's model. *)
Fixpoint custom_indices_from (i : nat) (ps : list partition) : list Z :=
  match ps with
  | [] => []
  | p :: ps' =>
      repeat (Z.of_nat i) (length (mInstances (fst p))) ++ custom_indices_from (S i) ps'
  end.

Definition custom_indices (g : geometry_members) : list Z :=
  map mInstanceCustomIndex (mGeometryInstances g).

(** The number of instances a model contributes. *)
Definition model_instance_count (m : model_data) : nat :=
  list_sum (map (fun _ => length (partitions_of m)) (mInstances m)).

Definition scene_instance_count (orca : orca_scene) : nat :=
  list_sum (map model_instance_count orca).

(** The name and the range of positions in [mGeometryInstances] of each
    model, the first model starting at position [n]. *)
Fixpoint ranges_from (n : nat) (orca : orca_scene) : list (string * Z * Z) :=
  match orca with
  | [] => []
  | m :: rest =>
      (mName m, to_int n, to_int (n + model_instance_count m))
      :: ranges_from (n + model_instance_count m) rest
  end.

(** ** What a frame is expected to record *)

Definition frame_commands (s : fluid_nightmare_main) (w : world) : list command :=
  [cmd_bind_pipeline (pl_handle (mPipeline s));
   cmd_bind_descriptors (pl_handle (mPipeline s))
     (prepare_descriptor_sets (member_bindings s));
   cmd_push_constants (pl_handle (mPipeline s)) (Z.lor eRaygenKHR eClosestHitKHR) 0
     sizeof_push_const_data
     (to_array (cam_global_transformation_matrix (mQuakeCam s)) ++
      [fmul (glm_radians (mFieldOfViewForRayTracing s)) f_half; f_zero; f_zero; f_zero] ++
      [v3x (mLightDir s); v3y (mLightDir s); v3z (mLightDir s); f_zero]);
   cmd_trace_rays (for_each_pixel (main_window w)) (pl_handle (mPipeline s)) 0 0 0;
   cmd_global_memory_barrier stage_ray_tracing_shaders stage_transfer
     shader_buffers_and_images_write_access transfer_read_access;
   cmd_copy_image (get_image (mOffscreenImageView s))
     (current_backbuffer_image (main_window w));
   cmd_global_memory_barrier stage_transfer stage_color_attachment_output
     transfer_write_access color_attachment_write_access].

Definition frame_command_buffer (s : fluid_nightmare_main) (w : world) : command_buffer :=
  {| cb_one_time_submit := true; cb_state := cb_executable;
     cb_commands := frame_commands s w |}.

(** Dropping the cached sets of several handles, one handle at a time. *)
Definition remove_all_sets (hs : list nat) (cache : list descriptor_set) :=
  fold_left (fun c h => snd (remove_sets_with_handle h c)) hs cache.

(** Events that are frames, and frames without a transform request. *)
Definition is_frame (e : event) : Prop :=
  match e with ev_frame _ _ _ => True | _ => False end.

Definition quiet_frame (e : event) : Prop :=
  match e with
  | ev_frame inp _ _ => transform_update_requested inp = false
  | _ => False
  end.

(** ** Invariant of the running program *)

Definition retired_image_view_handles (r : list (Z * retired_resource)) : list nat :=
  flat_map (fun e => match snd e with
                     | retired_image_view v => [iv_handle v]
                     | retired_pipeline _ => []
                     end) r.

Definition cache_image_view_handles (c : descriptor_cache) : list nat :=
  flat_map set_image_view_handles c.

Record consistent (st : fluid_nightmare_main * world) : Prop := {
  (** the registrations never change *)
  cons_handlers : upd_handlers (mUpdater (fst st)) = upd_handlers the_updater;
  (** the render target has the size of the window *)
  cons_extent :
    (img_width (get_image (mOffscreenImageView (fst st))),
     img_height (get_image (mOffscreenImageView (fst st))))
    = resolution (main_window (snd st));
  (** the pipeline is bound to the current members *)
  cons_bindings : pl_bindings (mPipeline (fst st)) = member_bindings (fst st);
  cons_push_constants : pl_push_constants (mPipeline (fst st)) = the_push_constant_range;
  (** handles in use are below the next unused one *)
  cons_view_handle : (iv_handle (mOffscreenImageView (fst st)) < next_handle (snd st))%nat;
  cons_pipeline_handle : (pl_handle (mPipeline (fst st)) < next_handle (snd st))%nat;
  cons_retired_handles :
    Forall (fun h => (h < next_handle (snd st))%nat /\
                     h <> iv_handle (mOffscreenImageView (fst st)))
      (retired_image_view_handles (upd_retired (mUpdater (fst st))));
  (** a cached set refers to the current render target or to one that
      is still waiting to be destroyed *)
  cons_cache :
    Forall (fun h => h = iv_handle (mOffscreenImageView (fst st)) \/
                     h ∈ retired_image_view_handles (upd_retired (mUpdater (fst st))))
      (cache_image_view_handles (mDescriptorCache (fst st)));
  (** nothing is held back longer than the frames in flight *)
  cons_deadlines :
    Forall (fun e => fst e <= current_frame (main_window (snd st))
                              + number_of_frames_in_flight (main_window (snd st)))
      (upd_retired (mUpdater (fst st)))
}.

End Scene.

(** ** A small framework instance and sample scenes

    Materials are numbered, a model lists the material of each of its
    meshes, and the GPU form of a material is its number. *)

Module Sample.

(** Modelled from the spec: [distinct_material_configs] groups the meshes
    with identical material into one partition, preserving first-seen
    order (section 4.1). *)
Fixpoint add_mesh (material mesh : nat) (groups : list (nat * list nat))
  : list (nat * list nat) :=
  match groups with
  | [] => [(material, [mesh])]
  | (m, meshes) :: rest =>
      if Nat.eqb m material then (m, meshes ++ [mesh]) :: rest
      else (m, meshes) :: add_mesh material mesh rest
  end.

(** Modelled from the spec: the groups of all meshes of a model, the
    meshes numbered from [mesh] on. *)
Fixpoint group_meshes (mesh : nat) (materials : list nat) (groups : list (nat * list nat))
  : list (nat * list nat) :=
  match materials with
  | [] => groups
  | m :: rest => group_meshes (S mesh) rest (add_mesh m mesh groups)
  end.

Definition translation_matrix (t : vec3) : mat4 :=
  mk_mat4 (mk_vec4 f_one f_zero f_zero f_zero)
          (mk_vec4 f_zero f_one f_zero f_zero)
          (mk_vec4 f_zero f_zero f_one f_zero)
          (mk_vec4 (v3x t) (v3y t) (v3z t) f_one).

Fixpoint identity_conversion_aligned (ms : list nat) : Forall2 eq ms ms :=
  match ms with
  | [] => List.Forall2_nil eq
  | m :: ms' => List.Forall2_cons m m eq_refl (identity_conversion_aligned ms')
  end.

#[global] Instance gvk : Gvk := {|
  material_config := nat;
  model_t := list nat;
  distinct_material_configs := fun meshes => group_meshes 0 meshes [];
  material_gpu_data := nat;
  image_sampler := nat;
  convert_for_gpu_usage := fun ms => (ms, []);
  gpu_data_of := eq;
  convert_for_gpu_usage_aligned := identity_conversion_aligned;
  matrix_from_transforms := fun t _ _ => translation_matrix t;
  quake_camera := vec3 * bool;
  cam_default := (mk_vec3 f_zero f_zero f_zero, true);
  cam_set_translation := fun t c => (t, snd c);
  cam_translation := fst;
  cam_set_perspective_projection := fun _ _ _ _ c => c;
  cam_global_transformation_matrix := fun c => translation_matrix (fst c);
  cam_is_enabled := snd;
  cam_enable := fun c => (fst c, true);
  cam_disable := fun c => (fst c, false)
|}.

Definition origin : vec3 := mk_vec3 f_zero f_zero f_zero.

Definition placement (t : vec3) : model_instance_data :=
  {| mTranslation := t; mScaling := mk_vec3 f_one f_one f_one; mRotation := origin |}.

(** Model A of the scenario in section 8: three distinct materials over
    four meshes, placed twice. Model B: one material, placed once. *)
Definition model_A : model_data :=
  {| mName := "A";
     mInstances := [placement origin; placement (mk_vec3 f_one f_zero f_zero)];
     mLoadedModel := [7; 8; 7; 9]%nat |}.

Definition model_B : model_data :=
  {| mName := "B"; mInstances := [placement origin]; mLoadedModel := [5]%nat |}.

Definition scenario : orca_scene := [model_A; model_B].

(** One model with one material, placed twice. *)
Definition twice_placed : orca_scene :=
  [{| mName := "A";
      mInstances := [placement origin; placement (mk_vec3 f_one f_zero f_zero)];
      mLoadedModel := [7]%nat |}].

(** A model placed twice, followed by a model placed once. *)
Definition two_models : orca_scene :=
  [{| mName := "A";
      mInstances := [placement origin; placement (mk_vec3 f_one f_zero f_zero)];
      mLoadedModel := [7]%nat |};
   model_B].

(** Every model placed exactly once. *)
Definition placed_once : orca_scene :=
  [{| mName := "A"; mInstances := [placement origin]; mLoadedModel := [7; 8; 7]%nat |};
   model_B].

Definition a_window : window :=
  {| resolution := (1920, 1080);
     wnd_color_format := 50%nat;
     aspect_ratio := f_one;
     current_frame := 0;
     number_of_frames_in_flight := 3;
     current_backbuffer_image := create_image 1920 1080 50%nat presentable;
     image_available_semaphore := None;
     wnd_lifetime_handled := [] |}.

Definition a_world : world :=
  {| main_window := a_window;
     the_queue := [];
     next_handle := 1%nat;
     shader_files := fun _ => 0%nat;
     max_ray_tracing_recursion_depth := 31%nat;
     imgui_user_interaction := Some false;
     composition_stopped := false;
     log_messages := [] |}.

Definition a_backbuffer : image := create_image 1920 1080 50%nat presentable.

Definition no_keys : input :=
  {| key_down := fun _ => false; key_pressed := fun _ => false |}.

Definition left_key : input :=
  {| key_down := fun k => match k with kc_left => true | _ => false end;
     key_pressed := fun _ => false |}.

Definition four_frames : list event :=
  [ev_frame no_keys a_backbuffer 1%nat;
   ev_frame no_keys a_backbuffer 2%nat;
   ev_frame no_keys a_backbuffer 3%nat;
   ev_frame no_keys a_backbuffer 4%nat].

(** A model with two materials that is not placed anywhere. *)
Definition unplaced_model : model_data :=
  {| mName := "C"; mInstances := []; mLoadedModel := [7; 8]%nat |}.

Definition f1_key : input :=
  {| key_down := fun _ => false;
     key_pressed := fun k => match k with kc_f1 => true | _ => false end |}.

(** The world at the start of a frame, the semaphore 1 being available. *)
Definition a_frame_world : world :=
  with_main_window (begin_frame a_backbuffer 1%nat a_window) a_world.

Definition three_frames : list (input * image * nat) :=
  [(left_key, a_backbuffer, 5%nat);
   (no_keys, a_backbuffer, 6%nat);
   (no_keys, a_backbuffer, 7%nat)].

End Sample.

(** * Properties of scene ingestion *)

Section Ingestion.
Context `{G : Gvk}.

Lemma to_uint32_small (n : nat) : Z.of_nat n < 2 ^ 32 -> to_uint32 n = Z.of_nat n.
Proof. intros H. unfold to_uint32. apply Z.mod_small. lia. Qed.

Lemma to_int_small (n : nat) : Z.of_nat n < 2 ^ 31 -> to_int n = Z.of_nat n.
Proof. intros H. unfold to_int. rewrite Z.mod_small; lia. Qed.

(** The loop over the placements only appends to [mGeometryInstances]. *)
Lemma add_geometry_instances_spec blas insts g :
  fold_left (add_geometry_instance blas) insts g =
  {| mBlasNamesAndRanges := mBlasNamesAndRanges g;
     mBlas := mBlas g;
     mGeometryInstances :=
       mGeometryInstances g ++
       map (fun inst =>
              {| gi_blas := blas;
                 mTransform := instance_transform inst;
                 mInstanceCustomIndex := to_uint32 (length (mTexCoordsBufferViews g)) |})
           insts;
     mPositionsBufferViews := mPositionsBufferViews g;
     mIndexBufferViews := mIndexBufferViews g;
     mNormalsBufferViews := mNormalsBufferViews g;
     mTexCoordsBufferViews := mTexCoordsBufferViews g |}.
Proof.
  revert g. induction insts as [|inst insts IH]; intros g.
  - destruct g; simpl. by rewrite app_nil_r.
  - simpl fold_left. rewrite IH. destruct g; simpl.
    by rewrite <- app_assoc.
Qed.

Lemma instances_from_app enc i ps1 ps2 :
  instances_from enc i (ps1 ++ ps2) =
  instances_from enc i ps1 ++ instances_from enc (i + length ps1) ps2.
Proof.
  revert i. induction ps1 as [|p ps1 IH]; intros i; simpl.
  - by rewrite Nat.add_0_r.
  - rewrite IH, <- app_assoc. do 3 f_equal. lia.
Qed.

(** The loop over the distinct materials of one model. *)
Lemma add_partitions_spec m parts g md :
  let ps := map (pair m) parts in
  fold_left (add_partition m) parts (g, md) =
  ({| mBlasNamesAndRanges := mBlasNamesAndRanges g;
      mBlas := mBlas g ++ map partition_blas ps;
      mGeometryInstances :=
        mGeometryInstances g ++
        instances_from to_uint32 (length (mTexCoordsBufferViews g)) ps;
      mPositionsBufferViews := mPositionsBufferViews g ++ map (partition_view positions) ps;
      mIndexBufferViews := mIndexBufferViews g ++ map (partition_view indices) ps;
      mNormalsBufferViews := mNormalsBufferViews g ++ map (partition_view normals) ps;
      mTexCoordsBufferViews :=
        mTexCoordsBufferViews g ++ map (partition_view texture_coordinates) ps |},
   md ++ map partition_material ps).
Proof.
  simpl. revert g md. induction parts as [|[mc meshes] parts IH]; intros g md.
  - destruct g; simpl. by rewrite !app_nil_r.
  - cbn [fold_left map]. 
    replace (add_partition m (g, md) (mc, meshes)) with
      (let blas := partition_blas (m, (mc, meshes)) in
       let g' := fold_left (add_geometry_instance blas) (mInstances m) g in
       ({| mBlasNamesAndRanges := mBlasNamesAndRanges g';
           mBlas := mBlas g' ++ [blas];
           mGeometryInstances := mGeometryInstances g';
           mPositionsBufferViews :=
             mPositionsBufferViews g' ++ [partition_view positions (m, (mc, meshes))];
           mIndexBufferViews :=
             mIndexBufferViews g' ++ [partition_view indices (m, (mc, meshes))];
           mNormalsBufferViews :=
             mNormalsBufferViews g' ++ [partition_view normals (m, (mc, meshes))];
           mTexCoordsBufferViews :=
             mTexCoordsBufferViews g' ++
             [partition_view texture_coordinates (m, (mc, meshes))] |},
        md ++ [mc])) by reflexivity.
    cbv zeta. rewrite add_geometry_instances_spec, IH. cbn.
    rewrite <- !app_assoc, length_app. cbn.
    replace (length (mTexCoordsBufferViews g) + 1)%nat
      with (S (length (mTexCoordsBufferViews g))) by lia.
    reflexivity.
Qed.

Lemma length_instances_from enc i ps :
  length (instances_from enc i ps) =
  list_sum (map (fun p => length (mInstances (fst p))) ps).
Proof.
  revert i. induction ps as [|p ps IH]; intros i; simpl; [done|].
  unfold partition_instances. by rewrite length_app, length_map, IH.
Qed.

Lemma list_sum_const {A} (c : nat) (l : list A) :
  list_sum (map (fun _ => c) l) = (length l * c)%nat.
Proof. induction l as [|x l IH]; simpl; [done|]. rewrite IH. lia. Qed.

Lemma model_instance_count_eq m :
  model_instance_count m =
  (length (mInstances m) * length (distinct_material_configs (mLoadedModel m)))%nat.
Proof.
  unfold model_instance_count, partitions_of. by rewrite list_sum_const, length_map.
Qed.

Lemma length_instances_of_model enc i m :
  length (instances_from enc i (partitions_of m)) = model_instance_count m.
Proof.
  rewrite length_instances_from, model_instance_count_eq. unfold partitions_of.
  rewrite map_map. cbn [fst]. rewrite list_sum_const. lia.
Qed.

(** One model: its name and range are recorded, its partitions appended. *)
Lemma add_model_spec g md m :
  add_model (g, md) m =
  ({| mBlasNamesAndRanges :=
        mBlasNamesAndRanges g ++
        [(mName m, to_int (length (mGeometryInstances g)),
          to_int (length (mGeometryInstances g) + model_instance_count m))];
      mBlas := mBlas g ++ map partition_blas (partitions_of m);
      mGeometryInstances :=
        mGeometryInstances g ++
        instances_from to_uint32 (length (mTexCoordsBufferViews g)) (partitions_of m);
      mPositionsBufferViews :=
        mPositionsBufferViews g ++ map (partition_view positions) (partitions_of m);
      mIndexBufferViews :=
        mIndexBufferViews g ++ map (partition_view indices) (partitions_of m);
      mNormalsBufferViews :=
        mNormalsBufferViews g ++ map (partition_view normals) (partitions_of m);
      mTexCoordsBufferViews :=
        mTexCoordsBufferViews g ++
        map (partition_view texture_coordinates) (partitions_of m) |},
   md ++ map partition_material (partitions_of m)).
Proof.
  unfold add_model. rewrite add_partitions_spec. cbv zeta.
  fold (partitions_of m). unfold set_range_end, emplace_back_name_and_range. cbn.
  f_equal. f_equal.
  rewrite <- (Nat.add_0_r (length (mBlasNamesAndRanges g))), alter_app_r. cbn.
  by rewrite length_app, length_instances_of_model.
Qed.

(** All models, from any state of the members. *)
Lemma add_models_spec orca g md :
  fold_left add_model orca (g, md) =
  ({| mBlasNamesAndRanges :=
        mBlasNamesAndRanges g ++ ranges_from (length (mGeometryInstances g)) orca;
      mBlas := mBlas g ++ map partition_blas (all_partitions orca);
      mGeometryInstances :=
        mGeometryInstances g ++
        instances_from to_uint32 (length (mTexCoordsBufferViews g)) (all_partitions orca);
      mPositionsBufferViews :=
        mPositionsBufferViews g ++ map (partition_view positions) (all_partitions orca);
      mIndexBufferViews :=
        mIndexBufferViews g ++ map (partition_view indices) (all_partitions orca);
      mNormalsBufferViews :=
        mNormalsBufferViews g ++ map (partition_view normals) (all_partitions orca);
      mTexCoordsBufferViews :=
        mTexCoordsBufferViews g ++
        map (partition_view texture_coordinates) (all_partitions orca) |},
   md ++ map partition_material (all_partitions orca)).
Proof.
  revert g md. induction orca as [|m orca IH]; intros g md.
  - destruct g; simpl. by rewrite !app_nil_r.
  - cbn [fold_left]. rewrite add_model_spec, IH. cbn.
    rewrite !map_app, instances_from_app, <- !app_assoc, !length_app, !length_map.
    rewrite length_instances_of_model. reflexivity.
Qed.

(** What the loops of [initialize] leave behind. *)
Lemma load_models_spec orca :
  load_models orca =
  ({| mBlasNamesAndRanges := ranges_from 0 orca;
      mBlas := map partition_blas (all_partitions orca);
      mGeometryInstances := instances_from to_uint32 0 (all_partitions orca);
      mPositionsBufferViews := map (partition_view positions) (all_partitions orca);
      mIndexBufferViews := map (partition_view indices) (all_partitions orca);
      mNormalsBufferViews := map (partition_view normals) (all_partitions orca);
      mTexCoordsBufferViews :=
        map (partition_view texture_coordinates) (all_partitions orca) |},
   map partition_material (all_partitions orca)).
Proof. unfold load_models. by rewrite add_models_spec. Qed.


Lemma instances_from_small i ps :
  Z.of_nat (i + length ps) <= 2 ^ 32 ->
  instances_from to_uint32 i ps = instances_from Z.of_nat i ps.
Proof.
  revert i. induction ps as [|p ps IH]; intros i H; simpl in *; [done|].
  rewrite IH by lia. unfold partition_instances.
  by rewrite to_uint32_small by lia.
Qed.

Lemma custom_indices_instances_from i ps :
  map mInstanceCustomIndex (instances_from Z.of_nat i ps) = custom_indices_from i ps.
Proof.
  revert i. induction ps as [|p ps IH]; intros i; simpl; [done|].
  rewrite map_app, IH. f_equal. unfold partition_instances. rewrite map_map. cbn.
  induction (mInstances (fst p)); simpl; congruence.
Qed.

Lemma custom_indices_from_bounds i ps :
  Forall (fun c => Z.of_nat i <= c < Z.of_nat (i + length ps)) (custom_indices_from i ps).
Proof.
  revert i. induction ps as [|p ps IH]; intros i; simpl; [constructor|].
  apply Forall_app. split.
  - apply Forall_forall. intros c Hc. apply list_elem_of_In, repeat_spec in Hc. lia.
  - eapply Forall_impl; [apply IH|]. cbn. intros; lia.
Qed.

Lemma custom_indices_from_sorted i ps : StronglySorted Z.le (custom_indices_from i ps).
Proof.
  revert i. induction ps as [|p ps IH]; intros i; simpl; [constructor|].
  induction (length (mInstances (fst p))) as [|n IHn]; simpl; [apply IH|].
  constructor; [done|]. apply Forall_app. split.
  - apply Forall_forall. intros c Hc. apply list_elem_of_In, repeat_spec in Hc. lia.
  - eapply Forall_impl; [apply custom_indices_from_bounds|]. cbn. intros; lia.
Qed.

Lemma custom_indices_from_placed_once i ps :
  Forall (fun p => length (mInstances (fst p)) = 1%nat) ps ->
  custom_indices_from i ps = map Z.of_nat (seq i (length ps)).
Proof.
  intros H. revert i. induction H as [|p ps Hp _ IH]; intros i; simpl; [done|].
  by rewrite Hp, IH.
Qed.

Lemma length_custom_indices_from i ps :
  length (custom_indices_from i ps) =
  list_sum (map (fun p => length (mInstances (fst p))) ps).
Proof.
  revert i. induction ps as [|p ps IH]; intros i; simpl; [done|].
  by rewrite length_app, repeat_length, IH.
Qed.

Lemma all_partitions_placed_once orca :
  Forall (fun m => length (mInstances m) = 1%nat) orca ->
  Forall (fun p => length (mInstances (fst p)) = 1%nat) (all_partitions orca).
Proof.
  intros H. unfold all_partitions. induction H as [|m orca Hm _ IH]; simpl; [constructor|].
  apply Forall_app. split; [|done].
  unfold partitions_of. apply Forall_forall. intros p Hp.
  apply list_elem_of_In, in_map_iff in Hp as (e & <- & _). done.
Qed.

Lemma length_scene_instances enc i orca :
  length (instances_from enc i (all_partitions orca)) = scene_instance_count orca.
Proof.
  unfold scene_instance_count, all_partitions.
  revert i. induction orca as [|m orca IH]; intros i; simpl; [done|].
  by rewrite instances_from_app, length_app, length_instances_of_model, IH.
Qed.

(** The members and locals that [initialize] computes from the scene. *)
Lemma initialize_members orca w :
  mGeometry (fst (initialize orca w)) = fst (load_models orca)
  /\ mMaterialBuffer (fst (initialize orca w)) =
     buffer_fill (fst (convert_for_gpu_usage (snd (load_models orca))))
       (create_storage_buffer_from_data
          (fst (convert_for_gpu_usage (snd (load_models orca)))))
  /\ mTlas (fst (initialize orca w)) =
     tlas_build (mGeometryInstances (fst (load_models orca)))
       (create_top_level_acceleration_structure
          (length (mGeometryInstances (fst (load_models orca)))) true).
Proof.
  unfold initialize. destruct (load_models orca) as [g md]. cbn [fst snd].
  destruct (convert_for_gpu_usage md) as [gpu samplers]. repeat split; reflexivity.
Qed.


(** The dense sequence 0..N-1 is what the custom indices are when every
    model is placed once. *)
Lemma custom_indices_spec orca :
  Z.of_nat (length (all_partitions orca)) <= 2 ^ 32 ->
  custom_indices (fst (load_models orca)) = custom_indices_from 0 (all_partitions orca).
Proof.
  intros H. rewrite load_models_spec. unfold custom_indices. cbn.
  rewrite instances_from_small by (simpl; lia).
  apply custom_indices_instances_from.
Qed.

(** C1, as amended: in creation order the custom indices are the
    buffer-view indices of the partitions, each repeated once per
    placement of its model, hence non-decreasing; they are exactly
    0..N-1 when every model is placed exactly once. *)
Theorem custom_indices_follow_partitions (orca : orca_scene) :
  Z.of_nat (length (all_partitions orca)) <= 2 ^ 32 ->
  let g := fst (load_models orca) in
  custom_indices g = custom_indices_from 0 (all_partitions orca)
  /\ StronglySorted Z.le (custom_indices g)
  /\ (Forall (fun m => length (mInstances m) = 1%nat) orca ->
      custom_indices g = map Z.of_nat (seq 0 (length (mGeometryInstances g)))).
Proof.
  intros H g. subst g. rewrite custom_indices_spec by done.
  split; [done|]. split; [apply custom_indices_from_sorted|].
  intros Honce. apply all_partitions_placed_once in Honce.
  rewrite custom_indices_from_placed_once by done.
  do 2 f_equal. rewrite load_models_spec. cbn.
  rewrite length_instances_from.
  clear H. induction Honce as [|p ps Hp _ IH]; simpl; [done|]. by rewrite Hp, <- IH.
Qed.

(** C2: the instance list has one record per placement and partition of
    every model, and the top-level structure is created for exactly that
    many instances and built over the whole list. *)
Theorem instance_count_and_tlas_capacity (orca : orca_scene) (w : world) :
  let s := fst (initialize orca w) in
  length (mGeometryInstances s) = scene_instance_count orca
  /\ tlas_instance_count (mTlas s) = length (mGeometryInstances s)
  /\ tlas_built_from (mTlas s) = Some (mGeometryInstances s).
Proof.
  destruct (initialize_members orca w) as (Hg & _ & Ht).
  cbv zeta. rewrite Ht, Hg. cbn. split; [|done].
  rewrite load_models_spec. cbn. apply length_scene_instances.
Qed.

Lemma Forall2_map_left {A B C} (R : B -> C -> Prop) (f : A -> B) l k :
  Forall2 R (map f l) k -> Forall2 (fun x y => R (f x) y) l k.
Proof.
  revert k. induction l as [|x l IH]; intros k H; inversion H; subst; constructor; auto.
Qed.

(** C3: the material buffer holds one entry per partition, entry [i]
    being the GPU form of the material of partition [i]. *)
Theorem material_buffer_follows_partitions (orca : orca_scene) (w : world) :
  let s := fst (initialize orca w) in
  length (mBlas s) = length (all_partitions orca)
  /\ snd (load_models orca) = map partition_material (all_partitions orca)
  /\ mb_element_count (mMaterialBuffer s) = length (all_partitions orca)
  /\ length (mb_contents (mMaterialBuffer s)) = length (all_partitions orca)
  /\ Forall2 (fun p g => gpu_data_of (partition_material p) g)
       (all_partitions orca) (mb_contents (mMaterialBuffer s)).
Proof.
  destruct (initialize_members orca w) as (Hg & Hb & _).
  cbv zeta. rewrite Hb, Hg, load_models_spec. cbn.
  pose proof (convert_for_gpu_usage_aligned
                (map partition_material (all_partitions orca))) as Hal.
  pose proof (Forall2_length _ _ _ Hal) as Hlen. rewrite length_map in Hlen.
  split; [by rewrite length_map|]. split; [done|].
  split; [done|]. split; [done|].
  apply Forall2_map_left. exact Hal.
Qed.

Lemma lookup_map {A B} (f : A -> B) (l : list A) (i : nat) :
  map f l !! i = option_map f (l !! i).
Proof. revert i. induction l as [|x l IH]; intros [|i]; simpl; auto. Qed.

(** Every instance refers to the partition whose index it carries. *)
Lemma instances_from_origin k ps :
  Forall (fun gi => exists j p, ps !! j = Some p
                    /\ mInstanceCustomIndex gi = Z.of_nat (k + j)
                    /\ gi_blas gi = partition_blas p)
    (instances_from Z.of_nat k ps).
Proof.
  revert k. induction ps as [|p ps IH]; intros k; simpl; [constructor|].
  apply Forall_app. split.
  - apply Forall_forall. intros gi Hgi.
    apply list_elem_of_In, in_map_iff in Hgi as (inst & <- & _).
    exists 0%nat, p. cbn. by rewrite Nat.add_0_r.
  - eapply Forall_impl; [apply IH|]. intros gi (j & q & Hq & Hci & Hb).
    exists (S j), q. cbn. split; [done|]. split; [|done]. rewrite Hci. f_equal. lia.
Qed.

(** C10: the four buffer-view arrays, the list of bottom-level
    structures and the gathered materials have one entry per partition,
    in creation order, and every instance carries as custom index the
    index of the partition it was created from, a valid index into all
    of them. *)
Theorem parallel_arrays_aligned (orca : orca_scene) :
  Z.of_nat (length (all_partitions orca)) <= 2 ^ 32 ->
  let g := fst (load_models orca) in
  let materialData := snd (load_models orca) in
  let ps := all_partitions orca in
  (length (mPositionsBufferViews g) = length ps
   /\ length (mIndexBufferViews g) = length ps
   /\ length (mNormalsBufferViews g) = length ps
   /\ length (mTexCoordsBufferViews g) = length ps
   /\ length (mBlas g) = length ps
   /\ length materialData = length ps)
  /\ (forall i p, ps !! i = Some p ->
        mPositionsBufferViews g !! i = Some (partition_view positions p)
        /\ mIndexBufferViews g !! i = Some (partition_view indices p)
        /\ mNormalsBufferViews g !! i = Some (partition_view normals p)
        /\ mTexCoordsBufferViews g !! i = Some (partition_view texture_coordinates p)
        /\ mBlas g !! i = Some (partition_blas p)
        /\ materialData !! i = Some (partition_material p))
  /\ mGeometryInstances g = instances_from Z.of_nat 0 ps
  /\ Forall (fun gi => 0 <= mInstanceCustomIndex gi < Z.of_nat (length ps)
                       /\ mBlas g !! Z.to_nat (mInstanceCustomIndex gi) = Some (gi_blas gi))
       (mGeometryInstances g).
Proof.
  intros H. cbv zeta. rewrite load_models_spec. cbn [fst snd].
  cbn [mPositionsBufferViews mIndexBufferViews mNormalsBufferViews
       mTexCoordsBufferViews mBlas mGeometryInstances].
  rewrite !length_map, instances_from_small by (simpl; lia).
  split; [done|]. split.
  - intros i p Hp. rewrite !lookup_map, Hp. done.
  - split; [done|]. eapply Forall_impl; [apply instances_from_origin|].
    intros gi (j & p & Hp & Hci & Hb). cbn in Hci. rewrite Hci, Nat2Z.id.
    apply lookup_lt_Some in Hp as Hlt. split; [lia|].
    by rewrite lookup_map, Hp, Hb.
Qed.

End Ingestion.

(** C4 on the scene of a model placed twice followed by a model placed
    once: the range recorded for the second model is [2, 3), while its
    only instance carries custom index 1. *)
Lemma range_excludes_custom_index :
  let g := fst (load_models Sample.two_models) in
  mBlasNamesAndRanges g = [("A"%string, 0, 2); ("B"%string, 2, 3)]
  /\ custom_indices g = [0; 0; 1]
  /\ ~ (exists name from to, mBlasNamesAndRanges g !! 1%nat = Some (name, from, to)
                          /\ from <= nth 2 (custom_indices g) 0 < to).
Proof.
  vm_compute. split; [done|]. split; [done|].
  intros (name & from & to & Heq & Hle & Hlt). injection Heq as _ <- <-. 
  apply Hle. reflexivity.
Qed.

(** C1 on a model with one material placed twice: both instances carry
    custom index 0, so the indices are neither 0, 1 nor distinct. *)
Lemma custom_indices_not_dense :
  let g := fst (load_models Sample.twice_placed) in
  custom_indices g <> map Z.of_nat (seq 0 (length (mGeometryInstances g)))
  /\ ~ NoDup (custom_indices g).
Proof.
  vm_compute. split; [discriminate|].
  intros H. inversion H as [|x l Hin _]; subst. apply Hin. constructor.
Qed.

(** * Properties of the binary32 arithmetic *)

Lemma digits2_pos_bounds (p : positive) :
  2 ^ (Zpos (digits2_pos p) - 1) <= Zpos p < 2 ^ Zpos (digits2_pos p).
Proof.
  induction p as [p IH|p IH|]; cbn [digits2_pos].
  - rewrite Pos2Z.inj_succ.
    replace (Z.succ (Z.pos (digits2_pos p)) - 1) with (Z.succ (Z.pos (digits2_pos p) - 1)) by lia.
    rewrite !Z.pow_succ_r by lia. lia.
  - rewrite Pos2Z.inj_succ.
    replace (Z.succ (Z.pos (digits2_pos p)) - 1) with (Z.succ (Z.pos (digits2_pos p) - 1)) by lia.
    rewrite !Z.pow_succ_r by lia. lia.
  - cbn. lia.
Qed.

Lemma digits2_pos_unique (p : positive) (k : Z) :
  2 ^ (k - 1) <= Zpos p < 2 ^ k -> Zpos (digits2_pos p) = k.
Proof.
  intros [Hl Hu]. pose proof (digits2_pos_bounds p) as [Hl' Hu'].
  destruct (Z.lt_trichotomy (Zpos (digits2_pos p)) k) as [H|[H|H]]; [exfalso|done|exfalso].
  - assert (2 ^ Zpos (digits2_pos p) <= 2 ^ (k - 1)) by (apply Z.pow_le_mono_r; lia). lia.
  - assert (0 <= k \/ k < 0) as [Hk|Hk] by lia.
    + assert (2 ^ k <= 2 ^ (Zpos (digits2_pos p) - 1)) by (apply Z.pow_le_mono_r; lia). lia.
    + rewrite (Z.pow_neg_r 2 k) in Hu by lia. lia.
Qed.

Lemma shr_1_m (mrs : shr_record) :
  0 <= shr_m mrs -> shr_m (shr_1 mrs) = shr_m mrs / 2.
Proof.
  destruct mrs as [m r s]. cbn [shr_m]. intros Hm.
  destruct m as [|[p|p|]|p]; cbn [shr_1 shr_m]; try lia; try reflexivity.
  - apply (Z.div_unique (Z.pos p~1) 2 (Z.pos p) 1); lia.
  - apply (Z.div_unique (Z.pos p~0) 2 (Z.pos p) 0); lia.
Qed.

Lemma iter_shr_1_m (p : positive) (mrs : shr_record) :
  0 <= shr_m mrs -> shr_m (SpecFloat.iter_pos shr_1 p mrs) = shr_m mrs / 2 ^ Zpos p.
Proof.
  revert mrs. induction p as [p IH|p IH|]; intros mrs Hm; cbn [SpecFloat.iter_pos].
  - assert (0 < 2 ^ Zpos p) as Hp by (apply Z.pow_pos_nonneg; lia).
    assert (0 <= shr_m (shr_1 mrs)) by (rewrite shr_1_m by done; apply Z.div_pos; lia).
    assert (0 <= shr_m (SpecFloat.iter_pos shr_1 p (shr_1 mrs)))
      by (rewrite IH by done; apply Z.div_pos; lia).
    rewrite !IH, shr_1_m by done.
    assert (2 ^ Z.pos p~1 = 2 * 2 ^ Zpos p * 2 ^ Zpos p) as ->.
    { replace (Z.pos p~1) with (1 + Zpos p + Zpos p) by lia.
      rewrite !Z.pow_add_r by lia. reflexivity. }
    rewrite !Z.div_div by lia. f_equal. lia.
  - assert (0 < 2 ^ Zpos p) as Hp by (apply Z.pow_pos_nonneg; lia).
    assert (0 <= shr_m (SpecFloat.iter_pos shr_1 p mrs))
      by (rewrite IH by done; apply Z.div_pos; lia).
    rewrite !IH by done.
    assert (2 ^ Z.pos p~0 = 2 ^ Zpos p * 2 ^ Zpos p) as ->.
    { replace (Z.pos p~0) with (Zpos p + Zpos p) by lia.
      rewrite !Z.pow_add_r by lia. reflexivity. }
    rewrite !Z.div_div by lia. reflexivity.
  - rewrite shr_1_m by done. reflexivity.
Qed.

Lemma round_nearest_even_cases (m : Z) (l : location) :
  round_nearest_even m l = m \/ round_nearest_even m l = m + 1.
Proof. destruct l as [|[]]; cbn; auto. destruct (Z.even m); auto. Qed.

(** The literals are worth what their names say; [0.8f] and the constant
    of [glm::radians] are the binary32 numbers next to 4/5 and to
    pi/180, half a unit in the last place being 2^-25 and 2^-30. *)
Example float_literals :
  (float_value f_half == 1 # 2)%Q
  /\ (float_value f_0_75 == 3 # 4)%Q
  /\ (float_value f_one == 1)%Q
  /\ (float_value f_10 == 10)%Q
  /\ (float_value f_45 == 45)%Q
  /\ (float_value f_60 == 60)%Q
  /\ (float_value f_100 == 100)%Q
  /\ (float_value f_160 == 160)%Q
  /\ (Qabs (float_value f_0_8 - (4 # 5)) <= 1 # 33554432)%Q
  /\ (Qabs (float_value f_pi_over_180 - pi_over_180) <= 1 # 1073741824)%Q.
Proof. split_and!; vm_compute; done. Qed.

(** Rounding to binary32 in the normal range: the result has a 24-bit
    mantissa and differs from the exact value by at most 2^-23 of it. *)
Lemma binary32_round_error (M : positive) (E : Z) :
  24 < Zpos (digits2_pos M) ->
  -125 <= Zpos (digits2_pos M) + E <= 100 ->
  exists m1 e1,
    binary_round_aux 24 128 false (Zpos M) E loc_Exact = S754_finite false m1 e1
    /\ Zpos (digits2_pos m1) = 24
    /\ E + Zpos (digits2_pos M) - 24 <= e1 <= E + Zpos (digits2_pos M) - 23
    /\ Z.abs (Zpos M - Zpos m1 * 2 ^ (e1 - E)) * 2 ^ 23 <= Zpos M.
Proof.
  intros HD HE. pose proof (digits2_pos_bounds M) as [HMl HMu].
  set (D := Zpos (digits2_pos M)) in *.
  unfold binary_round_aux, shr_fexp. cbn [Zdigits2 shr_record_of_loc]. fold D.
  assert (fexp 24 128 (D + E) - E = D - 24) as -> by (unfold fexp, emin; lia).
  destruct (D - 24) as [|n|] eqn:Hn; try lia. cbn [shr].
  set (mrs := SpecFloat.iter_pos shr_1 n _).
  assert (shr_m mrs = Zpos M / 2 ^ Zpos n) as Hq by (apply iter_shr_1_m; cbn; lia).
  assert (2 ^ D = 2 ^ 24 * 2 ^ Zpos n) as HpD
    by (rewrite <- Z.pow_add_r by lia; f_equal; lia).
  assert (2 ^ (D - 1) = 2 ^ 23 * 2 ^ Zpos n) as HpD1
    by (rewrite <- Z.pow_add_r by lia; f_equal; lia).
  assert (0 < 2 ^ Zpos n) as Hpn by (apply Z.pow_pos_nonneg; lia).
  set (q := Zpos M / 2 ^ Zpos n) in *.
  assert (2 ^ 23 <= q < 2 ^ 24) as Hqb.
  { split.
    - apply Z.div_le_lower_bound; lia.
    - apply Z.div_lt_upper_bound; lia. }
  assert (q * 2 ^ Zpos n <= Zpos M < (q + 1) * 2 ^ Zpos n) as HqM.
  { pose proof (Z.div_mod (Zpos M) (2 ^ Zpos n) ltac:(lia)) as Hdm.
    pose proof (Z.mod_pos_bound (Zpos M) (2 ^ Zpos n) Hpn). fold q in Hdm. lia. }
  rewrite Hq.
  destruct (round_nearest_even_cases q (loc_of_shr_record mrs)) as [-> | ->].
  - (* rounded down *)
    destruct q as [|pq|] eqn:Hpq; try lia.
    assert (Zpos (digits2_pos pq) = 24) as Hdq by (apply digits2_pos_unique; lia).
    cbn [Zdigits2]. rewrite Hdq.
    assert (fexp 24 128 (24 + (E + Zpos n)) - (E + Zpos n) = 0) as ->
      by (unfold fexp, emin; lia).
    cbn [shr shr_m].
    assert ((E + Zpos n <=? 128 - 24) = true) as -> by (apply Z.leb_le; lia).
    exists pq, (E + Zpos n). split; [done|]. split; [done|]. split; [lia|].
    replace (E + Zpos n - E) with (Zpos n) by lia.
    change (2 ^ 23) with 8388608 in *. nia.
  - (* rounded up *)
    destruct (Z.eq_dec (q + 1) (2 ^ 24)) as [Hc|Hc].
    + rewrite Hc. change (2 ^ 24) with (Zpos 16777216). cbn [Zdigits2].
      change (Zpos (digits2_pos 16777216)) with 25.
      assert (fexp 24 128 (25 + (E + Zpos n)) - (E + Zpos n) = 1) as ->
        by (unfold fexp, emin; lia).
      cbn [shr SpecFloat.iter_pos shr_1 shr_m].
      assert ((E + Zpos n + 1 <=? 128 - 24) = true) as -> by (apply Z.leb_le; lia).
      eexists _, _. split; [reflexivity|]. split; [reflexivity|]. split; [lia|].
      replace (E + Zpos n + 1 - E) with (Z.succ (Zpos n)) by lia.
      rewrite Z.pow_succ_r by lia.
      change (2 ^ 23) with 8388608 in *. change (2 ^ 24) with 16777216 in *. nia.
    + destruct (q + 1) as [|pq|] eqn:Hpq; try lia.
      assert (Zpos (digits2_pos pq) = 24) as Hdq by (apply digits2_pos_unique; lia).
      cbn [Zdigits2]. rewrite Hdq.
      assert (fexp 24 128 (24 + (E + Zpos n)) - (E + Zpos n) = 0) as ->
        by (unfold fexp, emin; lia).
      cbn [shr shr_m].
      assert ((E + Zpos n <=? 128 - 24) = true) as -> by (apply Z.leb_le; lia).
      exists pq, (E + Zpos n). split; [done|]. split; [done|]. split; [lia|].
      replace (E + Zpos n - E) with (Zpos n) by lia.
      change (2 ^ 23) with 8388608 in *. change (2 ^ 24) with 16777216 in *. nia.
Qed.

(** A field of view in the widget's range is a positive normal number
    with an exponent from -20 to -16. *)
Lemma field_of_view_in_range_inv (fov : float) :
  field_of_view_in_range fov ->
  exists m e, fov = S754_finite false m e /\ Zpos (digits2_pos m) = 24 /\ -20 <= e <= -16.
Proof.
  intros (Hv & Hl & Hu). destruct fov as [s|s| |s m e]; try done.
  - by destruct s.
  - destruct s; [done|]. exists m, e. split; [done|].
    unfold SFleb, SFcompare, f_10, f_160 in Hl, Hu.
    assert (-20 <= e <= -16) as He.
    { split.
      - destruct (Z.compare_spec (-20) e); lia || done.
      - destruct (Z.compare_spec e (-16)); lia || done. }
    split; [|done].
    cbn [valid_binary] in Hv. unfold bounded, canonical_mantissa in Hv.
    apply andb_prop in Hv as [Hc _]. apply Z.eqb_eq in Hc.
    unfold fexp, emin in Hc. lia.
Qed.

(** Multiplying a normal binary32 number by [0.5f] is exact. *)
Lemma fmul_half_exact (m : positive) (e : Z) :
  Zpos (digits2_pos m) = 24 -> -100 <= e <= 100 ->
  fmul (S754_finite false m e) f_half = S754_finite false m (e - 1).
Proof.
  intros Hd He. unfold fmul, SFmul, f_half. cbn [xorb].
  rewrite Pos.mul_comm.
  let t := eval cbv [Pos.mul] in (8388608 * m)%positive in
  change (8388608 * m)%positive with t.
  unfold binary_round_aux, shr_fexp. cbn [Zdigits2 digits2_pos shr_record_of_loc].
  rewrite !Pos2Z.inj_succ, Hd.
  match goal with |- context [fexp 24 128 ?a - ?b] =>
    assert (fexp 24 128 a - b = 23) as -> by (unfold fexp, emin; lia) end.
  cbn [shr SpecFloat.iter_pos shr_1 orb loc_of_shr_record round_nearest_even shr_m Zdigits2].
  rewrite Hd.
  match goal with |- context [fexp 24 128 ?a - ?b] =>
    assert (fexp 24 128 a - b = 0) as -> by (unfold fexp, emin; lia) end.
  cbn [shr shr_m].
  match goal with |- context [?a <=? ?b] =>
    assert ((a <=? b) = true) as -> by (apply Z.leb_le; lia) end.
  f_equal. lia.
Qed.

(** The half angle that [render] computes is, up to 2^-22 of it, half
    the field of view in radians. *)
Lemma half_angle_value (fov : float) :
  field_of_view_in_range fov ->
  exists m e,
    fmul (glm_radians fov) f_half = S754_finite false m e
    /\ (Qabs (float_value (S754_finite false m e) - half_angle_in_radians (float_value fov))
        <= half_angle_in_radians (float_value fov) * (1 # 4194304))%Q.
Proof.
  intros Hr. destruct (field_of_view_in_range_inv fov Hr) as (m & e & -> & Hd & He).
  pose proof (digits2_pos_bounds m) as Hm. rewrite Hd in Hm.
  change (2 ^ (24 - 1)) with 8388608 in Hm. change (2 ^ 24) with 16777216 in Hm.
  unfold glm_radians, f_pi_over_180. unfold fmul at 2. unfold SFmul. cbn [xorb].
  assert (Zpos (digits2_pos (m * 9370165)) = 47 \/ Zpos (digits2_pos (m * 9370165)) = 48)
    as HD.
  { destruct (Z_lt_le_dec (Zpos (m * 9370165)) (2 ^ 47)).
    - left. apply digits2_pos_unique. change (2 ^ (47 - 1)) with 70368744177664.
      lia.
    - right. apply digits2_pos_unique. change (2 ^ (48 - 1)) with (2 ^ 47).
      change (2 ^ 48) with 281474976710656. lia. }
  destruct (binary32_round_error (m * 9370165) (e + -29)) as (m1 & e1 & -> & Hd1 & He1 & Herr);
    [lia|lia|].
  rewrite fmul_half_exact by (done || lia).
  exists m1, (e1 - 1). split; [done|].
  assert (exists k, e1 = e + -29 + k /\ (k = 23 \/ k = 24 \/ k = 25)) as (k & -> & Hk)
    by (exists (e1 - (e + -29)); lia).
  replace (e + -29 + k - (e + -29)) with k in Herr by lia.
  rewrite Pos2Z.inj_mul in Herr.
  assert (e = -20 \/ e = -19 \/ e = -18 \/ e = -17 \/ e = -16) as Hcases by lia.
  clear Hr Hd He HD Hd1 He1.
  apply Qabs_Qle_condition. unfold float_value, half_angle_in_radians, pi_over_180.
  destruct Hcases as [-> | [-> | [-> | [-> | ->]]]]; destruct Hk as [-> | [-> | ->]].
  all: repeat match goal with |- context [Qpower 2 ?z] =>
         let v := eval vm_compute in (Qpower 2 z) in change (Qpower 2 z) with v end.
  all: match type of Herr with context [2 ^ ?k] =>
         let v := eval vm_compute in (2 ^ k) in change (2 ^ k) with v in Herr end.
  all: change (2 ^ 23) with 8388608 in Herr.
  all: cbv [Qle Qminus Qplus Qmult Qopp Qdiv Qinv inject_Z Qnum Qden].
  all: split; lia.
Qed.

(** * Properties of the frame loop *)

Section Frames.
Context `{G : Gvk}.

#[local] Arguments retired_image_view_handles : simpl never.
#[local] Arguments cache_image_view_handles : simpl never.
#[local] Arguments prepare_descriptor_sets : simpl never.

(** Reduce the projections of updated records, and nothing else. *)
Ltac proj_simpl :=
  cbn [fst snd with_mDescriptorCache with_mOffscreenImageView with_mPipeline
       with_mQuakeCam with_ui_settings with_upd_retired with_updateUntilFrame
       with_main_window with_the_queue with_next_handle with_shader_files
       with_imgui_user_interaction with_composition_stopped with_log_messages
       mGeometry mDescriptorCache mLightDir mMaterialBuffer mImageSamplers mTlas
       mOffscreenImageView mPipeline mQuakeCam mFieldOfViewForRayTracing mUpdater
       updateUntilFrame upd_handlers upd_retired
       main_window the_queue next_handle shader_files max_ray_tracing_recursion_depth
       imgui_user_interaction composition_stopped log_messages] in *.

(** [render] succeeds whenever the semaphore of the frame is available. *)
Lemma render_spec s w sem :
  image_available_semaphore (main_window w) = Some sem ->
  exists mw,
    render s w =
    Some (with_mDescriptorCache
            (fold_left get_or_create_descriptor_set
               (prepare_descriptor_sets (member_bindings s)) (mDescriptorCache s)) s,
          with_main_window mw
            (with_the_queue (the_queue w ++ [(frame_command_buffer s w, sem)]) w))
    /\ resolution mw = resolution (main_window w)
    /\ current_frame mw = current_frame (main_window w)
    /\ number_of_frames_in_flight mw = number_of_frames_in_flight (main_window w).
Proof.
  intros Hsem. unfold render, consume_current_image_available_semaphore.
  rewrite Hsem. cbn. eexists. split; [reflexivity|]. done.
Qed.

Lemma render_none s w :
  image_available_semaphore (main_window w) = None -> render s w = None.
Proof.
  intros Hsem. unfold render, consume_current_image_available_semaphore.
  by rewrite Hsem.
Qed.


(** With the registrations of [initialize], each event runs one handler. *)
Lemma fire_swapchain_resized st :
  upd_handlers (mUpdater (fst st)) = upd_handlers the_updater ->
  fire swapchain_resized_event None st =
  rebuild (rebuild st upd_mOffscreenImageView) upd_mPipeline.
Proof. intros H. unfold fire. rewrite H. reflexivity. Qed.

Lemma fire_shader_files_changed st :
  upd_handlers (mUpdater (fst st)) = upd_handlers the_updater ->
  fire shader_files_changed_event None st = rebuild st upd_mPipeline.
Proof. intros H. unfold fire. rewrite H. reflexivity. Qed.

Lemma fire_destroying_image_view v st :
  upd_handlers (mUpdater (fst st)) = upd_handlers the_updater ->
  fire destroying_image_view_event (Some v) st = (remove_sets_callback v (fst st), snd st).
Proof. intros H. unfold fire. rewrite H. reflexivity. Qed.

(** The image-view handles among the bindings of the members. *)
Lemma member_bindings_handles s :
  flat_map binding_image_view_handles (member_bindings s)
  = [iv_handle (mOffscreenImageView s)].
Proof. reflexivity. Qed.

Lemma set_ids_member_bindings s : set_ids [] (member_bindings s) = [0; 1; 2]%nat.
Proof. reflexivity. Qed.

Lemma prepared_sets_handles s :
  flat_map set_image_view_handles (prepare_descriptor_sets (member_bindings s))
  = [iv_handle (mOffscreenImageView s)].
Proof.
  unfold prepare_descriptor_sets. rewrite set_ids_member_bindings. reflexivity.
Qed.

Lemma get_or_create_descriptor_sets_snd bs cache :
  snd (get_or_create_descriptor_sets bs cache)
  = fold_left get_or_create_descriptor_set (prepare_descriptor_sets bs) cache.
Proof. reflexivity. Qed.

Lemma get_or_create_handles sets cache (P : nat -> Prop) :
  Forall P (cache_image_view_handles cache) ->
  Forall P (flat_map set_image_view_handles sets) ->
  Forall P (cache_image_view_handles (fold_left get_or_create_descriptor_set sets cache)).
Proof.
  revert cache. induction sets as [|d sets IH]; intros cache Hc Hs; simpl in *; [done|].
  apply Forall_app in Hs as [Hd Hs]. apply IH; [|done].
  unfold get_or_create_descriptor_set. case_bool_decide; [done|].
  unfold cache_image_view_handles. rewrite flat_map_app. apply Forall_app. split; [done|].
  simpl. by rewrite app_nil_r.
Qed.

Lemma remove_sets_handles h cache (P : nat -> Prop) :
  Forall P (cache_image_view_handles cache) ->
  Forall (fun x => P x /\ x <> h)
    (cache_image_view_handles (snd (remove_sets_with_handle h cache))).
Proof.
  unfold remove_sets_with_handle, cache_image_view_handles. cbn [snd].
  induction cache as [|d cache IH]; intros Hc; [constructor|].
  cbn [flat_map] in Hc. apply Forall_app in Hc as [Hd Hc]. rewrite filter_cons.
  case_decide as Hin; [|by apply IH].
  cbn [flat_map]. apply Forall_app. split; [|by apply IH].
  apply Forall_forall. intros x Hx. split.
  - rewrite Forall_forall in Hd. by apply Hd.
  - intros ->. done.
Qed.


Lemma retired_handles_app r1 r2 :
  retired_image_view_handles (r1 ++ r2)
  = retired_image_view_handles r1 ++ retired_image_view_handles r2.
Proof. unfold retired_image_view_handles. apply flat_map_app. Qed.

(** [initialize] establishes the invariant. *)
Lemma consistent_initialize orca w : consistent (initialize orca w).
Proof.
  unfold initialize. destruct (load_models orca) as [g md].
  destruct (convert_for_gpu_usage md) as [gpu samplers]. cbn.
  constructor; cbn; try done.
  - by destruct (resolution (main_window w)).
  - lia.
  - lia.
Qed.

(** A resize keeps it: the new render target takes the next handle, the
    old one joins the retired resources. *)
Lemma consistent_resized res st : consistent st -> consistent (on_swapchain_resized res st).
Proof.
  destruct st as [s w]. intros [Hh He Hb Hp Hv Hvp Hr Hc Hd]. cbn [fst snd] in *.
  unfold on_swapchain_resized. rewrite fire_swapchain_resized by done.
  cbn. constructor; cbn.
  - done.
  - by destruct res.
  - done.
  - done.
  - lia.
  - lia.
  - rewrite !retired_handles_app. cbn. rewrite app_nil_r.
    apply Forall_app. split.
    + eapply Forall_impl; [exact Hr|]. cbn. intros h [? ?]. lia.
    + constructor; [lia|constructor].
  - rewrite !retired_handles_app. cbn. rewrite app_nil_r.
    eapply Forall_impl; [exact Hc|]. cbn. intros h [->|Hin]; right.
    + apply elem_of_app. right. constructor.
    + apply elem_of_app. by left.
  - rewrite <- app_assoc. apply Forall_app. split; [done|].
    repeat constructor; cbn; lia.
Qed.


Lemma consistent_shader_files_changed files st :
  consistent st -> consistent (on_shader_files_changed files st).
Proof.
  destruct st as [s w]. intros [Hh He Hb Hp Hv Hvp Hr Hc Hd]. cbn [fst snd] in *.
  unfold on_shader_files_changed. rewrite fire_shader_files_changed by done.
  cbn. constructor; cbn; try done.
  - lia.
  - lia.
  - rewrite retired_handles_app. cbn. rewrite app_nil_r.
    eapply Forall_impl; [exact Hr|]. cbn. intros h [? ?]. split; [lia|done].
  - rewrite retired_handles_app. cbn. by rewrite app_nil_r.
  - apply Forall_app. split; [done|]. repeat constructor; cbn; lia.
Qed.

Lemma consistent_ui_edit light fov st :
  consistent st -> consistent (imgui_callback light fov (fst st), snd st).
Proof. destruct st as [s w]. intros [Hh He Hb Hp Hv Hvp Hr Hc Hd]. by constructor. Qed.

Lemma remove_all_sets_handles hs cache (P : nat -> Prop) :
  Forall P (cache_image_view_handles cache) ->
  Forall (fun x => P x /\ x ∉ hs) (cache_image_view_handles (remove_all_sets hs cache)).
Proof.
  unfold remove_all_sets. revert cache P.
  induction hs as [|h hs IH]; intros cache P Hc; cbn [fold_left].
  - eapply Forall_impl; [exact Hc|]. cbn. intros x Hx. split; [done|]. apply not_elem_of_nil.
  - eapply Forall_impl; [apply IH, (remove_sets_handles h), Hc|].
    cbn. intros x [[HP Hne] Hnin]. split; [done|].
    intros Hin. apply elem_of_cons in Hin as [->|Hin]; done.
Qed.

Lemma destroy_all due s w :
  upd_handlers (mUpdater s) = upd_handlers the_updater ->
  fold_left destroy due (s, w) =
  (with_mDescriptorCache
     (remove_all_sets (retired_image_view_handles due) (mDescriptorCache s)) s, w).
Proof.
  revert s. induction due as [|[d r] due IH]; intros s Hh.
  - by destruct s.
  - cbn [fold_left]. unfold destroy at 2. cbn [snd]. destruct r as [v|p].
    + rewrite fire_destroying_image_view by done. cbn [fst snd].
      rewrite IH by done. by destruct s.
    + by rewrite IH.
Qed.

Lemma retired_handles_filter (Q : Z * retired_resource -> Prop)
    `{forall e, Decision (Q e)} (P : nat -> Prop) r :
  Forall P (retired_image_view_handles r) ->
  Forall P (retired_image_view_handles (filter Q r)).
Proof.
  induction r as [|e r IH]; intros Hr; [done|].
  change (e :: r) with ([e] ++ r) in Hr. rewrite retired_handles_app in Hr.
  apply Forall_app in Hr as [He Hr]. rewrite filter_cons. case_decide; [|by apply IH].
  change (e :: filter Q r) with ([e] ++ filter Q r). rewrite retired_handles_app.
  apply Forall_app. split; [done|by apply IH].
Qed.

Lemma retired_handles_cons e r :
  retired_image_view_handles (e :: r)
  = retired_image_view_handles [e] ++ retired_image_view_handles r.
Proof. apply (retired_handles_app [e] r). Qed.

Lemma retired_handles_split now h r :
  h ∈ retired_image_view_handles r ->
  h ∈ retired_image_view_handles (filter (fun e => fst e <= now) r)
  \/ h ∈ retired_image_view_handles (filter (fun e => now < fst e) r).
Proof.
  induction r as [|e r IH]; intros Hin; [by left|].
  rewrite retired_handles_cons in Hin. rewrite !filter_cons.
  destruct (Z.le_gt_cases (fst e) now) as [Hle|Hgt].
  - rewrite (decide_True (P := fst e <= now)), (decide_False (P := now < fst e)) by lia.
    rewrite retired_handles_cons.
    apply elem_of_app in Hin as [Hin|Hin].
    + left. apply elem_of_app. by left.
    + destruct (IH Hin) as [H|H]; [left|by right]. apply elem_of_app. by right.
  - rewrite (decide_False (P := fst e <= now)), (decide_True (P := now < fst e)) by lia.
    rewrite retired_handles_cons.
    apply elem_of_app in Hin as [Hin|Hin].
    + right. apply elem_of_app. by left.
    + destruct (IH Hin) as [H|H]; [by left|right]. apply elem_of_app. by right.
Qed.


Lemma Forall_filter_both {A} (P Q : A -> Prop) `{forall x, Decision (Q x)} (l : list A) :
  Forall P l -> Forall (fun x => P x /\ Q x) (filter Q l).
Proof.
  rewrite !Forall_forall. intros HP x Hx.
  apply list_elem_of_filter in Hx as [HQ Hx]. auto.
Qed.

(** What the updater does at the start of a frame. *)
Lemma updater_cleanup_spec s w :
  upd_handlers (mUpdater s) = upd_handlers the_updater ->
  updater_cleanup (s, w) =
  (with_mDescriptorCache
     (remove_all_sets
        (retired_image_view_handles
           (filter (fun e => fst e <= current_frame (main_window w))
              (upd_retired (mUpdater s))))
        (mDescriptorCache s))
     (with_upd_retired
        (filter (fun e => current_frame (main_window w) < fst e) (upd_retired (mUpdater s)))
        s),
   w).
Proof. intros Hh. unfold updater_cleanup. by rewrite destroy_all. Qed.

Lemma consistent_cleanup st : consistent st -> consistent (updater_cleanup st).
Proof.
  destruct st as [s w]. intros [Hh He Hb Hp Hv Hvp Hr Hc Hd]. cbn [fst snd] in *.
  rewrite updater_cleanup_spec by done.
  constructor; cbn [fst snd]; try done.
  - cbn. by apply retired_handles_filter.
  - cbn. eapply Forall_impl; [apply remove_all_sets_handles, Hc|].
    cbn. intros h [[->|Hin] Hnin]; [by left|right].
    destruct (retired_handles_split (current_frame (main_window w)) _ _ Hin); done.
  - cbn. eapply Forall_impl; [apply Forall_filter_both, Hd|]. by intros e [? _].
Qed.

Lemma update_keeps inp s w :
  let st' := update inp s w in
  mGeometry (fst st') = mGeometry s
  /\ mDescriptorCache (fst st') = mDescriptorCache s
  /\ mLightDir (fst st') = mLightDir s
  /\ mMaterialBuffer (fst st') = mMaterialBuffer s
  /\ mImageSamplers (fst st') = mImageSamplers s
  /\ mTlas (fst st') = mTlas s
  /\ mOffscreenImageView (fst st') = mOffscreenImageView s
  /\ mPipeline (fst st') = mPipeline s
  /\ mFieldOfViewForRayTracing (fst st') = mFieldOfViewForRayTracing s
  /\ mUpdater (fst st') = mUpdater s
  /\ updateUntilFrame (fst st') = updateUntilFrame (note_transform_request inp s w)
  /\ main_window (snd st') = main_window w
  /\ the_queue (snd st') = the_queue w
  /\ next_handle (snd st') = next_handle w
  /\ shader_files (snd st') = shader_files w.
Proof.
  unfold update, note_transform_request.
  destruct (transform_update_requested inp), (key_pressed inp kc_space),
    (key_pressed inp kc_escape), (key_pressed inp kc_f1);
    try destruct (cam_is_enabled _); cbn;
    repeat match goal with |- context [if ?b then _ else _] => destruct b end;
    repeat split; reflexivity.
Qed.

Lemma consistent_update inp s w : consistent (s, w) -> consistent (update inp s w).
Proof.
  intros [Hh He Hb Hp Hv Hvp Hr Hc Hd]. cbn [fst snd] in *.
  destruct (update_keeps inp s w)
    as (Hg & Hca & Hl & Hm & Hi & Ht & Ho & Hpl & Hf & Hu & _ & Hw & _ & Hn & _).
  destruct (update inp s w) as [s' w']. cbn [fst snd] in *.
  constructor; cbn [fst snd]; unfold member_bindings;
    rewrite ?Hg, ?Hca, ?Hl, ?Hm, ?Hi, ?Ht, ?Ho, ?Hpl, ?Hf, ?Hu, ?Hw, ?Hn; done.
Qed.

Lemma consistent_render s w s' w' :
  consistent (s, w) -> render s w = Some (s', w') -> consistent (s', w').
Proof.
  intros [Hh He Hb Hp Hv Hvp Hr Hc Hd] Hrender. cbn [fst snd] in *.
  destruct (image_available_semaphore (main_window w)) as [sem|] eqn:Hsem;
    [|by rewrite render_none in Hrender].
  destruct (render_spec s w sem Hsem) as (mw & Heq & Hres & Hcf & Hn).
  rewrite Heq in Hrender. apply (inj Some), pair_equal_spec in Hrender as [<- <-].
  constructor; unfold member_bindings in *; proj_simpl;
    rewrite ?Hres, ?Hcf, ?Hn; try done.
  change (resource_bindings _ _ _ _ _) with (member_bindings s).
  apply get_or_create_handles; [done|].
  rewrite prepared_sets_handles. constructor; [by left|constructor].
Qed.


Lemma consistent_begin_frame backbuffer sem s w :
  consistent (s, w) ->
  consistent (s, with_main_window (begin_frame backbuffer sem (main_window w)) w).
Proof. intros [Hh He Hb Hp Hv Hvp Hr Hc Hd]. by constructor. Qed.

Lemma consistent_end_frame s w :
  consistent (s, w) -> consistent (s, with_main_window (end_frame (main_window w)) w).
Proof.
  intros [Hh He Hb Hp Hv Hvp Hr Hc Hd]. constructor; try done.
  eapply Forall_impl; [exact Hd|]. cbn. intros; lia.
Qed.

Lemma updater_cleanup_world s w :
  upd_handlers (mUpdater s) = upd_handlers the_updater ->
  snd (updater_cleanup (s, w)) = w.
Proof. intros Hh. by rewrite updater_cleanup_spec. Qed.

(** A frame never fails: the window hands out the semaphore that
    [render] consumes. It submits the commands recorded for the state in
    which [update] left the members. *)
Lemma frame_spec inp backbuffer sem s w :
  upd_handlers (mUpdater s) = upd_handlers the_updater ->
  exists s3 w3 mw,
    (s3, w3) =
      update inp
        (fst (updater_cleanup
                (s, with_main_window (begin_frame backbuffer sem (main_window w)) w)))
        (with_main_window (begin_frame backbuffer sem (main_window w)) w)
    /\ main_window w3 = begin_frame backbuffer sem (main_window w)
    /\ the_queue w3 = the_queue w
    /\ resolution mw = resolution (main_window w)
    /\ current_frame mw = current_frame (main_window w) + 1
    /\ number_of_frames_in_flight mw = number_of_frames_in_flight (main_window w)
    /\ frame inp backbuffer sem (s, w) =
       Some (with_mDescriptorCache
               (fold_left get_or_create_descriptor_set
                  (prepare_descriptor_sets (member_bindings s3)) (mDescriptorCache s3)) s3,
             with_main_window mw
               (with_the_queue (the_queue w ++ [(frame_command_buffer s3 w3, sem)]) w3)).
Proof.
  intros Hh. unfold frame.
  set (w1 := with_main_window (begin_frame backbuffer sem (main_window w)) w).
  pose proof (updater_cleanup_world s w1 Hh) as Hcw.
  destruct (updater_cleanup (s, w1)) as [s2 w2]. cbn [fst snd] in *. subst w2.
  destruct (update_keeps inp s2 w1) as (_ & _ & _ & _ & _ & _ & _ & _ & _ & _ & _ & Hw & Hq & _).
  destruct (update inp s2 w1) as [s3 w3]. cbn [fst snd] in *.
  assert (image_available_semaphore (main_window w3) = Some sem) as Hsem by by rewrite Hw.
  destruct (render_spec s3 w3 sem Hsem) as (mw & Heq & Hres & Hcf & Hn).
  rewrite Heq. exists s3, w3, (end_frame mw).
  rewrite Hw in Hres, Hcf, Hn. cbn in Hres, Hcf, Hn.
  repeat split; try done.
  - cbn. by rewrite Hcf.
  - by rewrite Hq.
Qed.

Lemma consistent_frame inp backbuffer sem st st' :
  consistent st -> frame inp backbuffer sem st = Some st' -> consistent st'.
Proof.
  destruct st as [s w]. intros Hc Hf. unfold frame in Hf.
  apply (consistent_begin_frame backbuffer sem) in Hc.
  apply consistent_cleanup in Hc.
  destruct (updater_cleanup _) as [s2 w2].
  apply (consistent_update inp) in Hc.
  destruct (update inp s2 w2) as [s3 w3].
  destruct (render s3 w3) as [[s4 w4]|] eqn:Hr; [|done].
  apply (inj Some) in Hf. subst st'.
  apply consistent_end_frame. by eapply consistent_render.
Qed.

Lemma consistent_step e st st' : consistent st -> step e st = Some st' -> consistent st'.
Proof.
  intros Hc Hs. destruct e as [inp b sem|res|files|light fov]; cbn in Hs.
  - by eapply consistent_frame.
  - apply (inj Some) in Hs. subst st'. by apply consistent_resized.
  - apply (inj Some) in Hs. subst st'. by apply consistent_shader_files_changed.
  - apply (inj Some) in Hs. subst st'. by apply consistent_ui_edit.
Qed.

Lemma consistent_run es st st' : consistent st -> run es st = Some st' -> consistent st'.
Proof.
  revert st. induction es as [|e es IH]; intros st Hc Hr; cbn in Hr.
  - apply (inj Some) in Hr. by subst.
  - destruct (step e st) as [st1|] eqn:Hs; [|done].
    eapply IH; [|exact Hr]. by eapply consistent_step.
Qed.

(** Every state the program reaches satisfies the invariant. *)
Lemma reachable_consistent orca w0 st : reachable orca w0 st -> consistent st.
Proof. intros [es Hr]. eapply consistent_run; [apply consistent_initialize|exact Hr]. Qed.


(** What one frame changes: the cache, the retired resources, the
    bookkeeping of [update], the frame counter. *)
Lemma frame_effect inp backbuffer sem s w :
  upd_handlers (mUpdater s) = upd_handlers the_updater ->
  exists s' w',
    frame inp backbuffer sem (s, w) = Some (s', w')
    /\ mGeometry s' = mGeometry s
    /\ mTlas s' = mTlas s
    /\ mMaterialBuffer s' = mMaterialBuffer s
    /\ mImageSamplers s' = mImageSamplers s
    /\ mOffscreenImageView s' = mOffscreenImageView s
    /\ mPipeline s' = mPipeline s
    /\ upd_retired (mUpdater s') =
       filter (fun e => current_frame (main_window w) < fst e) (upd_retired (mUpdater s))
    /\ updateUntilFrame s' =
       (if transform_update_requested inp then update_until w else updateUntilFrame s)
    /\ current_frame (main_window w') = current_frame (main_window w) + 1
    /\ number_of_frames_in_flight (main_window w')
       = number_of_frames_in_flight (main_window w)
    /\ next_handle w' = next_handle w.
Proof.
  intros Hh.
  destruct (frame_spec inp backbuffer sem s w Hh)
    as (s3 & w3 & mw & Hupd & Hw3 & Hq & Hres & Hcf & Hn & Hf).
  rewrite Hf. eexists _, _. split; [reflexivity|].
  rewrite updater_cleanup_spec in Hupd by done. cbn [fst] in Hupd.
  match type of Hupd with _ = update _ ?s2 ?w1 =>
    destruct (update_keeps inp s2 w1)
      as (Hg & _ & _ & Hm & Hi & Ht & Ho & Hpl & _ & Hu & Huf & _ & _ & Hnh & _)
  end.
  rewrite <- Hupd in *. proj_simpl.
  rewrite Hg, Ht, Hm, Hi, Ho, Hpl, Hu, Huf, Hnh.
  repeat split; try done.
  unfold note_transform_request. by destruct (transform_update_requested inp).
Qed.

Lemma frames_run frames st :
  consistent st -> Forall is_frame frames ->
  exists st',
    run frames st = Some st'
    /\ consistent st'
    /\ mGeometry (fst st') = mGeometry (fst st)
    /\ mTlas (fst st') = mTlas (fst st)
    /\ mOffscreenImageView (fst st') = mOffscreenImageView (fst st)
    /\ mPipeline (fst st') = mPipeline (fst st)
    /\ current_frame (main_window (snd st'))
       = current_frame (main_window (snd st)) + Z.of_nat (length frames)
    /\ number_of_frames_in_flight (main_window (snd st'))
       = number_of_frames_in_flight (main_window (snd st))
    /\ Forall (fun e => e ∈ upd_retired (mUpdater (fst st))
                        /\ (current_frame (main_window (snd st')) <= fst e
                            \/ frames = []))
         (upd_retired (mUpdater (fst st'))).
Proof.
  revert st. induction frames as [|e frames IH]; intros [s w] Hc Hfr.
  - exists (s, w). cbn. split_and!; try done; try lia.
    apply Forall_forall. intros x Hx. split; [done|by right].
  - apply Forall_cons in Hfr as [He Hfr].
    destruct e as [inp b sem| | |]; try done. cbn [run step].
    destruct (frame_effect inp b sem s w (cons_handlers _ Hc))
      as (s1 & w1 & Hf & Hg & Ht & _ & _ & Ho & Hp & Hret & _ & Hcf & Hn & _).
    rewrite Hf.
    assert (consistent (s1, w1)) as Hc1 by by eapply consistent_frame.
    destruct (IH (s1, w1) Hc1 Hfr)
      as (st' & Hrun & Hc' & Hg' & Ht' & Ho' & Hp' & Hcf' & Hn' & Hret').
    exists st'. cbn [fst snd] in *.
    split_and!; try done; try congruence.
    + rewrite Hcf', Hcf. cbn [length]. lia.
    + eapply Forall_impl; [exact Hret'|]. cbn. intros x [Hin Hx].
      rewrite Hret in Hin. apply list_elem_of_filter in Hin as [Hlt Hin].
      split; [done|]. left. destruct Hx as [Hx| ->]; [done|].
      rewrite Hcf', Hcf. cbn. lia.
Qed.


(** The state in which a frame records its commands is consistent. *)
Lemma frame_render_state inp backbuffer sem s w :
  consistent (s, w) ->
  consistent
    (update inp
       (fst (updater_cleanup
               (s, with_main_window (begin_frame backbuffer sem (main_window w)) w)))
       (with_main_window (begin_frame backbuffer sem (main_window w)) w)).
Proof.
  intros Hc. apply (consistent_begin_frame backbuffer sem) in Hc.
  pose proof (cons_handlers _ Hc) as Hh. apply consistent_cleanup in Hc.
  pose proof (updater_cleanup_world s
                (with_main_window (begin_frame backbuffer sem (main_window w)) w) Hh) as Hw.
  destruct (updater_cleanup _) as [s2 w2]. cbn [fst snd] in *. subst w2.
  by apply consistent_update.
Qed.

(** A frame submits [frame_commands], sized to the render target. *)
Lemma frame_submission orca w0 s w inp backbuffer sem :
  reachable orca w0 (s, w) ->
  exists s' w' w3,
    frame inp backbuffer sem (s, w) = Some (s', w')
    /\ the_queue w' = the_queue w ++ [(frame_command_buffer s' w3, sem)]
    /\ for_each_pixel (main_window w3)
       = (img_width (get_image (mOffscreenImageView s')),
          img_height (get_image (mOffscreenImageView s')), 1)
    /\ current_backbuffer_image (main_window w3) = backbuffer
    /\ pl_push_constants (mPipeline s') = the_push_constant_range.
Proof.
  intros Hreach. apply reachable_consistent in Hreach as Hc.
  destruct (frame_spec inp backbuffer sem s w (cons_handlers _ Hc))
    as (s3 & w3 & mw & Hupd & Hw3 & Hq & Hres & Hcf & Hn & Hf).
  pose proof (frame_render_state inp backbuffer sem s w Hc) as Hc3.
  rewrite <- Hupd in Hc3. destruct Hc3 as [_ He _ Hp _ _ _ _ _]. cbn [fst snd] in *.
  rewrite Hf. eexists _, _, w3. split; [reflexivity|]. proj_simpl.
  split; [reflexivity|]. split; [|split; [by rewrite Hw3|done]].
  unfold for_each_pixel. by rewrite <- He.
Qed.

(** C6: what a frame submits is one command buffer, waiting on the
    frame's image-available semaphore, that was begun, then took, in this
    order, the pipeline and descriptor binds, the push constants, the
    trace-rays dispatch over the render target's extent, the barrier from
    ray tracing writes to transfer reads, the copy into the backbuffer
    and the barrier from transfer writes to colour-attachment writes, and
    was ended after the last of them: it is executable and holds these
    seven commands. *)
Theorem frame_command_sequence (orca : orca_scene) (w0 : world)
    (s : fluid_nightmare_main) (w : world)
    (inp : input) (backbuffer : image) (sem : nat) :
  reachable orca w0 (s, w) ->
  exists s' w' cb,
    frame inp backbuffer sem (s, w) = Some (s', w')
    /\ the_queue w' = the_queue w ++ [(cb, sem)]
    /\ let cmds :=
         [cmd_bind_pipeline (pl_handle (mPipeline s'));
          cmd_bind_descriptors (pl_handle (mPipeline s'))
            (prepare_descriptor_sets (member_bindings s'));
          cmd_push_constants (pl_handle (mPipeline s')) (Z.lor eRaygenKHR eClosestHitKHR) 0
            sizeof_push_const_data
            (let m := cam_global_transformation_matrix (mQuakeCam s') in
             [v4x (col0 m); v4y (col0 m); v4z (col0 m); v4w (col0 m);
              v4x (col1 m); v4y (col1 m); v4z (col1 m); v4w (col1 m);
              v4x (col2 m); v4y (col2 m); v4z (col2 m); v4w (col2 m);
              v4x (col3 m); v4y (col3 m); v4z (col3 m); v4w (col3 m);
              SFmul 24 128
                (SFmul 24 128 (mFieldOfViewForRayTracing s')
                   (S754_finite false 9370165 (-29)))
                (S754_finite false 8388608 (-24));
              S754_zero false; S754_zero false; S754_zero false;
              v3x (mLightDir s'); v3y (mLightDir s'); v3z (mLightDir s');
              S754_zero false]);
          cmd_trace_rays
            (img_width (get_image (mOffscreenImageView s')),
             img_height (get_image (mOffscreenImageView s')), 1)
            (pl_handle (mPipeline s')) 0 0 0;
          cmd_global_memory_barrier stage_ray_tracing_shaders stage_transfer
            shader_buffers_and_images_write_access transfer_read_access;
          cmd_copy_image (get_image (mOffscreenImageView s')) backbuffer;
          cmd_global_memory_barrier stage_transfer stage_color_attachment_output
            transfer_write_access color_attachment_write_access] in
       cb = end_recording
              (fold_left (fun c x => record_command x c) cmds
                 (begin_recording (alloc_command_buffer true)))
       /\ cb_state cb = cb_executable
       /\ cb_commands cb = cmds.
Proof.
  intros Hreach.
  destruct (frame_submission orca w0 s w inp backbuffer sem Hreach)
    as (s' & w' & w3 & Hf & Hq & Hext & Hbb & _).
  exists s', w', (frame_command_buffer s' w3).
  split; [done|]. split; [done|]. cbv zeta.
  unfold frame_command_buffer, frame_commands. rewrite Hext, Hbb.
  split; [reflexivity|]. split; reflexivity.
Qed.

(** C5: the push constants a frame writes, before its trace-rays
    dispatch, are the sixteen floats of the camera matrix, column after
    column, the half field-of-view angle in radians, three zero floats
    and the light direction with a zero fourth component: 24 floats, the
    96 bytes of the declared range, which like the write names the
    ray-generation and closest-hit stages and no other. The half angle
    is the field of view times the binary32 number next to pi/180 times
    one half, each product rounded to binary32; for a field of view in
    the range of the widget it differs from half the field of view in
    radians by at most 2^-22 of it. *)
Theorem push_constant_block (orca : orca_scene) (w0 : world)
    (s : fluid_nightmare_main) (w : world)
    (inp : input) (backbuffer : image) (sem : nat) :
  reachable orca w0 (s, w) ->
  exists s' w' cb before extent after data,
    frame inp backbuffer sem (s, w) = Some (s', w')
    /\ the_queue w' = the_queue w ++ [(cb, sem)]
    /\ cb_commands cb =
       before ++
       cmd_push_constants (pl_handle (mPipeline s')) (Z.lor eRaygenKHR eClosestHitKHR) 0
         sizeof_push_const_data data
       :: cmd_trace_rays extent (pl_handle (mPipeline s')) 0 0 0 :: after
    /\ data =
       (let m := cam_global_transformation_matrix (mQuakeCam s') in
        [v4x (col0 m); v4y (col0 m); v4z (col0 m); v4w (col0 m);
         v4x (col1 m); v4y (col1 m); v4z (col1 m); v4w (col1 m);
         v4x (col2 m); v4y (col2 m); v4z (col2 m); v4w (col2 m);
         v4x (col3 m); v4y (col3 m); v4z (col3 m); v4w (col3 m)]) ++
       [SFmul 24 128
          (SFmul 24 128 (mFieldOfViewForRayTracing s') (S754_finite false 9370165 (-29)))
          (S754_finite false 8388608 (-24))] ++
       [S754_zero false; S754_zero false; S754_zero false] ++
       [v3x (mLightDir s'); v3y (mLightDir s'); v3z (mLightDir s'); S754_zero false]
    /\ (field_of_view_in_range (mFieldOfViewForRayTracing s') ->
        exists h,
          data !! 16%nat = Some h
          /\ (Qabs (float_value h
                    - half_angle_in_radians (float_value (mFieldOfViewForRayTracing s')))
              <= half_angle_in_radians (float_value (mFieldOfViewForRayTracing s'))
                 * (1 # 4194304))%Q)
    /\ 4 * Z.of_nat (length data) = sizeof_push_const_data
    /\ pl_push_constants (mPipeline s') =
       {| pc_shader_stages := Z.lor shader_type_ray_generation shader_type_closest_hit;
          pc_offset := 0;
          pc_size := sizeof_push_const_data |}
    /\ Z.land (Z.lor eRaygenKHR eClosestHitKHR) eRaygenKHR = eRaygenKHR
    /\ Z.land (Z.lor eRaygenKHR eClosestHitKHR) eClosestHitKHR = eClosestHitKHR
    /\ Z.land (Z.lor eRaygenKHR eClosestHitKHR)
         (Z.lnot (Z.lor eRaygenKHR eClosestHitKHR)) = 0.
Proof.
  intros Hreach.
  destruct (frame_submission orca w0 s w inp backbuffer sem Hreach)
    as (s' & w' & w3 & Hf & Hq & _ & _ & Hpc).
  exists s', w', (frame_command_buffer s' w3).
  eexists [_; _], _, [_; _; _], _.
  split; [done|]. split; [done|]. split; [reflexivity|]. split; [reflexivity|].
  split; [|split; [reflexivity|split; [done|done]]].
  intros Hfov. destruct (half_angle_value _ Hfov) as (m & e & Hh & Hv).
  eexists. split; [reflexivity|]. rewrite Hh. exact Hv.
Qed.


(** C9: a change of the shader files replaces the pipeline by a newly
    built one with the same shader table, push constants and bindings,
    and leaves every buffer view, every bottom-level structure, the
    instances, the top-level structure, the materials and the render
    target as they were. *)
Theorem shader_change_rebuilds_only_pipeline (orca : orca_scene) (w0 : world)
    (s : fluid_nightmare_main) (w : world) (files : string -> nat) :
  reachable orca w0 (s, w) ->
  let st' := on_shader_files_changed files (s, w) in
  mGeometry (fst st') = mGeometry s
  /\ mTlas (fst st') = mTlas s
  /\ mOffscreenImageView (fst st') = mOffscreenImageView s
  /\ mMaterialBuffer (fst st') = mMaterialBuffer s
  /\ mImageSamplers (fst st') = mImageSamplers s
  /\ mDescriptorCache (fst st') = mDescriptorCache s
  /\ pl_handle (mPipeline (fst st')) = next_handle w
  /\ pl_handle (mPipeline (fst st')) <> pl_handle (mPipeline s)
  /\ next_handle (snd st') = S (next_handle w)
  /\ pl_shader_table (mPipeline (fst st')) = pl_shader_table (mPipeline s)
  /\ pl_shader_code (mPipeline (fst st'))
     = map (fun e => files (shader_path e)) (pl_shader_table (mPipeline s))
  /\ pl_push_constants (mPipeline (fst st')) = pl_push_constants (mPipeline s)
  /\ pl_bindings (mPipeline (fst st')) = pl_bindings (mPipeline s)
  /\ upd_retired (mUpdater (fst st'))
     = upd_retired (mUpdater s) ++
       [(current_frame (main_window w) + number_of_frames_in_flight (main_window w),
         retired_pipeline (mPipeline s))].
Proof.
  intros Hreach. apply reachable_consistent in Hreach as [Hh _ Hb _ _ Hvp _ _ _].
  cbn [fst snd] in *. cbv zeta.
  unfold on_shader_files_changed. rewrite fire_shader_files_changed by done.
  cbn. split_and!; try done. lia.
Qed.

(** What a resize leaves alone and what it creates. *)
Lemma resized_effect res st :
  consistent st ->
  let st' := on_swapchain_resized res st in
  current_frame (main_window (snd st')) = current_frame (main_window (snd st))
  /\ number_of_frames_in_flight (main_window (snd st'))
     = number_of_frames_in_flight (main_window (snd st))
  /\ next_handle (snd st') = S (S (next_handle (snd st)))
  /\ iv_handle (mOffscreenImageView (fst st')) = next_handle (snd st)
  /\ (img_width (get_image (mOffscreenImageView (fst st'))),
      img_height (get_image (mOffscreenImageView (fst st')))) = res.
Proof.
  destruct st as [s w]. intros Hc. cbv zeta.
  unfold on_swapchain_resized. rewrite fire_swapchain_resized by apply Hc.
  cbn. split_and!; try done. by destruct res.
Qed.

(** C8: a resize rebuilds the render target at the new size and after
    it the pipeline, whose bindings then refer to the new target; the
    old target is held back for the frames in flight, and the sets cached
    for a target leave the cache when it is destroyed. After two resizes
    and more frames than there are frames in flight, the pipeline and
    the cache refer to the latest render target only: no cached set is
    left for the target the resizes found or for the one between them. *)
Theorem resize_rebuilds_target_then_pipeline (orca : orca_scene) (w0 : world)
    (s : fluid_nightmare_main) (w : world) (res : Z * Z) (frames : list event) :
  reachable orca w0 (s, w) ->
  Forall is_frame frames ->
  0 <= number_of_frames_in_flight (main_window w) < Z.of_nat (length frames) ->
  let st1 := on_swapchain_resized res (s, w) in
  ((img_width (get_image (mOffscreenImageView (fst st1))),
    img_height (get_image (mOffscreenImageView (fst st1)))) = res
   /\ iv_handle (mOffscreenImageView (fst st1)) = next_handle w
   /\ pl_handle (mPipeline (fst st1)) = S (next_handle w)
   /\ iv_handle (mOffscreenImageView (fst st1)) <> iv_handle (mOffscreenImageView s)
   /\ descriptor_binding 1 0 (res_storage_image (mOffscreenImageView (fst st1)))
      ∈ pl_bindings (mPipeline (fst st1))
   /\ flat_map binding_image_view_handles (pl_bindings (mPipeline (fst st1)))
      = [iv_handle (mOffscreenImageView (fst st1))]
   /\ (current_frame (main_window w) + number_of_frames_in_flight (main_window w),
       retired_image_view (mOffscreenImageView s))
      ∈ upd_retired (mUpdater (fst st1)))
  /\ Forall (fun h => h ∉ cache_image_view_handles
                          (mDescriptorCache (fst (updater_cleanup (s, w)))))
       (retired_image_view_handles
          (filter (fun e => fst e <= current_frame (main_window w))
             (upd_retired (mUpdater s))))
  /\ exists st3,
       run (ev_swapchain_resized res :: ev_swapchain_resized res :: frames) (s, w)
       = Some st3
       /\ (img_width (get_image (mOffscreenImageView (fst st3))),
           img_height (get_image (mOffscreenImageView (fst st3)))) = res
       /\ iv_handle (mOffscreenImageView (fst st3)) = S (S (next_handle w))
       /\ flat_map binding_image_view_handles (pl_bindings (mPipeline (fst st3)))
          = [iv_handle (mOffscreenImageView (fst st3))]
       /\ Forall (fun h => h = iv_handle (mOffscreenImageView (fst st3)))
            (cache_image_view_handles (mDescriptorCache (fst st3)))
       /\ upd_retired (mUpdater (fst st3)) = []
       /\ (iv_handle (mOffscreenImageView s)
           ∉ cache_image_view_handles (mDescriptorCache (fst st3)))
       /\ (iv_handle (mOffscreenImageView (fst st1))
           ∉ cache_image_view_handles (mDescriptorCache (fst st3))).
Proof.
  intros Hreach Hfr Hlen. apply reachable_consistent in Hreach as Hc.
  pose proof Hc as [Hh He Hb Hp Hv Hvp Hr Hca Hd]. cbn [fst snd] in *.
  cbv zeta. split; [|split].
  - unfold on_swapchain_resized. rewrite fire_swapchain_resized by done.
    cbn. split_and!; try done.
    all: try (by destruct res). all: try lia.
    + apply list_elem_of_In. cbn. auto 10.
    + apply elem_of_app. left. apply elem_of_app. right. constructor.
  - rewrite updater_cleanup_spec by done. proj_simpl.
    apply Forall_forall. intros h Hh' Hin.
    pose proof (remove_all_sets_handles
                  (retired_image_view_handles
                     (filter (fun e => fst e <= current_frame (main_window w))
                        (upd_retired (mUpdater s))))
                  (mDescriptorCache s) (fun _ => True)
                  (Forall_true (fun _ => True) _ (fun _ => I))) as Hrm.
    rewrite Forall_forall in Hrm. destruct (Hrm h Hin). done.
  - pose proof (consistent_resized res _ Hc) as Hc1.
    pose proof (consistent_resized res _ Hc1) as Hc2.
    destruct (frames_run frames _ Hc2 Hfr)
      as (st3 & Hrun & Hc3 & _ & _ & Ho & Hpl & Hcf & Hn & Hret).
    exists st3. cbn [run step]. rewrite Hrun.
    destruct (resized_effect res _ Hc) as (Hcf1 & Hn1 & Hnh1 & _ & _).
    destruct (resized_effect res _ Hc1) as (Hcf2 & Hn2 & _ & Hiv2 & Hdim2).
    cbn [fst snd] in *.
    assert (upd_retired (mUpdater (fst st3)) = []) as Hnil.
    { destruct (upd_retired (mUpdater (fst st3))) as [|e r]; [done|exfalso].
      apply Forall_cons in Hret as [[Hin Hle] _].
      pose proof (cons_deadlines _ Hc2) as Hd2. rewrite Forall_forall in Hd2.
      specialize (Hd2 e Hin).
      destruct Hle as [Hle| ->]; [lia|]. cbn in Hlen. lia. }
    destruct Hc3 as [_ _ Hb3 _ _ _ _ Hca3 _]. rewrite Hnil in Hca3.
    assert (Forall (fun h => h = S (S (next_handle w)))
              (cache_image_view_handles (mDescriptorCache (fst st3)))) as Hlatest.
    { eapply Forall_impl; [exact Hca3|]. cbn.
      intros h [->|Hin]; [by rewrite Ho, Hiv2, Hnh1|]. by apply elem_of_nil in Hin. }
    destruct (resized_effect res _ Hc) as (_ & _ & _ & Hiv1 & _). cbn [fst snd] in Hiv1.
    rewrite Forall_forall in Hlatest.
    split; [done|]. rewrite Hb3, member_bindings_handles, Ho.
    split_and!; try done.
    + by rewrite Hiv2, Hnh1.
    + apply Forall_forall. intros h Hin. rewrite Hiv2, Hnh1. by apply Hlatest.
    + intros Hin. apply Hlatest in Hin. lia.
    + intros Hin. apply Hlatest in Hin. rewrite Hiv1 in Hin. lia.
Qed.


(** Frames without a request leave the bookkeeping of [update] and the
    acceleration structures alone. *)
Lemma quiet_frames_run frames st :
  consistent st -> Forall quiet_frame frames ->
  exists st',
    run frames st = Some st'
    /\ updateUntilFrame (fst st') = updateUntilFrame (fst st)
    /\ current_frame (main_window (snd st'))
       = current_frame (main_window (snd st)) + Z.of_nat (length frames)
    /\ mTlas (fst st') = mTlas (fst st)
    /\ mGeometry (fst st') = mGeometry (fst st).
Proof.
  revert st. induction frames as [|e frames IH]; intros [s w] Hc Hfr.
  - exists (s, w). cbn. split_and!; try done; lia.
  - apply Forall_cons in Hfr as [He Hfr].
    destruct e as [inp b sem| | |]; try done. cbn in He. cbn [run step].
    destruct (frame_effect inp b sem s w (cons_handlers _ Hc))
      as (s1 & w1 & Hf & Hg & Ht & _ & _ & _ & _ & _ & Hu & Hcf & _ & _).
    rewrite Hf. rewrite He in Hu.
    assert (consistent (s1, w1)) as Hc1 by by eapply consistent_frame.
    destruct (IH (s1, w1) Hc1 Hfr) as (st' & Hrun & Hu' & Hcf' & Ht' & Hg').
    exists st'. cbn [fst snd] in *. split_and!; try congruence.
    rewrite Hcf', Hcf. cbn [length]. lia.
Qed.

Lemma to_int64_small (z : Z) : - 2 ^ 63 <= z < 2 ^ 63 -> to_int64 z = z.
Proof. intros H. unfold to_int64. rewrite Z.mod_small by lia. lia. Qed.

(** Line 207 without overflow. *)
Lemma update_until_in_range w :
  0 <= current_frame (main_window w) ->
  0 <= number_of_frames_in_flight (main_window w) ->
  current_frame (main_window w) + number_of_frames_in_flight (main_window w) < 2 ^ 63 ->
  update_until w
  = current_frame (main_window w) + number_of_frames_in_flight (main_window w) - 1.
Proof.
  intros H1 H2 H3. unfold update_until.
  rewrite (to_int64_small (_ + _)) by lia. rewrite to_int64_small by lia. done.
Qed.

(** Frames submit one command buffer each, with the commands of
    [render]. *)
Lemma frames_submissions frames st :
  consistent st -> Forall is_frame frames ->
  exists st' new,
    run frames st = Some st'
    /\ the_queue (snd st') = the_queue (snd st) ++ new
    /\ length new = length frames
    /\ Forall (fun sub => exists s' w', fst sub = frame_command_buffer s' w') new.
Proof.
  revert st. induction frames as [|e frames IH]; intros [s w] Hc Hfr.
  - exists (s, w), []. cbn. by rewrite app_nil_r.
  - apply Forall_cons in Hfr as [He Hfr].
    destruct e as [inp b sem| | |]; try done. cbn [run step].
    destruct (frame_spec inp b sem s w (cons_handlers _ Hc))
      as (s3 & w3 & mw & _ & _ & _ & _ & _ & _ & Hf).
    pose proof (consistent_frame _ _ _ _ _ Hc Hf) as Hc1.
    rewrite Hf. destruct (IH _ Hc1 Hfr) as (st' & new & Hrun & Hq & Hlen & Hall).
    exists st', ((frame_command_buffer s3 w3, sem) :: new).
    cbn [fst snd the_queue with_main_window with_the_queue] in *.
    rewrite Hrun, Hq, <- app_assoc. cbn [length]. rewrite Hlen.
    split_and!; try done. constructor; [|done]. by eexists _, _.
Qed.

(** C7: a transform request is never followed by an update of the
    top-level structure. After the frame of the request and any further
    frames, each frame has submitted one command buffer with the seven
    commands of [render] and nothing else, and the top-level structure
    and the instances are the ones the request found. What [update] does
    on a request is to note the frame up to which it would update; in the
    frame of the request and in the frames after it, as long as fewer
    frames have passed than there are frames in flight, it enters its
    update block, whose body is commented out. *)
Theorem transform_request_updates_nothing (orca : orca_scene) (w0 : world)
    (s : fluid_nightmare_main) (w : world)
    (inp : input) (backbuffer : image) (sem : nat) (later : list event) :
  reachable orca w0 (s, w) ->
  transform_update_requested inp = true ->
  Forall is_frame later ->
  exists st1 stk new,
    frame inp backbuffer sem (s, w) = Some st1
    /\ run later st1 = Some stk
    /\ mTlas (fst stk) = mTlas s
    /\ mGeometry (fst stk) = mGeometry s
    /\ the_queue (snd stk) = the_queue w ++ new
    /\ length new = S (length later)
    /\ Forall (fun sub => exists s' w', fst sub = frame_command_buffer s' w') new
    /\ (0 <= current_frame (main_window w) ->
        0 <= number_of_frames_in_flight (main_window w) ->
        current_frame (main_window w) + number_of_frames_in_flight (main_window w) < 2 ^ 63 ->
        Forall quiet_frame later ->
        updateUntilFrame (fst st1)
        = current_frame (main_window w) + number_of_frames_in_flight (main_window w) - 1
        /\ update_block_entered w (note_transform_request inp s w)
           = (0 <? number_of_frames_in_flight (main_window w))
        /\ update_block_entered (snd stk) (fst stk)
           = (Z.of_nat (length later) + 1 <? number_of_frames_in_flight (main_window w))).
Proof.
  intros Hreach Hreq Hlater. apply reachable_consistent in Hreach as Hc.
  destruct (frame_effect inp backbuffer sem s w (cons_handlers _ Hc))
    as (s1 & w1 & Hf & Hg & Ht & _ & _ & _ & _ & _ & Hu & Hcf & _ & _).
  rewrite Hreq in Hu.
  assert (consistent (s1, w1)) as Hc1 by by eapply consistent_frame.
  destruct (frames_run later _ Hc1 Hlater) as (stk & Hrun & _ & Hg' & Ht' & _).
  assert (Forall is_frame (ev_frame inp backbuffer sem :: later)) as Hall
    by by constructor.
  destruct (frames_submissions _ _ Hc Hall) as (stk' & new & Hrun' & Hq & Hlen & Hnew).
  cbn [run step] in Hrun'. rewrite Hf, Hrun in Hrun'. apply (inj Some) in Hrun'. subst stk'.
  exists (s1, w1), stk, new. cbn [fst snd length] in *.
  split_and!; try done; try congruence.
  intros H0 HN Hmax Hquiet.
  destruct (quiet_frames_run later _ Hc1 Hquiet) as (stq & Hrunq & Hu' & Hcf' & _).
  rewrite Hrun in Hrunq. apply (inj Some) in Hrunq. subst stq. cbn [fst snd] in *.
  pose proof (update_until_in_range w H0 HN Hmax) as Hrange.
  split_and!.
  - congruence.
  - unfold update_block_entered, note_transform_request. rewrite Hreq.
    cbn [updateUntilFrame with_updateUntilFrame]. rewrite Hrange.
    apply eq_iff_eq_true. rewrite Z.leb_le, Z.ltb_lt. lia.
  - unfold update_block_entered. rewrite Hu', Hu, Hcf', Hcf, Hrange.
    apply eq_iff_eq_true. rewrite Z.leb_le, Z.ltb_lt. lia.
Qed.

End Frames.

(** * The properties on the sample scenes *)

(** The state right after [initialize] is reachable. *)
Lemma sample_reachable (orca : orca_scene) :
  reachable orca Sample.a_world
    (fst (initialize orca Sample.a_world), snd (initialize orca Sample.a_world)).
Proof. exists []. cbn [run]. by destruct (initialize orca Sample.a_world). Defined.

(** With every model placed once the custom indices are 0, 1, 2. *)
Lemma custom_indices_follow_partitions_witness :
  custom_indices (fst (load_models Sample.placed_once)) = [0; 1; 2].
Proof.
  apply (custom_indices_follow_partitions Sample.placed_once).
  - vm_compute. discriminate.
  - repeat constructor.
Defined.

(** The scenario of section 8, four partitions. *)
Lemma parallel_arrays_aligned_witness :
  mGeometryInstances (fst (load_models Sample.scenario))
  = instances_from Z.of_nat 0 (all_partitions Sample.scenario).
Proof.
  apply (parallel_arrays_aligned Sample.scenario). vm_compute. discriminate.
Defined.

(** The first frame after [initialize]: seven commands, the dispatch
    over the 1920 x 1080 pixels of the render target, the last command
    the barrier before the colour attachment, the buffer ended. *)
Lemma frame_command_sequence_witness :
  exists s' w' cb,
    frame Sample.no_keys Sample.a_backbuffer 1%nat (initialize Sample.scenario Sample.a_world)
    = Some (s', w')
    /\ the_queue w' = [(cb, 1%nat)]
    /\ cb_state cb = cb_executable
    /\ length (cb_commands cb) = 7%nat
    /\ cb_commands cb !! 3%nat
       = Some (cmd_trace_rays (1920, 1080, 1) (pl_handle (mPipeline s')) 0 0 0)
    /\ cb_commands cb !! 5%nat
       = Some (cmd_copy_image
                 (transition_to_layout
                    (create_image 1920 1080 50%nat general_storage_image))
                 Sample.a_backbuffer)
    /\ last (cb_commands cb)
       = Some (cmd_global_memory_barrier stage_transfer stage_color_attachment_output
                 transfer_write_access color_attachment_write_access).
Proof.
  destruct (frame_command_sequence Sample.scenario Sample.a_world _ _
              Sample.no_keys Sample.a_backbuffer 1%nat (sample_reachable Sample.scenario))
    as (s' & w' & cb & Hf & Hq & _ & Hstate & Hcmd).
  pose proof (f_equal (fun r => get_image (mOffscreenImageView (fst (default (s', w') r))))
                Hf) as Himg.
  vm_compute in Himg.
  change (transition_to_layout (create_image 1920 1080 50%nat general_storage_image)
          = get_image (mOffscreenImageView s')) in Himg.
  exists s', w', cb. split_and!.
  - rewrite <- Hf. by destruct (initialize Sample.scenario Sample.a_world).
  - exact Hq.
  - exact Hstate.
  - by rewrite Hcmd.
  - rewrite Hcmd, <- Himg. reflexivity.
  - rewrite Hcmd, <- Himg. reflexivity.
  - by rewrite Hcmd.
Defined.

(** The push constants of the first frame: the camera at the origin, the
    default field of view of 45 degrees, whose half angle is the float
    0x3EC90FDB, about 0.3927 = pi/8, and the initial light direction. *)
Lemma push_constant_block_witness :
  exists s' w' cb before extent after,
    frame Sample.no_keys Sample.a_backbuffer 1%nat
      (initialize Sample.scenario Sample.a_world) = Some (s', w')
    /\ the_queue w' = [(cb, 1%nat)]
    /\ cb_commands cb =
       before ++
       cmd_push_constants (pl_handle (mPipeline s')) 0x500 0 96
         [f_one; f_zero; f_zero; f_zero;
          f_zero; f_one; f_zero; f_zero;
          f_zero; f_zero; f_one; f_zero;
          f_zero; f_zero; f_zero; f_one;
          S754_finite false 13176795 (-25); f_zero; f_zero; f_zero;
          f_0_8; f_one; f_zero; f_zero]
       :: cmd_trace_rays extent (pl_handle (mPipeline s')) 0 0 0 :: after
    /\ (float_value f_45 == 45)%Q
    /\ (Qabs (float_value (S754_finite false 13176795 (-25))
              - half_angle_in_radians (float_value f_45))
        <= half_angle_in_radians (float_value f_45) * (1 # 4194304))%Q.
Proof.
  destruct (push_constant_block Sample.scenario Sample.a_world _ _
              Sample.no_keys Sample.a_backbuffer 1%nat (sample_reachable Sample.scenario))
    as (s' & w' & cb & before & extent & after & data
        & Hf & Hq & Hcmd & Hdata & Hhalf & _).
  pose proof (f_equal (fun r => mFieldOfViewForRayTracing (fst (default (s', w') r))) Hf)
    as Hfov.
  pose proof (f_equal (fun r => cam_global_transformation_matrix
                                  (mQuakeCam (fst (default (s', w') r)))) Hf) as Hcam.
  pose proof (f_equal (fun r => mLightDir (fst (default (s', w') r))) Hf) as Hlight.
  vm_compute in Hfov, Hcam, Hlight.
  change (f_45 = mFieldOfViewForRayTracing s') in Hfov.
  change (Sample.translation_matrix Sample.origin
          = cam_global_transformation_matrix (mQuakeCam s')) in Hcam.
  change (mk_vec3 f_0_8 f_one f_zero = mLightDir s') in Hlight.
  rewrite <- Hfov, <- Hcam, <- Hlight in Hdata. rewrite <- Hfov in Hhalf.
  exists s', w', cb, before, extent, after.
  split; [rewrite <- Hf; by destruct (initialize Sample.scenario Sample.a_world)|].
  split; [rewrite Hq; reflexivity|].
  split; [rewrite Hcmd, Hdata; reflexivity|].
  split; [reflexivity|].
  destruct Hhalf as (h & Hh & Hb); [split_and!; reflexivity|].
  rewrite Hdata in Hh. apply (inj Some) in Hh. rewrite <- Hh in Hb. exact Hb.
Defined.

(** A shader change right after [initialize]. *)
Lemma shader_change_rebuilds_only_pipeline_witness :
  let st := initialize Sample.scenario Sample.a_world in
  let st' := on_shader_files_changed (fun _ => 1%nat) (fst st, snd st) in
  mGeometry (fst st') = mGeometry (fst st)
  /\ mTlas (fst st') = mTlas (fst st)
  /\ mOffscreenImageView (fst st') = mOffscreenImageView (fst st).
Proof.
  destruct (shader_change_rebuilds_only_pipeline Sample.scenario Sample.a_world _ _
              (fun _ => 1%nat) (sample_reachable Sample.scenario))
    as (Hg & Ht & Ho & _).
  cbv zeta. split; [exact Hg|]. split; [exact Ht|exact Ho].
Defined.

(** A frame, which caches three descriptor sets, one of them for the
    render target; then two resizes to 800x600 and four frames, with
    three frames in flight. The set of the first render target has left
    the cache, the three cached sets are those of the latest members. *)
Lemma resize_rebuilds_target_then_pipeline_witness :
  let st0 := initialize Sample.scenario Sample.a_world in
  let st := default st0 (run [ev_frame Sample.no_keys Sample.a_backbuffer 1%nat] st0) in
  cache_image_view_handles (mDescriptorCache (fst st))
  = [iv_handle (mOffscreenImageView (fst st))]
  /\ exists st3,
       run (ev_swapchain_resized (800, 600) :: ev_swapchain_resized (800, 600)
            :: Sample.four_frames) st = Some st3
       /\ (iv_handle (mOffscreenImageView (fst st))
           ∉ cache_image_view_handles (mDescriptorCache (fst st3)))
       /\ cache_image_view_handles (mDescriptorCache (fst st3))
          = [iv_handle (mOffscreenImageView (fst st3))]
       /\ length (mDescriptorCache (fst st3)) = 3%nat
       /\ upd_retired (mUpdater (fst st3)) = [].
Proof.
  cbv zeta.
  set (st0 := initialize Sample.scenario Sample.a_world).
  set (es := [ev_frame Sample.no_keys Sample.a_backbuffer 1%nat]).
  set (st := default st0 (run es st0)).
  assert (reachable Sample.scenario Sample.a_world (fst st, snd st)) as Hreach.
  { exists es. vm_compute. reflexivity. }
  assert (Forall is_frame Sample.four_frames) as Hfr by (repeat constructor).
  assert (0 <= number_of_frames_in_flight (main_window (snd st))
          < Z.of_nat (length Sample.four_frames)) as Hlen by (vm_compute; split; congruence).
  destruct (resize_rebuilds_target_then_pipeline Sample.scenario Sample.a_world _ _
              (800, 600) Sample.four_frames Hreach Hfr Hlen)
    as (_ & _ & st3 & Hrun & _ & _ & _ & _ & Hret & Hold & _).
  split; [vm_compute; reflexivity|].
  exists st3.
  assert ((fst st, snd st) = st) as Hst by (vm_compute; reflexivity).
  rewrite Hst in Hrun.
  pose proof (f_equal (fun r => let s3 := fst (default st r) in
                                (cache_image_view_handles (mDescriptorCache s3),
                                 [iv_handle (mOffscreenImageView s3)])) Hrun) as Hcache.
  pose proof (f_equal (fun r => length (mDescriptorCache (fst (default st r)))) Hrun)
    as Hsets.
  vm_compute in Hcache, Hsets.
  apply pair_equal_spec in Hcache as [Hcache Hview].
  split; [exact Hrun|]. split; [exact Hold|].
  split; [exact (eq_trans (eq_sym Hcache) Hview)|].
  split; [exact (eq_sym Hsets)|exact Hret].
Defined.

(** A request in the first frame, then a frame without keys: the second
    frame enters the update block, two command buffers are submitted and
    the top-level structure is the one of [initialize]. *)
Lemma transform_request_updates_nothing_witness :
  let st := initialize Sample.scenario Sample.a_world in
  exists st1 stk,
    frame Sample.left_key Sample.a_backbuffer 1%nat (fst st, snd st) = Some st1
    /\ run [ev_frame Sample.no_keys Sample.a_backbuffer 2%nat] st1 = Some stk
    /\ update_block_entered (snd stk) (fst stk) = true
    /\ mTlas (fst stk) = mTlas (fst st)
    /\ length (the_queue (snd stk)) = 2%nat.
Proof.
  assert (Forall is_frame [ev_frame Sample.no_keys Sample.a_backbuffer 2%nat]) as Hfr
    by (repeat constructor).
  assert (Forall quiet_frame [ev_frame Sample.no_keys Sample.a_backbuffer 2%nat]) as Hq
    by (repeat constructor).
  destruct (transform_request_updates_nothing Sample.scenario Sample.a_world _ _
              Sample.left_key Sample.a_backbuffer 1%nat _
              (sample_reachable Sample.scenario) eq_refl Hfr)
    as (st1 & stk & new & Hf & Hrun & Ht & _ & Hqueue & Hlen & _ & Hwindow).
  exists st1, stk. split; [exact Hf|]. split; [exact Hrun|].
  destruct Hwindow as (_ & _ & Hentered);
    [vm_compute; discriminate|vm_compute; discriminate|vm_compute; reflexivity|exact Hq|].
  split; [rewrite Hentered; reflexivity|]. split; [exact Ht|].
  rewrite Hqueue, length_app, Hlen. reflexivity.
Defined.

(** C7 on a request followed by two quiet frames: three frames are
    submitted, each with the seven commands of [render], and the
    top-level structure is still the one built by [initialize] over the
    instances with their initial transforms. *)
Lemma no_tlas_update_after_request :
  let st0 := initialize Sample.scenario Sample.a_world in
  exists st,
    run [ev_frame Sample.left_key Sample.a_backbuffer 1%nat;
         ev_frame Sample.no_keys Sample.a_backbuffer 2%nat;
         ev_frame Sample.no_keys Sample.a_backbuffer 3%nat] st0 = Some st
    /\ mTlas (fst st) = mTlas (fst st0)
    /\ tlas_built_from (mTlas (fst st)) = Some (mGeometryInstances (fst st0))
    /\ map mTransform (mGeometryInstances (fst st))
       = map mTransform (mGeometryInstances (fst st0))
    /\ map (fun sub => length (cb_commands (fst sub))) (the_queue (snd st))
       = [7; 7; 7]%nat.
Proof.
  cbv zeta. eexists. split; [vm_compute; reflexivity|].
  vm_compute. repeat split.
Qed.

(** The scenario of section 8: four partitions and bottom-level
    structures, seven instances, a top-level structure for seven, four
    materials. *)
Example scenario_counts :
  let s := fst (initialize Sample.scenario Sample.a_world) in
  length (all_partitions Sample.scenario) = 4%nat
  /\ length (mBlas s) = 4%nat
  /\ length (mGeometryInstances s) = 7%nat
  /\ tlas_instance_count (mTlas s) = 7%nat
  /\ length (mb_contents (mMaterialBuffer s)) = 4%nat
  /\ custom_indices s = [0; 0; 1; 1; 2; 2; 3]
  /\ mBlasNamesAndRanges s = [("A"%string, 0, 6); ("B"%string, 6, 7)].
Proof. vm_compute. repeat split. Qed.

(** The default field of view of 45 degrees gives the [float] 0x3EC90FDB,
    about 0.3927 = pi/8, as half angle. *)
Example half_angle_of_default_field_of_view :
  fmul (glm_radians f_45) f_half = S754_finite false 13176795 (-25).
Proof. reflexivity. Qed.

(** * Further properties of scene ingestion *)

Section MoreIngestion.
Context `{G : Gvk}.

Lemma all_partitions_app o1 o2 :
  all_partitions (o1 ++ o2) = all_partitions o1 ++ all_partitions o2.
Proof. unfold all_partitions. apply flat_map_app. Qed.

Lemma scene_instance_count_app o1 o2 :
  scene_instance_count (o1 ++ o2)
  = (scene_instance_count o1 + scene_instance_count o2)%nat.
Proof.
  unfold scene_instance_count. rewrite map_app.
  induction (map model_instance_count o1); simpl; lia.
Qed.

Lemma scene_instance_count_cons m (o : orca_scene) :
  scene_instance_count (m :: o) = (model_instance_count m + scene_instance_count o)%nat.
Proof. reflexivity. Qed.

Lemma scene_split k m (orca : orca_scene) :
  orca !! k = Some m -> orca = take k orca ++ m :: drop (S k) orca.
Proof. intros H. by rewrite take_drop_middle. Qed.

Lemma ranges_from_lookup n (orca : orca_scene) k m :
  orca !! k = Some m ->
  ranges_from n orca !! k
  = Some (mName m,
          to_int (n + scene_instance_count (take k orca)),
          to_int (n + scene_instance_count (take k orca) + model_instance_count m)).
Proof.
  revert n k. induction orca as [|m0 orca IH]; intros n [|k] H; try done.
  - cbn in H. injection H as ->. cbn. by rewrite !Nat.add_0_r.
  - cbn in H. cbn [ranges_from]. cbn [lookup list_lookup]. rewrite (IH _ _ H).
    cbn [take]. rewrite scene_instance_count_cons. by rewrite !Nat.add_assoc.
Qed.

Lemma ranges_from_names n (orca : orca_scene) :
  map (fun e => fst (fst e)) (ranges_from n orca) = map mName orca.
Proof. revert n. induction orca as [|m orca IH]; intros n; cbn; [done|]. by rewrite IH. Qed.

(** X1: the recorded ranges delimit the models in the instance list. *)
Theorem recorded_ranges_delimit_models (orca : orca_scene) :
  Z.of_nat (scene_instance_count orca) < 2 ^ 31 ->
  Z.of_nat (length (all_partitions orca)) <= 2 ^ 32 ->
  let g := fst (load_models orca) in
  map (fun e => fst (fst e)) (mBlasNamesAndRanges g) = map mName orca
  /\ forall k m, orca !! k = Some m ->
       let from := scene_instance_count (take k orca) in
       mBlasNamesAndRanges g !! k
       = Some (mName m, Z.of_nat from, Z.of_nat (from + model_instance_count m))
       /\ take (model_instance_count m) (drop from (mGeometryInstances g))
          = instances_from Z.of_nat (length (all_partitions (take k orca)))
              (partitions_of m).
Proof.
  intros Hn Hp. cbv zeta. rewrite load_models_spec. cbn [fst mBlasNamesAndRanges mGeometryInstances].
  split; [apply ranges_from_names|]. intros k m Hk.
  pose proof (scene_split k m orca Hk) as Hsplit.
  assert (scene_instance_count orca
          = (scene_instance_count (take k orca) + model_instance_count m
             + scene_instance_count (drop (S k) orca))%nat) as Hcount.
  { rewrite Hsplit at 1. rewrite scene_instance_count_app.
    rewrite scene_instance_count_cons. lia. }
  split.
  - rewrite (ranges_from_lookup 0 orca k m Hk). cbn [Nat.add].
    by rewrite !to_int_small by lia.
  - rewrite instances_from_small by (simpl; lia).
    assert (all_partitions orca
            = all_partitions (take k orca) ++ partitions_of m
              ++ all_partitions (drop (S k) orca)) as ->.
    { rewrite Hsplit at 1. by rewrite all_partitions_app. }
    rewrite !instances_from_app.
    rewrite <- (length_scene_instances Z.of_nat 0 (take k orca)).
    rewrite drop_app_length.
    rewrite <- (length_instances_of_model Z.of_nat
                  (0 + length (all_partitions (take k orca))) m).
    by rewrite take_app_length.
Qed.


Lemma filter_partition_instances i k p :
  filter (fun gi => mInstanceCustomIndex gi = Z.of_nat i)
    (partition_instances Z.of_nat k p)
  = if decide (k = i) then partition_instances Z.of_nat k p else [].
Proof.
  unfold partition_instances. induction (mInstances (fst p)) as [|inst l IH].
  - by destruct (decide (k = i)).
  - cbn [map]. rewrite filter_cons, IH. cbn [mInstanceCustomIndex].
    destruct (decide (k = i)) as [->|Hne].
    + by rewrite decide_True.
    + rewrite decide_False; [done|]. lia.
Qed.

Lemma filter_instances_from i k ps :
  filter (fun gi => mInstanceCustomIndex gi = Z.of_nat i) (instances_from Z.of_nat k ps)
  = if decide (k <= i)%nat
    then match ps !! (i - k)%nat with
         | Some p => partition_instances Z.of_nat i p
         | None => []
         end
    else [].
Proof.
  revert k. induction ps as [|p ps IH]; intros k; cbn [instances_from].
  - rewrite filter_nil. by destruct (decide _).
  - rewrite filter_app, filter_partition_instances, IH.
    destruct (decide (k = i)) as [->|Hne].
    + rewrite decide_False by lia. rewrite decide_True by lia.
      rewrite Nat.sub_diag. cbn. by rewrite app_nil_r.
    + cbn [app]. destruct (decide (S k <= i)%nat) as [Hle|Hgt].
      * rewrite decide_True by lia.
        replace (i - k)%nat with (S (i - S k)) by lia. done.
      * by rewrite decide_False by lia.
Qed.

(** X2: the instances that carry custom index [i] are the ones created
    from partition [i], one per placement of its model and in the order
    of the placements; the transform of each is the matrix made from
    the placement's translation, rotation and scaling, stored column
    after column, and each refers to the bottom-level structure of the
    partition. An index that is no partition's is carried by no
    instance. *)
Theorem instances_of_custom_index (orca : orca_scene) (i : nat) :
  Z.of_nat (length (all_partitions orca)) <= 2 ^ 32 ->
  let on_i :=
    filter (fun gi => mInstanceCustomIndex gi = Z.of_nat i)
      (mGeometryInstances (fst (load_models orca))) in
  match all_partitions orca !! i with
  | Some p =>
      on_i = partition_instances Z.of_nat i p
      /\ map mTransform on_i
         = map (fun inst =>
                  let m := matrix_from_transforms (mTranslation inst) (mRotation inst)
                             (mScaling inst) in
                  [v4x (col0 m); v4y (col0 m); v4z (col0 m); v4w (col0 m);
                   v4x (col1 m); v4y (col1 m); v4z (col1 m); v4w (col1 m);
                   v4x (col2 m); v4y (col2 m); v4z (col2 m); v4w (col2 m);
                   v4x (col3 m); v4y (col3 m); v4z (col3 m); v4w (col3 m)])
             (mInstances (fst p))
      /\ Forall (fun gi => gi_blas gi = partition_blas p) on_i
  | None => on_i = []
  end.
Proof.
  intros H. cbv zeta. rewrite load_models_spec. cbn [fst mGeometryInstances].
  rewrite instances_from_small by (simpl; lia).
  rewrite filter_instances_from, decide_True, Nat.sub_0_r by lia.
  destruct (all_partitions orca !! i) as [p|]; [|done].
  unfold partition_instances. split; [done|]. split.
  - by rewrite map_map.
  - apply Forall_forall. intros gi Hgi.
    apply list_elem_of_In, in_map_iff in Hgi as (inst & <- & _). done.
Qed.

Lemma instances_from_Forall (P : geometry_instance -> Prop) enc k ps :
  (forall i p gi, p ∈ ps -> gi ∈ partition_instances enc i p -> P gi) ->
  Forall P (instances_from enc k ps).
Proof.
  revert k. induction ps as [|p ps IH]; intros k H; [constructor|].
  cbn [instances_from]. apply Forall_app. split.
  - apply Forall_forall. intros gi Hgi. eapply H; [|exact Hgi]. constructor.
  - apply IH. intros i q gi Hq Hgi. eapply H; [|exact Hgi]. by constructor.
Qed.

(** X3: every bottom-level structure is static and built over the
    geometry it was sized for. *)
Theorem bottom_level_structures_built (orca : orca_scene) (w : world) :
  let s := fst (initialize orca w) in
  Forall (fun b =>
            blas_allow_updates b = false
            /\ blas_built_from b = Some (blas_size_requirements b)
            /\ exists sel,
                 blas_size_requirements b
                 = [({| buf_attribute := positions; buf_selection := sel;
                        buf_device_address := true |},
                     {| buf_attribute := indices; buf_selection := sel;
                        buf_device_address := true |})])
    (mBlas s)
  /\ Forall (fun gi => gi_blas gi ∈ mBlas s) (mGeometryInstances s)
  /\ Forall (fun gi => length (mTransform gi) = 16%nat) (mGeometryInstances s)
  /\ tlas_allow_updates (mTlas s) = true.
Proof.
  destruct (initialize_members orca w) as (Hg & _ & Ht).
  cbv zeta.
  change (mBlas (fst (initialize orca w)))
    with (mBlas (mGeometry (fst (initialize orca w)))).
  change (mGeometryInstances (fst (initialize orca w)))
    with (mGeometryInstances (mGeometry (fst (initialize orca w)))).
  rewrite Ht, Hg, load_models_spec. cbn [fst mBlas mGeometryInstances].
  split_and!; [| | |done].
  - apply Forall_forall. intros b Hb.
    apply list_elem_of_In, in_map_iff in Hb as (p & <- & _).
    split; [done|]. split; [done|]. by exists (partition_selection p).
  - apply instances_from_Forall. intros i p gi Hp Hgi.
    apply list_elem_of_In, in_map_iff in Hgi as (inst & <- & _). cbn.
    apply list_elem_of_In, in_map_iff. exists p. split; [done|]. by apply list_elem_of_In.
  - apply instances_from_Forall. intros i p gi Hp Hgi.
    apply list_elem_of_In, in_map_iff in Hgi as (inst & <- & _). done.
Qed.


(** X4: what a shader finds under an instance's custom index. *)
Theorem instance_finds_its_data (orca : orca_scene) (w : world) :
  Z.of_nat (length (all_partitions orca)) <= 2 ^ 32 ->
  let s := fst (initialize orca w) in
  Forall (fun gi =>
            exists p gm,
              all_partitions orca !! Z.to_nat (mInstanceCustomIndex gi) = Some p
              /\ gi_blas gi = partition_blas p
              /\ mb_contents (mMaterialBuffer s) !! Z.to_nat (mInstanceCustomIndex gi)
                 = Some gm
              /\ gpu_data_of (partition_material p) gm
              /\ mIndexBufferViews s !! Z.to_nat (mInstanceCustomIndex gi)
                 = Some (partition_view indices p)
              /\ mTexCoordsBufferViews s !! Z.to_nat (mInstanceCustomIndex gi)
                 = Some (partition_view texture_coordinates p)
              /\ mNormalsBufferViews s !! Z.to_nat (mInstanceCustomIndex gi)
                 = Some (partition_view normals p))
    (mGeometryInstances s).
Proof.
  intros H. destruct (initialize_members orca w) as (Hg & Hb & _). cbv zeta.
  change (mGeometryInstances (fst (initialize orca w)))
    with (mGeometryInstances (mGeometry (fst (initialize orca w)))).
  change (mIndexBufferViews (fst (initialize orca w)))
    with (mIndexBufferViews (mGeometry (fst (initialize orca w)))).
  change (mTexCoordsBufferViews (fst (initialize orca w)))
    with (mTexCoordsBufferViews (mGeometry (fst (initialize orca w)))).
  change (mNormalsBufferViews (fst (initialize orca w)))
    with (mNormalsBufferViews (mGeometry (fst (initialize orca w)))).
  rewrite Hb, Hg, load_models_spec.
  cbn [fst snd mGeometryInstances mIndexBufferViews mTexCoordsBufferViews
       mNormalsBufferViews buffer_fill mb_contents].
  rewrite instances_from_small by (simpl; lia).
  pose proof (convert_for_gpu_usage_aligned
                (map partition_material (all_partitions orca))) as Hal.
  eapply Forall_impl; [apply instances_from_origin|].
  intros gi (j & p & Hp & Hci & Hbl). cbn in Hci. rewrite Hci, Nat2Z.id.
  assert (map partition_material (all_partitions orca) !! j
          = Some (partition_material p)) as Hm by by rewrite lookup_map, Hp.
  destruct (Forall2_lookup_l _ _ _ _ _ Hal Hm) as (gm & Hgm & Hof).
  exists p, gm. rewrite !lookup_map, Hp. done.
Qed.

(** X5: ingesting a model only appends, and keeps the parallel lists
    equally long. *)
Theorem add_model_appends (g : geometry_members) (md : list material_config)
    (m : model_data) :
  let g' := fst (add_model (g, md) m) in
  let md' := snd (add_model (g, md) m) in
  (mBlasNamesAndRanges g `prefix_of` mBlasNamesAndRanges g'
   /\ length (mBlasNamesAndRanges g') = S (length (mBlasNamesAndRanges g))
   /\ mBlas g `prefix_of` mBlas g'
   /\ mGeometryInstances g `prefix_of` mGeometryInstances g'
   /\ mPositionsBufferViews g `prefix_of` mPositionsBufferViews g'
   /\ mIndexBufferViews g `prefix_of` mIndexBufferViews g'
   /\ mNormalsBufferViews g `prefix_of` mNormalsBufferViews g'
   /\ mTexCoordsBufferViews g `prefix_of` mTexCoordsBufferViews g'
   /\ md `prefix_of` md')
  /\ (length (mPositionsBufferViews g) = length (mTexCoordsBufferViews g) ->
      length (mIndexBufferViews g) = length (mTexCoordsBufferViews g) ->
      length (mNormalsBufferViews g) = length (mTexCoordsBufferViews g) ->
      length (mBlas g) = length (mTexCoordsBufferViews g) ->
      length md = length (mTexCoordsBufferViews g) ->
      length (mPositionsBufferViews g') = length (mTexCoordsBufferViews g')
      /\ length (mIndexBufferViews g') = length (mTexCoordsBufferViews g')
      /\ length (mNormalsBufferViews g') = length (mTexCoordsBufferViews g')
      /\ length (mBlas g') = length (mTexCoordsBufferViews g')
      /\ length md' = length (mTexCoordsBufferViews g')).
Proof.
  cbv zeta. rewrite add_model_spec. cbn [fst snd mBlasNamesAndRanges mBlas
    mGeometryInstances mPositionsBufferViews mIndexBufferViews mNormalsBufferViews
    mTexCoordsBufferViews].
  split.
  - rewrite length_app. cbn [length].
    split_and!; try (by eexists). lia.
  - intros H1 H2 H3 H4 H5. rewrite !length_app, !length_map. lia.
Qed.

(** X6: a model without placements, or without meshes, adds no
    instance and records an empty range, while its partitions are
    uploaded all the same. *)
Theorem model_without_instances (g : geometry_members) (md : list material_config)
    (m : model_data) :
  mInstances m = [] \/ distinct_material_configs (mLoadedModel m) = [] ->
  let g' := fst (add_model (g, md) m) in
  mGeometryInstances g' = mGeometryInstances g
  /\ last (mBlasNamesAndRanges g')
     = Some (mName m, to_int (length (mGeometryInstances g)),
             to_int (length (mGeometryInstances g)))
  /\ length (mBlas g')
     = (length (mBlas g) + length (distinct_material_configs (mLoadedModel m)))%nat
  /\ length (mTexCoordsBufferViews g')
     = (length (mTexCoordsBufferViews g)
        + length (distinct_material_configs (mLoadedModel m)))%nat
  /\ length (snd (add_model (g, md) m))
     = (length md + length (distinct_material_configs (mLoadedModel m)))%nat.
Proof.
  intros H. cbv zeta. rewrite add_model_spec. cbn [fst snd mBlasNamesAndRanges mBlas
    mGeometryInstances mTexCoordsBufferViews].
  assert (model_instance_count m = 0%nat) as H0.
  { rewrite model_instance_count_eq. destruct H as [-> | ->]; cbn; lia. }
  assert (instances_from to_uint32 (length (mTexCoordsBufferViews g)) (partitions_of m)
          = []) as ->.
  { apply length_zero_iff_nil. by rewrite length_instances_of_model. }
  rewrite H0, Nat.add_0_r, app_nil_r, last_snoc, !length_app, !length_map.
  unfold partitions_of. by rewrite length_map.
Qed.


Lemma instances_from_wrapped_bounds k ps :
  Forall (fun gi => 0 <= mInstanceCustomIndex gi < 2 ^ 32
                    /\ mInstanceCustomIndex gi < Z.of_nat (k + length ps))
    (instances_from to_uint32 k ps).
Proof.
  revert k. induction ps as [|p ps IH]; intros k; [constructor|].
  cbn [instances_from]. apply Forall_app. split.
  - apply Forall_forall. intros gi Hgi.
    apply list_elem_of_In, in_map_iff in Hgi as (inst & <- & _).
    cbn [mInstanceCustomIndex length]. unfold to_uint32.
    pose proof (Z.mod_pos_bound (Z.of_nat k) (2 ^ 32) ltac:(lia)).
    pose proof (Z.mod_le (Z.of_nat k) (2 ^ 32) ltac:(lia) ltac:(lia)). lia.
  - eapply Forall_impl; [apply IH|]. cbn [length]. intros gi [? ?]. split; [done|lia].
Qed.

(** X7: whatever the size of the scene, a custom index fits 32 bits and
    addresses an existing entry of the parallel lists. *)
Theorem custom_index_always_in_bounds (orca : orca_scene) :
  let g := fst (load_models orca) in
  Forall (fun gi =>
            0 <= mInstanceCustomIndex gi < 2 ^ 32
            /\ is_Some (mTexCoordsBufferViews g !! Z.to_nat (mInstanceCustomIndex gi))
            /\ is_Some (mIndexBufferViews g !! Z.to_nat (mInstanceCustomIndex gi))
            /\ is_Some (mNormalsBufferViews g !! Z.to_nat (mInstanceCustomIndex gi))
            /\ is_Some (mBlas g !! Z.to_nat (mInstanceCustomIndex gi)))
    (mGeometryInstances g).
Proof.
  cbv zeta. rewrite load_models_spec.
  cbn [fst mGeometryInstances mTexCoordsBufferViews mIndexBufferViews
       mNormalsBufferViews mBlas].
  eapply Forall_impl; [apply instances_from_wrapped_bounds|].
  cbn. intros gi [Hr Hlt]. split; [done|].
  split_and!; apply lookup_lt_is_Some; rewrite length_map; lia.
Qed.

(** X8: the pipeline is bound to the members, whose arrays are equally
    long, and the render target has the size and format of the window. *)
Theorem initial_bindings_consistent (orca : orca_scene) (w : world) :
  let s := fst (initialize orca w) in
  pl_bindings (mPipeline s)
  = [descriptor_binding 0 0 (res_image_samplers (mImageSamplers s));
     descriptor_binding 0 1 (res_storage_buffer (mMaterialBuffer s));
     descriptor_binding 0 2 (res_uniform_texel_buffer_views (mIndexBufferViews s));
     descriptor_binding 0 3 (res_uniform_texel_buffer_views (mTexCoordsBufferViews s));
     descriptor_binding 0 4 (res_uniform_texel_buffer_views (mNormalsBufferViews s));
     descriptor_binding 1 0 (res_storage_image (mOffscreenImageView s));
     descriptor_binding 2 0 (res_acceleration_structure (mTlas s))]
  /\ length (mIndexBufferViews s) = mb_element_count (mMaterialBuffer s)
  /\ length (mTexCoordsBufferViews s) = mb_element_count (mMaterialBuffer s)
  /\ length (mNormalsBufferViews s) = mb_element_count (mMaterialBuffer s)
  /\ length (mb_contents (mMaterialBuffer s)) = mb_element_count (mMaterialBuffer s)
  /\ get_image (mOffscreenImageView s)
     = {| img_width := fst (resolution (main_window w));
          img_height := snd (resolution (main_window w));
          img_format := wnd_color_format (main_window w);
          img_usage := general_storage_image;
          img_layout_set := true |}
  /\ mDescriptorCache s = [].
Proof.
  destruct (initialize_members orca w) as (Hg & Hb & _). cbv zeta.
  split; [exact (cons_bindings _ (consistent_initialize orca w))|].
  change (mIndexBufferViews (fst (initialize orca w)))
    with (mIndexBufferViews (mGeometry (fst (initialize orca w)))).
  change (mTexCoordsBufferViews (fst (initialize orca w)))
    with (mTexCoordsBufferViews (mGeometry (fst (initialize orca w)))).
  change (mNormalsBufferViews (fst (initialize orca w)))
    with (mNormalsBufferViews (mGeometry (fst (initialize orca w)))).
  rewrite Hb, Hg, load_models_spec.
  cbn [fst snd mIndexBufferViews mTexCoordsBufferViews mNormalsBufferViews
       buffer_fill create_storage_buffer_from_data mb_element_count mb_contents].
  rewrite !length_map.
  pose proof (Forall2_length _ _ _
                (convert_for_gpu_usage_aligned
                   (map partition_material (all_partitions orca)))) as Hlen.
  rewrite length_map in Hlen.
  split_and!; try done.
  all: unfold initialize; destruct (load_models orca) as [g md];
    destruct (convert_for_gpu_usage md) as [gpu samplers]; cbn; try reflexivity; lia.
Qed.

End MoreIngestion.

(** * Further properties of [update] and [render] *)

Section MoreFrames.
Context `{G : Gvk}.

(** X9: without key input [update] changes nothing. *)
Theorem update_without_input (inp : input) (s : fluid_nightmare_main) (w : world) :
  (forall k, key_down inp k = false) ->
  (forall k, key_pressed inp k = false) ->
  update inp s w = (s, w).
Proof.
  intros Hd Hp. unfold update, note_transform_request, transform_update_requested.
  rewrite !Hd, !Hp. cbn. by destruct (update_block_entered w s).
Qed.

(** X10: [update] never touches the scene, the pipeline, the render
    target, the cache, the queue or the window. *)
Theorem update_leaves_rendering_state (inp : input) (s : fluid_nightmare_main)
    (w : world) :
  let s' := fst (update inp s w) in
  let w' := snd (update inp s w) in
  mGeometry s' = mGeometry s
  /\ mDescriptorCache s' = mDescriptorCache s
  /\ mLightDir s' = mLightDir s
  /\ mMaterialBuffer s' = mMaterialBuffer s
  /\ mImageSamplers s' = mImageSamplers s
  /\ mTlas s' = mTlas s
  /\ mOffscreenImageView s' = mOffscreenImageView s
  /\ mPipeline s' = mPipeline s
  /\ mFieldOfViewForRayTracing s' = mFieldOfViewForRayTracing s
  /\ mUpdater s' = mUpdater s
  /\ main_window w' = main_window w
  /\ the_queue w' = the_queue w
  /\ next_handle w' = next_handle w
  /\ (key_pressed inp kc_f1 = false ->
      mQuakeCam s' = mQuakeCam s
      /\ imgui_user_interaction w' = imgui_user_interaction w)
  /\ (transform_update_requested inp = false ->
      updateUntilFrame s' = updateUntilFrame s).
Proof.
  cbv zeta. unfold update, note_transform_request.
  destruct (transform_update_requested inp), (key_pressed inp kc_space),
    (key_pressed inp kc_escape), (key_pressed inp kc_f1);
    try destruct (cam_is_enabled _); cbn;
    repeat match goal with |- context [if ?b then _ else _] => destruct b end;
    split_and!; try reflexivity; try done.
Qed.

(** X11: the escape key stops the composition, for good as far as
    [update] goes, and the space key logs the camera position once. *)
Theorem update_escape_and_space (inp : input) (s : fluid_nightmare_main) (w : world) :
  let w' := snd (update inp s w) in
  composition_stopped w' = composition_stopped w || key_pressed inp kc_escape
  /\ log_messages w'
     = log_messages w ++
       (if key_pressed inp kc_space then [cam_translation (mQuakeCam s)] else []).
Proof.
  cbv zeta. unfold update, note_transform_request.
  destruct (transform_update_requested inp), (key_pressed inp kc_space),
    (key_pressed inp kc_escape), (key_pressed inp kc_f1);
    try destruct (cam_is_enabled _); cbn;
    repeat match goal with |- context [if ?b then _ else _] => destruct b end;
    rewrite ?app_nil_r, ?orb_true_r, ?orb_false_r; split; reflexivity.
Qed.

(** X12: the F1 key hands the input over: afterwards the camera is
    enabled exactly when it was not before, and the UI takes input
    exactly when the camera does not. *)
Theorem update_toggles_input_mode (inp : input) (s : fluid_nightmare_main) (w : world) :
  (forall c, cam_is_enabled (cam_enable c) = true) ->
  (forall c, cam_is_enabled (cam_disable c) = false) ->
  key_pressed inp kc_f1 = true ->
  let s' := fst (update inp s w) in
  let w' := snd (update inp s w) in
  cam_is_enabled (mQuakeCam s') = negb (cam_is_enabled (mQuakeCam s))
  /\ imgui_user_interaction w'
     = option_map (fun _ => negb (cam_is_enabled (mQuakeCam s')))
         (imgui_user_interaction w).
Proof.
  intros Hen Hdis Hf1. cbv zeta.
  assert (mQuakeCam (fst (update inp s w))
          = (if cam_is_enabled (mQuakeCam s) then cam_disable (mQuakeCam s)
             else cam_enable (mQuakeCam s))
          /\ imgui_user_interaction (snd (update inp s w))
             = option_map (fun _ => cam_is_enabled (mQuakeCam s))
                 (imgui_user_interaction w)) as [Hc Hi].
  { unfold update, note_transform_request. rewrite Hf1.
    destruct (transform_update_requested inp), (key_pressed inp kc_space),
      (key_pressed inp kc_escape); cbn;
      destruct (update_block_entered _ _); cbn;
      destruct (cam_is_enabled (mQuakeCam s)); cbn; done. }
  rewrite Hc, Hi.
  destruct (cam_is_enabled (mQuakeCam s)); rewrite ?Hen, ?Hdis; done.
Qed.


#[local] Arguments prepare_descriptor_sets : simpl never.

(** X13: [render] fails exactly when the frame's semaphore is not
    available; otherwise it submits one executable command buffer that
    waits on the semaphore, hands the same buffer to the window, uses
    the semaphore up and leaves every member but the cache alone. *)
Theorem render_effects (s : fluid_nightmare_main) (w : world) :
  match render s w with
  | None => image_available_semaphore (main_window w) = None
  | Some (s', w') =>
      exists sem cb,
        image_available_semaphore (main_window w) = Some sem
        /\ the_queue w' = the_queue w ++ [(cb, sem)]
        /\ wnd_lifetime_handled (main_window w')
           = wnd_lifetime_handled (main_window w) ++ [cb]
        /\ cb_state cb = cb_executable
        /\ cb_one_time_submit cb = true
        /\ length (cb_commands cb) = 7%nat
        /\ image_available_semaphore (main_window w') = None
        /\ render s' w' = None
        /\ mGeometry s' = mGeometry s
        /\ mTlas s' = mTlas s
        /\ mMaterialBuffer s' = mMaterialBuffer s
        /\ mOffscreenImageView s' = mOffscreenImageView s
        /\ mPipeline s' = mPipeline s
        /\ mQuakeCam s' = mQuakeCam s
        /\ mLightDir s' = mLightDir s
        /\ mFieldOfViewForRayTracing s' = mFieldOfViewForRayTracing s
        /\ updateUntilFrame s' = updateUntilFrame s
        /\ resolution (main_window w') = resolution (main_window w)
        /\ current_frame (main_window w') = current_frame (main_window w)
        /\ next_handle w' = next_handle w
  end.
Proof.
  destruct (image_available_semaphore (main_window w)) as [sem|] eqn:Hsem.
  - destruct (render_spec s w sem Hsem) as (mw & Heq & _).
    unfold render, consume_current_image_available_semaphore in *.
    rewrite Hsem in *. cbn [fst snd] in *. clear Heq.
    eexists sem, _. split; [reflexivity|]. split; [reflexivity|].
    split; [reflexivity|]. split; [reflexivity|]. split; [reflexivity|].
    split; [reflexivity|]. split; [reflexivity|].
    split; [|split_and!; reflexivity].
    apply render_none. reflexivity.
  - by rewrite render_none.
Qed.

Lemma get_or_create_prefix sets (cache : list descriptor_set) :
  cache `prefix_of` fold_left get_or_create_descriptor_set sets cache.
Proof.
  revert cache. induction sets as [|d sets IH]; intros cache; cbn [fold_left]; [done|].
  etrans; [|apply IH]. unfold get_or_create_descriptor_set.
  case_bool_decide; [done|]. by apply prefix_app_r.
Qed.

Lemma get_or_create_contains sets (cache : list descriptor_set) d :
  d ∈ sets -> d ∈ fold_left get_or_create_descriptor_set sets cache.
Proof.
  revert cache. induction sets as [|d0 sets IH]; intros cache Hd; [by apply elem_of_nil in Hd|].
  cbn [fold_left]. apply elem_of_cons in Hd as [->|Hd]; [|by apply IH].
  eapply elem_of_prefix; [|apply get_or_create_prefix].
  unfold get_or_create_descriptor_set. case_bool_decide; [done|].
  apply elem_of_app. right. constructor.
Qed.

Lemma get_or_create_cached sets (cache : list descriptor_set) :
  (forall d, d ∈ sets -> d ∈ cache) ->
  fold_left get_or_create_descriptor_set sets cache = cache.
Proof.
  induction sets as [|d sets IH]; intros H; cbn [fold_left]; [done|].
  unfold get_or_create_descriptor_set at 2.
  rewrite bool_decide_eq_true_2 by (apply H; constructor).
  apply IH. intros d' Hd'. apply H. by constructor.
Qed.

Lemma get_or_create_length sets (cache : list descriptor_set) :
  (length (fold_left get_or_create_descriptor_set sets cache)
   <= length cache + length sets)%nat.
Proof.
  revert cache. induction sets as [|d sets IH]; intros cache; cbn [fold_left length]; [lia|].
  etrans; [apply IH|]. unfold get_or_create_descriptor_set.
  case_bool_decide; rewrite ?length_app; cbn; lia.
Qed.

(** X14: [render] only adds to the descriptor cache, at most the three
    sets of its bindings, and a second [render] with the same members
    adds nothing. *)
Theorem render_reuses_cached_sets (s s' s'' : fluid_nightmare_main) (w w' w2 w'' : world) :
  render s w = Some (s', w') ->
  render s' w2 = Some (s'', w'') ->
  mDescriptorCache s `prefix_of` mDescriptorCache s'
  /\ (length (mDescriptorCache s') <= length (mDescriptorCache s) + 3)%nat
  /\ (forall d, d ∈ prepare_descriptor_sets (member_bindings s) ->
                d ∈ mDescriptorCache s')
  /\ mDescriptorCache s'' = mDescriptorCache s'.
Proof.
  intros H1 H2.
  destruct (image_available_semaphore (main_window w)) as [sem|] eqn:Hsem;
    [|by rewrite render_none in H1].
  destruct (render_spec s w sem Hsem) as (mw & Heq & _).
  rewrite Heq in H1. apply (inj Some), pair_equal_spec in H1 as [<- <-].
  destruct (image_available_semaphore (main_window w2)) as [sem2|] eqn:Hsem2;
    [|by rewrite render_none in H2].
  match type of H2 with render ?s1 _ = _ =>
    destruct (render_spec s1 w2 sem2 Hsem2) as (mw2 & Heq2 & _)
  end.
  rewrite Heq2 in H2. apply (inj Some), pair_equal_spec in H2 as [<- <-].
  change (member_bindings (with_mDescriptorCache ?c s)) with (member_bindings s).
  cbn [mDescriptorCache with_mDescriptorCache].
  split; [apply get_or_create_prefix|]. split.
  - etrans; [apply get_or_create_length|]. done.
  - split; [intros d; apply get_or_create_contains|].
    apply get_or_create_cached. intros d. apply get_or_create_contains.
Qed.

(** X15: what the user sets in the UI is what the next [render] writes
    as push constants. The light direction is the dragged vector times
    one over the square root of its scalar product with itself, computed
    in binary32, with a zero fourth component. The half angle is the
    field of view times the binary32 number next to pi/180 times one
    half; for a field of view in the range of the widget it differs from
    half the field of view in radians by at most 2^-22 of it. Scene,
    top-level structure and pipeline are left alone. *)
Theorem ui_settings_reach_push_constants (light : vec3) (fov : float)
    (s : fluid_nightmare_main) (w : world) (sem : nat) :
  image_available_semaphore (main_window w) = Some sem ->
  exists s' w' cb data,
    render (imgui_callback light fov s) w = Some (s', w')
    /\ last (the_queue w') = Some (cb, sem)
    /\ cb_commands cb !! 2%nat
       = Some (cmd_push_constants (pl_handle (mPipeline s))
                 (Z.lor eRaygenKHR eClosestHitKHR) 0 sizeof_push_const_data data)
    /\ data =
       (let m := cam_global_transformation_matrix (mQuakeCam s) in
        let k :=
          SFdiv 24 128 (S754_finite false 8388608 (-23))
            (SFsqrt 24 128
               (SFadd 24 128
                  (SFadd 24 128 (SFmul 24 128 (v3x light) (v3x light))
                     (SFmul 24 128 (v3y light) (v3y light)))
                  (SFmul 24 128 (v3z light) (v3z light)))) in
        [v4x (col0 m); v4y (col0 m); v4z (col0 m); v4w (col0 m);
         v4x (col1 m); v4y (col1 m); v4z (col1 m); v4w (col1 m);
         v4x (col2 m); v4y (col2 m); v4z (col2 m); v4w (col2 m);
         v4x (col3 m); v4y (col3 m); v4z (col3 m); v4w (col3 m);
         SFmul 24 128 (SFmul 24 128 fov (S754_finite false 9370165 (-29)))
           (S754_finite false 8388608 (-24));
         S754_zero false; S754_zero false; S754_zero false;
         SFmul 24 128 (v3x light) k; SFmul 24 128 (v3y light) k;
         SFmul 24 128 (v3z light) k; S754_zero false])
    /\ (field_of_view_in_range fov ->
        exists h,
          data !! 16%nat = Some h
          /\ (Qabs (float_value h - half_angle_in_radians (float_value fov))
              <= half_angle_in_radians (float_value fov) * (1 # 4194304))%Q)
    /\ mGeometry s' = mGeometry s
    /\ mTlas s' = mTlas s
    /\ mPipeline s' = mPipeline s.
Proof.
  intros Hsem.
  destruct (render_spec (imgui_callback light fov s) w sem Hsem) as (mw & Heq & _).
  rewrite Heq. eexists _, _, _, _. split; [reflexivity|].
  cbn [the_queue with_main_window with_the_queue]. rewrite last_snoc.
  split; [reflexivity|]. split; [reflexivity|]. split; [reflexivity|].
  split; [|done].
  intros Hfov. destruct (half_angle_value _ Hfov) as (m & e & Hh & Hv).
  eexists. split; [reflexivity|].
  cbn [mFieldOfViewForRayTracing imgui_callback with_ui_settings]. rewrite Hh. exact Hv.
Qed.


Lemma filter_idempotent {A} (P : A -> Prop) `{forall x, Decision (P x)} (l : list A) :
  filter P (filter P l) = filter P l.
Proof.
  induction l as [|x l IH]; [done|]. rewrite filter_cons.
  case_decide; [|done]. rewrite filter_cons, decide_True by done. by rewrite IH.
Qed.

Lemma filter_length_split {A} (P : A -> Prop) `{forall x, Decision (P x)} (l : list A) :
  (length l - length (filter P l) + length (filter P l) = length l)%nat.
Proof. pose proof (length_filter P l). lia. Qed.

(** X16: the cleanup callback drops from the cache exactly the sets
    that refer to the image view, keeps the others in order, counts what
    it dropped, and has nothing left to do when invoked again. *)
Theorem remove_sets_callback_effect (v : image_view) (s : fluid_nightmare_main) :
  let s' := remove_sets_callback v s in
  (forall d, d ∈ mDescriptorCache s'
             <-> d ∈ mDescriptorCache s /\ iv_handle v ∉ set_image_view_handles d)
  /\ mDescriptorCache s' `sublist_of` mDescriptorCache s
  /\ (fst (remove_sets_with_handle (iv_handle v) (mDescriptorCache s))
      + length (mDescriptorCache s') = length (mDescriptorCache s))%nat
  /\ remove_sets_callback v s' = s'
  /\ mGeometry s' = mGeometry s
  /\ mTlas s' = mTlas s
  /\ mOffscreenImageView s' = mOffscreenImageView s
  /\ mPipeline s' = mPipeline s.
Proof.
  cbv zeta. unfold remove_sets_callback, remove_sets_with_handle.
  cbn [fst snd mDescriptorCache with_mDescriptorCache].
  split_and!; try reflexivity.
  - intros d. rewrite list_elem_of_filter. tauto.
  - apply sublist_filter.
  - apply filter_length_split.
  - unfold with_mDescriptorCache. cbn. by rewrite filter_idempotent.
Qed.


(** X18: every frame submits exactly one command buffer, which waits
    on the semaphore of that frame; over several frames the queue grows
    by one submission per frame, in the order of the frames. *)
Theorem frames_submit_in_order (orca : orca_scene) (w0 : world)
    (fs : list (input * image * nat)) (st : fluid_nightmare_main * world) :
  reachable orca w0 st ->
  exists st' new,
    run (map (fun f => ev_frame (fst (fst f)) (snd (fst f)) (snd f)) fs) st = Some st'
    /\ the_queue (snd st') = the_queue (snd st) ++ new
    /\ map snd new = map snd fs
    /\ Forall (fun sub => cb_state (fst sub) = cb_executable
                          /\ cb_one_time_submit (fst sub) = true
                          /\ length (cb_commands (fst sub)) = 7%nat) new.
Proof.
  intros Hreach. apply reachable_consistent in Hreach as Hc. clear Hreach.
  revert st Hc. induction fs as [|[[inp b] sem] fs IH]; intros [s w] Hc.
  - exists (s, w), []. cbn. by rewrite app_nil_r.
  - cbn [map run step fst snd].
    destruct (frame_spec inp b sem s w (cons_handlers _ Hc))
      as (s3 & w3 & mw & _ & _ & _ & _ & _ & _ & Hf).
    pose proof (consistent_frame _ _ _ _ _ Hc Hf) as Hc1.
    rewrite Hf. destruct (IH _ Hc1) as (st' & new & Hrun & Hq & Hmap & Hall).
    exists st', ((frame_command_buffer s3 w3, sem) :: new).
    cbn [fst snd the_queue with_main_window with_the_queue] in *.
    rewrite Hrun, Hq, <- app_assoc. cbn [map snd]. rewrite Hmap.
    split_and!; try done. by constructor.
Qed.


Lemma step_keeps_scene e st st' :
  consistent st -> step e st = Some st' ->
  mGeometry (fst st') = mGeometry (fst st)
  /\ mTlas (fst st') = mTlas (fst st)
  /\ mMaterialBuffer (fst st') = mMaterialBuffer (fst st)
  /\ mImageSamplers (fst st') = mImageSamplers (fst st).
Proof.
  destruct st as [s w]. intros Hc Hs. pose proof (cons_handlers _ Hc) as Hh.
  cbn [fst] in Hh. destruct e as [inp b sem|res|files|light fov]; cbn [step] in Hs.
  - destruct (frame_effect inp b sem s w Hh)
      as (s1 & w1 & Hf & Hg & Ht & Hm & Hi & _).
    rewrite Hf in Hs. apply (inj Some) in Hs. by subst st'.
  - apply (inj Some) in Hs. subst st'. unfold on_swapchain_resized.
    rewrite fire_swapchain_resized by done. done.
  - apply (inj Some) in Hs. subst st'. unfold on_shader_files_changed.
    rewrite fire_shader_files_changed by done. done.
  - apply (inj Some) in Hs. by subst st'.
Qed.

(** X19: after [initialize] the scene data never change: the buffer
    views, the bottom-level structures, the instances, the materials and
    the top-level structure, which stays built over all the instances. *)
Theorem scene_is_static (orca : orca_scene) (w0 : world)
    (st : fluid_nightmare_main * world) :
  reachable orca w0 st ->
  mGeometry (fst st) = fst (load_models orca)
  /\ mTlas (fst st) = mTlas (fst (initialize orca w0))
  /\ mMaterialBuffer (fst st) = mMaterialBuffer (fst (initialize orca w0))
  /\ mImageSamplers (fst st) = mImageSamplers (fst (initialize orca w0))
  /\ tlas_built_from (mTlas (fst st)) = Some (mGeometryInstances (fst st))
  /\ tlas_instance_count (mTlas (fst st)) = length (mGeometryInstances (fst st)).
Proof.
  intros [es Hrun].
  assert (mGeometry (fst st) = mGeometry (fst (initialize orca w0))
          /\ mTlas (fst st) = mTlas (fst (initialize orca w0))
          /\ mMaterialBuffer (fst st) = mMaterialBuffer (fst (initialize orca w0))
          /\ mImageSamplers (fst st) = mImageSamplers (fst (initialize orca w0)))
    as (Hg & Ht & Hm & Hi).
  { pose proof (consistent_initialize orca w0) as Hc. revert Hc Hrun.
    generalize (initialize orca w0). intros st0. revert st0.
    induction es as [|e es IH]; intros st0 Hc Hrun; cbn [run] in Hrun.
    - apply (inj Some) in Hrun. by subst.
    - destruct (step e st0) as [st1|] eqn:Hs; [|done].
      destruct (step_keeps_scene e st0 st1 Hc Hs) as (Hg & Ht & Hm & Hi).
      destruct (IH st1 (consistent_step _ _ _ Hc Hs) Hrun) as (Hg' & Ht' & Hm' & Hi').
      split_and!; congruence. }
  destruct (initialize_members orca w0) as (Hg0 & _ & Ht0).
  change (mGeometryInstances (fst st)) with (mGeometryInstances (mGeometry (fst st))).
  rewrite Hg, Ht, Hm, Hi, Hg0, Ht0. done.
Qed.

End MoreFrames.

(** * The further properties on the sample scenes *)

(** Model B of the scenario: the second range, positions 6 to 7. *)
Lemma recorded_ranges_delimit_models_witness :
  mBlasNamesAndRanges (fst (load_models Sample.scenario)) !! 1%nat
  = Some ("B"%string, 6, 7).
Proof.
  assert (Z.of_nat (scene_instance_count Sample.scenario) < 2 ^ 31) as H1
    by (vm_compute; reflexivity).
  assert (Z.of_nat (length (all_partitions Sample.scenario)) <= 2 ^ 32) as H2
    by (vm_compute; discriminate).
  destruct (recorded_ranges_delimit_models Sample.scenario H1 H2) as [_ H].
  destruct (H 1%nat Sample.model_B eq_refl) as [Hr _]. exact Hr.
Defined.

(** The first partition of the scenario is placed twice, at the origin
    and one unit along x: two instances carry index 0, with these two
    translations in the last column of their transforms. *)
Lemma instances_of_custom_index_witness :
  map mTransform
    (filter (fun gi => mInstanceCustomIndex gi = 0)
       (mGeometryInstances (fst (load_models Sample.scenario))))
  = [[f_one; f_zero; f_zero; f_zero;
      f_zero; f_one; f_zero; f_zero;
      f_zero; f_zero; f_one; f_zero;
      f_zero; f_zero; f_zero; f_one];
     [f_one; f_zero; f_zero; f_zero;
      f_zero; f_one; f_zero; f_zero;
      f_zero; f_zero; f_one; f_zero;
      f_one; f_zero; f_zero; f_one]].
Proof.
  assert (Z.of_nat (length (all_partitions Sample.scenario)) <= 2 ^ 32) as H
    by (vm_compute; discriminate).
  pose proof (instances_of_custom_index Sample.scenario 0 H) as Hx.
  cbv zeta in Hx.
  change (all_partitions Sample.scenario !! 0%nat)
    with (Some (Sample.model_A, (7%nat, [0; 2]%nat))) in Hx.
  destruct Hx as (_ & Hx & _). change (Z.of_nat 0) with 0 in Hx. rewrite Hx. reflexivity.
Defined.

(** The instances of the scenario find their materials. *)
Lemma instance_finds_its_data_witness :
  Forall (fun gi =>
            exists p gm,
              all_partitions Sample.scenario !! Z.to_nat (mInstanceCustomIndex gi)
              = Some p
              /\ mb_contents (mMaterialBuffer (fst (initialize Sample.scenario
                                                      Sample.a_world)))
                 !! Z.to_nat (mInstanceCustomIndex gi) = Some gm
              /\ partition_material p = gm)
    (mGeometryInstances (fst (initialize Sample.scenario Sample.a_world))).
Proof.
  assert (Z.of_nat (length (all_partitions Sample.scenario)) <= 2 ^ 32) as H
    by (vm_compute; discriminate).
  eapply Forall_impl;
    [exact (instance_finds_its_data Sample.scenario Sample.a_world H)|].
  intros gi (p & gm & Hp & _ & Hm & Hof & _). exists p, gm. auto.
Defined.

(** Ingesting model A into the empty members. *)
Lemma add_model_appends_witness :
  length (mBlas (fst (add_model (no_geometry, []) Sample.model_A)))
  = length (mTexCoordsBufferViews (fst (add_model (no_geometry, []) Sample.model_A))).
Proof.
  destruct (add_model_appends no_geometry [] Sample.model_A) as [_ H].
  destruct (H eq_refl eq_refl eq_refl eq_refl eq_refl) as (_ & _ & _ & Hb & _).
  exact Hb.
Defined.

(** The unplaced model adds two bottom-level structures and no instance. *)
Lemma model_without_instances_witness :
  mGeometryInstances (fst (add_model (no_geometry, []) Sample.unplaced_model)) = []
  /\ length (mBlas (fst (add_model (no_geometry, []) Sample.unplaced_model))) = 2%nat.
Proof.
  destruct (model_without_instances no_geometry [] Sample.unplaced_model
              (or_introl eq_refl)) as (Hi & _ & Hb & _).
  split; [exact Hi|exact Hb].
Defined.

(** No key: the state after [initialize] stays as it is. *)
Lemma update_without_input_witness :
  update Sample.no_keys (fst (initialize Sample.scenario Sample.a_world)) Sample.a_world
  = (fst (initialize Sample.scenario Sample.a_world), Sample.a_world).
Proof.
  apply update_without_input; intros k; reflexivity.
Defined.

(** The left key alone leaves camera and UI as they are. *)
Lemma update_leaves_rendering_state_witness :
  mQuakeCam (fst (update Sample.left_key
                    (fst (initialize Sample.scenario Sample.a_world)) Sample.a_world))
  = mQuakeCam (fst (initialize Sample.scenario Sample.a_world)).
Proof.
  destruct (update_leaves_rendering_state Sample.left_key
              (fst (initialize Sample.scenario Sample.a_world)) Sample.a_world)
    as (_ & _ & _ & _ & _ & _ & _ & _ & _ & _ & _ & _ & _ & Hf1 & _).
  destruct (Hf1 eq_refl) as [Hc _]. exact Hc.
Defined.

(** F1 after [initialize]: the camera goes off, the UI takes over. *)
Lemma update_toggles_input_mode_witness :
  imgui_user_interaction
    (snd (update Sample.f1_key (fst (initialize Sample.scenario Sample.a_world))
            Sample.a_world))
  = Some true.
Proof.
  destruct (update_toggles_input_mode Sample.f1_key
              (fst (initialize Sample.scenario Sample.a_world)) Sample.a_world
              (fun c => eq_refl) (fun c => eq_refl) eq_refl) as [_ Hi].
  rewrite Hi. reflexivity.
Defined.

(** Two renders of the same members: the second creates no set. *)
Lemma render_reuses_cached_sets_witness :
  let s := fst (initialize Sample.scenario Sample.a_world) in
  let r1 := default (s, Sample.a_frame_world) (render s Sample.a_frame_world) in
  let r2 := default r1 (render (fst r1) Sample.a_frame_world) in
  length (mDescriptorCache (fst r1)) = 3%nat
  /\ mDescriptorCache (fst r2) = mDescriptorCache (fst r1).
Proof.
  cbv zeta.
  set (s := fst (initialize Sample.scenario Sample.a_world)).
  set (r1 := default (s, Sample.a_frame_world) (render s Sample.a_frame_world)).
  set (r2 := default r1 (render (fst r1) Sample.a_frame_world)).
  assert (render s Sample.a_frame_world = Some (fst r1, snd r1)) as H1
    by (vm_compute; reflexivity).
  assert (render (fst r1) Sample.a_frame_world = Some (fst r2, snd r2)) as H2
    by (vm_compute; reflexivity).
  destruct (render_reuses_cached_sets _ _ _ _ _ _ _ H1 H2) as (_ & _ & _ & Heq).
  split; [vm_compute; reflexivity|exact Heq].
Defined.

(** The light direction dragged to (0.75, 1, 0) and the field of view to
    60 degrees, then a frame: the light direction written is
    (0.6, 0.8, 0) in binary32, of length one up to 2^-22, and the half
    angle is the float next to pi/6. *)
Lemma ui_settings_reach_push_constants_witness :
  exists s' w' cb data,
    render (imgui_callback (mk_vec3 f_0_75 f_one f_zero) f_60
              (fst (initialize Sample.scenario Sample.a_world)))
      Sample.a_frame_world = Some (s', w')
    /\ last (the_queue w') = Some (cb, 1%nat)
    /\ cb_commands cb !! 2%nat = Some (cmd_push_constants 2 0x500 0 96 data)
    /\ drop 16 data =
       [S754_finite false 8784530 (-24); f_zero; f_zero; f_zero;
        S754_finite false 10066330 (-24); f_0_8; f_zero; f_zero]
    /\ (Qabs (float_value (S754_finite false 10066330 (-24))
                * float_value (S754_finite false 10066330 (-24))
              + float_value f_0_8 * float_value f_0_8 - 1)
        <= 1 # 4194304)%Q
    /\ (float_value f_60 == 60)%Q
    /\ (Qabs (float_value (S754_finite false 8784530 (-24))
              - half_angle_in_radians (float_value f_60))
        <= half_angle_in_radians (float_value f_60) * (1 # 4194304))%Q.
Proof.
  destruct (ui_settings_reach_push_constants (mk_vec3 f_0_75 f_one f_zero)
              f_60
              (fst (initialize Sample.scenario Sample.a_world))
              Sample.a_frame_world 1%nat eq_refl)
    as (s' & w' & cb & data & Hr & Hq & Hcmd & Hdata & Hhalf & _).
  exists s', w', cb, data. split; [exact Hr|]. split; [exact Hq|].
  split; [exact Hcmd|]. split; [rewrite Hdata; reflexivity|].
  split; [vm_compute; discriminate|]. split; [reflexivity|].
  destruct Hhalf as (h & Hh & Hb); [split_and!; reflexivity|].
  rewrite Hdata in Hh. apply (inj Some) in Hh. rewrite <- Hh in Hb. exact Hb.
Defined.


(** Three frames with the semaphores 5, 6 and 7. *)
Lemma frames_submit_in_order_witness :
  exists st',
    run (map (fun f => ev_frame (fst (fst f)) (snd (fst f)) (snd f)) Sample.three_frames)
      (fst (initialize Sample.scenario Sample.a_world),
       snd (initialize Sample.scenario Sample.a_world)) = Some st'
    /\ map snd (the_queue (snd st')) = [5; 6; 7]%nat.
Proof.
  destruct (frames_submit_in_order Sample.scenario Sample.a_world Sample.three_frames _
              (sample_reachable Sample.scenario))
    as (st' & new & Hrun & Hq & Hmap & _).
  exists st'. split; [exact Hrun|]. rewrite Hq, map_app, Hmap. reflexivity.
Defined.

(** After a resize and a frame the top-level structure is the initial one. *)
Lemma scene_is_static_witness :
  let st0 := initialize Sample.scenario Sample.a_world in
  let st :=
    default st0
      (run [ev_swapchain_resized (800, 600);
            ev_frame Sample.left_key Sample.a_backbuffer 1%nat] st0) in
  mTlas (fst st) = mTlas (fst st0).
Proof.
  cbv zeta.
  set (st0 := initialize Sample.scenario Sample.a_world).
  set (es := [ev_swapchain_resized (800, 600);
              ev_frame Sample.left_key Sample.a_backbuffer 1%nat]).
  set (st := default st0 (run es st0)).
  assert (reachable Sample.scenario Sample.a_world st) as Hreach.
  { exists es. vm_compute. reflexivity. }
  destruct (scene_is_static Sample.scenario Sample.a_world st Hreach) as (_ & Ht & _).
  exact Ht.
Defined.
